(** * Zombie resource pipeline: fetch value types, resource pipeline, XHR

    A shallow embedding of the HTTP resource-acquisition core of the
    headless browser:
    - [Headers], [Body], [Request], [Response] of the fetch module;
    - the resource pipeline of [resources.js] ([request], [_runPipeline],
      [makeHTTPRequest], [handleResponse] and the other default handlers);
    - the [XMLHttpRequest] state machine of [xhr.js].

    JavaScript strings are modelled as [string]; case mapping acts on the
    ASCII letters.  Callbacks are defunctionalised: a handler returns the
    argument it passes to its continuation. *)

From stdpp Require Import base option list strings pretty.

From Stdlib Require Import Ascii.

Local Open Scope string_scope.
Local Open Scope list_scope.

(** ** JavaScript string primitives *)

Module JS.

Definition CR : ascii := "013"%char.
Definition LF : ascii := "010"%char.

Definition lower_ascii (c : ascii) : ascii :=
  let n := nat_of_ascii c in
  if (65 <=? n)%nat && (n <=? 90)%nat then ascii_of_nat (n + 32) else c.

Definition upper_ascii (c : ascii) : ascii :=
  let n := nat_of_ascii c in
  if (97 <=? n)%nat && (n <=? 122)%nat then ascii_of_nat (n - 32) else c.

(** [String.prototype.toLowerCase] *)
Fixpoint toLowerCase (s : string) : string :=
  match s with
  | EmptyString => EmptyString
  | String c r => String (lower_ascii c) (toLowerCase r)
  end.

(** [String.prototype.toUpperCase] *)
Fixpoint toUpperCase (s : string) : string :=
  match s with
  | EmptyString => EmptyString
  | String c r => String (upper_ascii c) (toUpperCase r)
  end.

(** [s.replace(/\r\n/g, '')]: one left-to-right scan that drops every
    match of the two-character sequence CR LF and resumes after it. *)
Fixpoint replaceCRLF (s : string) : string :=
  match s with
  | EmptyString => EmptyString
  | String c r =>
      match r with
      | String d r' =>
          if Ascii.eqb c CR && Ascii.eqb d LF then replaceCRLF r'
          else String c (replaceCRLF r)
      | EmptyString => String c EmptyString
      end
  end.

(** Membership of a character in a string. *)
Fixpoint contains (c : ascii) (s : string) : bool :=
  match s with
  | EmptyString => false
  | String d r => Ascii.eqb c d || contains c r
  end.

(** [s.split(sep)[0]] for a one-character separator. *)
Fixpoint splitHead (sep : ascii) (s : string) : string :=
  match s with
  | EmptyString => EmptyString
  | String c r => if Ascii.eqb c sep then EmptyString else String c (splitHead sep r)
  end.

(** A plain object used as a map from property names to strings: its own
    properties in insertion order. *)
Abbreviation object := (list (string * string)).

(** [o[k]]; [None] is [undefined]. *)
Fixpoint getProp (o : object) (k : string) : option string :=
  match o with
  | [] => None
  | (k', v) :: r => if bool_decide (k' = k) then Some v else getProp r k
  end.

(** [o[k] = v] *)
Fixpoint setProp (o : object) (k v : string) : object :=
  match o with
  | [] => [(k, v)]
  | (k', v') :: r => if bool_decide (k' = k) then (k, v) :: r else (k', v') :: setProp r k v
  end.

(** [o[k] = v] for an object literal [{}] and a string [v].  The object
    inherits the [__proto__] accessor of [Object.prototype], whose setter
    ignores a value that is neither an object nor [null]: no property is
    stored under that key.  Every other key becomes an own property. *)
Definition assign (o : object) (k v : string) : object :=
  if bool_decide (k = "__proto__") then o else setProp o k v.

End JS.

(** ** Header collection ([class Headers]) *)

Module Headers.

(** [_headers]: an array of [[name, value]] pairs, in append order. *)
Abbreviation t := (list (string * string)).

Definition empty : t := [].

Definition append (h : t) (name value : string) : t :=
  let caseInsensitive := JS.toLowerCase name in
  let castValue := JS.replaceCRLF value in
  h ++ [(caseInsensitive, castValue)].

Definition delete (h : t) (name : string) : t :=
  let caseInsensitive := JS.toLowerCase name in
  filter (λ header, header.1 ≠ caseInsensitive) h.

Definition get (h : t) (name : string) : option string :=
  let caseInsensitive := JS.toLowerCase name in
  match List.find (λ header, bool_decide (header.1 = caseInsensitive)) h with
  | Some header => Some header.2
  | None => None
  end.

Definition getAll (h : t) (name : string) : list string :=
  let caseInsensitive := JS.toLowerCase name in
  (filter (λ header, header.1 = caseInsensitive) h).*2.

Definition has (h : t) (name : string) : bool :=
  let caseInsensitive := JS.toLowerCase name in
  match List.find (λ header, bool_decide (header.1 = caseInsensitive)) h with
  | Some _ => true
  | None => false
  end.

(** The callback of the [reduce] in [set]; the accumulator carries the
    array under construction and the captured [replaced] flag. *)
Definition set_step (caseInsensitive castValue : string)
    (acc : t * bool) (header : string * string) : t * bool :=
  let '(headers, replaced) := acc in
  if bool_decide (header.1 ≠ caseInsensitive) then (headers ++ [header], replaced)
  else if negb replaced then (headers ++ [(header.1, castValue)], true)
  else (headers, replaced).

Definition set (h : t) (name value : string) : t :=
  let caseInsensitive := JS.toLowerCase name in
  let castValue := JS.replaceCRLF value in
  let '(headers, replaced) :=
    fold_left (set_step caseInsensitive castValue) h ([], false) in
  if replaced then headers else append headers name value.

(** [new Headers(init)] for an array of pairs or another [Headers]. *)
Definition of_list (init : list (string * string)) : t :=
  fold_left (λ h nv, append h nv.1 nv.2) init empty.

(** A sequence of appends onto an existing collection. *)
Definition appendAll (h : t) (l : list (string * string)) : t :=
  fold_left (λ h nv, append h nv.1 nv.2) l h.

(** [toObject]: later entries of one name overwrite earlier ones. *)
Definition toObject (h : t) : JS.object :=
  fold_left (λ object nv, JS.setProp object nv.1 nv.2) h [].

(** The operations that store values. *)
Inductive op :=
| Append (name value : string)
| Set_ (name value : string)
| Delete (name : string).

Definition run_op (h : t) (o : op) : t :=
  match o with
  | Append n v => append h n v
  | Set_ n v => set h n v
  | Delete n => delete h n
  end.

Definition run_ops (h : t) (os : list op) : t := fold_left run_op os h.

End Headers.

(** ** Message bodies, requests and responses (fetch module) *)

Module Fetch.

Inductive error :=
| TypeError (message : string)
| RangeError (message : string)
| Error (message : string)
| SyntaxError (message : string)
| URIError (message : string).

(** What the body module takes from outside the repository. *)
Record Env := {
  inflate : string → string;         (* bytes out of [Zlib.createInflate] before end/error *)
  gunzip : string → string;          (* bytes out of [Zlib.createGunzip] before end/error *)
  JSON_valid : string → bool;        (* does [JSON.parse] accept the text *)
  URL_format : string → string;      (* [URL.format] *)
  STATUS_CODES : Z → option string;  (* [HTTP.STATUS_CODES] *)
  newBoundary : string;              (* [`${new Date().getTime()}.${Math.random()}`] *)
}.

(** A readable stream object: the chunks it emits before it ends (or
    errors), and whether it is still readable. *)
Record stream := Stream { readable : bool; chunks : list string }.

Definition ref := nat.

Inductive redirectMode := follow | error_.

(** The fields a subclass adds to a [Body]. *)
Inductive classFields :=
| RequestFields (url method : string) (redirect : redirectMode) (_redirectCount : nat)
| ResponseFields (_url type_ : string) (status : option Z) (statusText : string).

(** The value stored in [this.body] by an accessor. *)
Inductive value :=
| VNull
| VBuffer (bytes : string)
| VText (text : string)
| VJson (source : string)
| VUint8Array (bytes : string).

Record object := Object {
  _stream : option ref;
  headers : Headers.t;
  _bodyUsed : bool;
  body : value;
  fields : classFields;
}.

(** The heap: stream objects and body objects, shared by reference. *)
Record heap := Heap { streams : list stream; objects : list object }.

Definition emptyHeap : heap := Heap [] [].

(** A file-like form value: it has [read()], [mime] and a string form. *)
Record file := File { fname : string; mime : option string; content : string }.

Inductive formValue := FText (text : string) | FFile (f : file).

(** [FormData._entries] *)
Definition FormData := list (string * formValue).

Inductive bodyInit :=
| InitNull
| InitBody (r : ref)
| InitReadable (emits : list string)
| InitString (s : string)
| InitFormData (entries : FormData)
| InitOther.

(** JavaScript truthiness of a body initialiser. *)
Definition truthy (b : bodyInit) : bool :=
  match b with
  | InitNull => false
  | InitString "" => false
  | _ => true
  end.

(** *** A state and exception monad over the heap.  A thrown error
    keeps the mutations made before it. *)

Definition M (A : Type) : Type := heap → heap * (error + A).

Definition ret {A} (a : A) : M A := λ h, (h, inr a).
Definition throw {A} (e : error) : M A := λ h, (h, inl e).
Definition bind {A B} (m : M A) (k : A → M B) : M B :=
  λ h, match m h with
       | (h', inr a) => k a h'
       | (h', inl e) => (h', inl e)
       end.

#[global] Instance M_ret : MRet M := @ret.
#[global] Instance M_bind : MBind M := λ A B k m, bind m k.

Definition absent {A} : M A :=
  throw (TypeError "Cannot read property of undefined").

Definition getObject (r : ref) : M object :=
  λ h, match objects h !! r with
       | Some o => (h, inr o)
       | None => absent h
       end.

Definition setObject (r : ref) (o : object) : M unit :=
  λ h, (Heap (streams h) (<[r := o]> (objects h)), inr tt).

Definition newObject (o : object) : M ref :=
  λ h, (Heap (streams h) (objects h ++ [o]), inr (length (objects h))).

Definition getStream (s : ref) : M stream :=
  λ h, match streams h !! s with
       | Some st => (h, inr st)
       | None => absent h
       end.

Definition setStream (s : ref) (st : stream) : M unit :=
  λ h, (Heap (<[s := st]> (streams h)) (objects h), inr tt).

Definition newStream (st : stream) : M ref :=
  λ h, (Heap (streams h ++ [st]) (objects h), inr (length (streams h))).

(** JavaScript truthiness of a string that may be [undefined]. *)
Definition isTruthy (s : option string) : bool :=
  match s with
  | Some "" | None => false
  | Some _ => true
  end.

(** *** [FormData._asStream]: what the stream pushes, one [_read] per
    entry, then the closing boundary. *)

Definition CRLF : string := String JS.CR (String JS.LF "").

Definition DQUOTE : string := String (ascii_of_nat 34) EmptyString.

Definition entryChunks (boundary : string) (e : string * formValue) : list string :=
  let '(name, v) := e in
  ("--" +:+ boundary +:+ CRLF) ::
  match v with
  | FFile f =>
      [ "Content-Disposition: form-data; name=" +:+ DQUOTE +:+ name +:+ DQUOTE
          +:+ "; filename=" +:+ DQUOTE +:+ fname f +:+ DQUOTE +:+ CRLF;
        "Content-Type: " +:+ (if isTruthy (mime f) then default "" (mime f)
                              else "application/octet-stream") +:+ CRLF;
        "Content-Length: " +:+ pretty (String.length (content f)) +:+ CRLF +:+ CRLF;
        content f ]
  | FText text =>
      [ "Content-Disposition: form-data; name=" +:+ DQUOTE +:+ name +:+ DQUOTE +:+ CRLF;
        "Content-Type: text/plain; charset=utf8" +:+ CRLF +:+ CRLF;
        "Content-Length: " +:+ pretty (String.length text) +:+ CRLF +:+ CRLF;
        text ]
  end ++ [CRLF].

Definition _asStream (entries : FormData) (boundary : string) : stream :=
  Stream true (concat (entryChunks boundary <$> entries) ++ ["--" +:+ boundary +:+ "--"]).

(** *** [class Body] *)

(** [_setContentType], on the [headers] of the object under construction. *)
Definition _setContentType (hs : Headers.t) (contentType : option string) : Headers.t :=
  match contentType with
  | Some ct =>
      if isTruthy contentType && negb (Headers.has hs "Content-Type")
      then Headers.set hs "Content-Type" ct
      else hs
  | None => hs
  end.

(** [Body.constructor]: [hs] and [fs] are the fields the subclass
    constructor has assigned to [this] before calling [super]. *)
Definition Body_constructor (env : Env) (hs : Headers.t) (fs : classFields)
    (init : bodyInit) : M ref :=
  '(strm, hs') ←
    match init with
    | InitBody r =>
        o ← getObject r;
        mret (_stream o, _setContentType hs (Headers.get (headers o) "Content-Type"))
    | InitReadable emits =>
        s ← newStream (Stream true emits);
        mret (Some s, hs)
    | InitString str =>
        s ← newStream (Stream true [str]);
        mret (Some s, _setContentType hs (Some "text/plain;charset=UTF-8"))
    | InitFormData entries =>
        if bool_decide (length entries ≠ 0) then
          let boundary := newBoundary env in
          let hs' := _setContentType hs (Some ("multipart/form-data;boundary=" +:+ boundary)) in
          s ← newStream (_asStream entries boundary);
          mret (Some s, hs')
        else mret (None, _setContentType hs (Some "text/plain;charset=UTF-8"))
    | InitOther => throw (TypeError "This body type not yet supported")
    | InitNull => mret (None, hs)
    end;
  newObject (Object strm hs' false VNull fs).

Definition bodyUsed (this : ref) : M bool :=
  o ← getObject this; mret (_bodyUsed o).

(** [decompressStream], as the bytes that come out of the piped stream. *)
Definition decompressStream (env : Env) (bytes : string) (hs : Headers.t) : string :=
  let transferEncoding := Headers.get hs "Transfer-Encoding" in
  let contentEncoding := Headers.get hs "Content-Encoding" in
  if bool_decide (contentEncoding = Some "deflate" ∨ transferEncoding = Some "deflate")
  then inflate env bytes
  else if bool_decide (contentEncoding = Some "gzip" ∨ transferEncoding = Some "gzip")
  then gunzip env bytes
  else bytes.

Definition reuseError : error := TypeError "Body already consumed".

(** [_consume]: [None] is JavaScript's [null]. *)
Definition _consume (env : Env) (this : ref) : M (option string) :=
  o ← getObject this;
  if _bodyUsed o then throw reuseError
  else
    setObject this (Object (_stream o) (headers o) true (body o) (fields o));;
    match _stream o with
    | None => mret None
    | Some s =>
        st ← getStream s;
        if negb (readable st) then mret (Some "")
        else
          setStream s (Stream false (chunks st));;
          mret (Some (decompressStream env (String.concat "" (chunks st)) (headers o)))
    end.

Definition setBody (this : ref) (v : value) : M unit :=
  o ← getObject this;
  setObject this (Object (_stream o) (headers o) (_bodyUsed o) v (fields o)).

Definition nullDeref {A} (prop : string) : M A :=
  throw (TypeError ("Cannot read property '" +:+ prop +:+ "' of null")).

Definition arrayBuffer (env : Env) (this : ref) : M value :=
  b ← _consume env this;
  match b with
  | None => setBody this VNull;; nullDeref "length"
  | Some bytes => setBody this (VBuffer bytes);; mret (VUint8Array bytes)
  end.

Definition blob (this : ref) : M value :=
  throw (Error "Not implemented yet").

Definition formData (env : Env) (this : ref) : M value :=
  buffer ← _consume env this;
  o ← getObject this;
  let contentType :=
    match Headers.get (headers o) "Content-Type" with
    | Some ct => ct
    | None => ""
    end in
  let mimeType := JS.splitHead ";" contentType in
  if bool_decide (mimeType = "multipart/form-data")
  then throw (Error "Not implemented yet")
  else if bool_decide (mimeType = "application/x-www-form-urlencoded")
  then throw (Error "Not implemented yet")
  else throw (TypeError ("formData does not support MIME type " +:+ mimeType)).

Definition json (env : Env) (this : ref) : M value :=
  buffer ← _consume env this;
  match buffer with
  | None => nullDeref "toString"
  | Some bytes =>
      setBody this (VText bytes);;
      if JSON_valid env bytes then mret (VJson bytes)
      else throw (SyntaxError "Unexpected token in JSON")
  end.

Definition text (env : Env) (this : ref) : M value :=
  buffer ← _consume env this;
  match buffer with
  | None => nullDeref "toString"
  | Some bytes => setBody this (VText bytes);; mret (VText bytes)
  end.

(** The four single-use accessors. *)
Inductive accessor := ArrayBuffer | Text | Json | FormData_.

Definition call (env : Env) (a : accessor) (this : ref) : M value :=
  match a with
  | ArrayBuffer => arrayBuffer env this
  | Text => text env this
  | Json => json env this
  | FormData_ => formData env this
  end.

(** *** [class Request extends Body] *)

Inductive requestInput :=
| InputString (s : string)
| InputRequest (r : ref)
| InputOther.

Record requestInit := RequestInit {
  init_method : option string;
  init_headers : list (string * string);
  init_body : bodyInit;
  init_redirect : option string;
}.

Definition isRequest (o : object) : bool :=
  match fields o with RequestFields _ _ _ _ => true | _ => false end.

Definition Request_constructor (env : Env) (input : requestInput)
    (init : option requestInit) : M ref :=
  (* the input's body is taken over, and the input marked used *)
  bodyInit0 ←
    match input with
    | InputRequest r =>
        o ← getObject r;
        if isRequest o && bool_decide (is_Some (_stream o)) then
          if _bodyUsed o then throw (TypeError "Request body already used")
          else
            setObject r (Object (_stream o) (headers o) true (body o) (fields o));;
            mret (InitBody r)
        else mret InitNull
    | _ => mret InitNull
    end;
  '(url, inputMethod, inputHeaders) ←
    match input with
    | InputString s => mret (URL_format env s, None, [])
    | InputRequest r =>
        o ← getObject r;
        match fields o with
        | RequestFields u m _ _ => mret (u, Some m, headers o)
        | ResponseFields _ _ _ _ => mret ("", None, headers o)
        end
    | InputOther => mret ("", None, [])
    end;
  if bool_decide (url = "") then throw (TypeError "Input must be string or another Request")
  else
    let method0 := match init with Some i => init_method i | None => inputMethod end in
    let method := JS.toUpperCase (if isTruthy method0 then default "GET" method0 else "GET") in
    let hs := Headers.of_list (match init with Some i => init_headers i | None => inputHeaders end) in
    bodyInit1 ←
      match init with
      | Some i =>
          if truthy (init_body i) then
            if bool_decide (method = "GET" ∨ method = "HEAD")
            then throw (TypeError "Cannot include body with GET/HEAD request")
            else mret (init_body i)
          else mret bodyInit0
      | None => mret bodyInit0
      end;
    let redirect :=
      match init with
      | Some i => if bool_decide (init_redirect i = Some "error") then error_ else follow
      | None => follow
      end in
    Body_constructor env hs (RequestFields url method redirect 0) bodyInit1.

Definition clone (this : ref) : M ref :=
  o ← getObject this;
  if _bodyUsed o then
    throw (TypeError (if isRequest o then "This Request body has already been used"
                      else "This Response body has already been used"))
  else throw (Error "Not implemented yet").

(** *** [class Response extends Body] *)

(** The second argument of [new Response]; [ri_status = None] is an
    init without [status] (the property reads [undefined]). *)
Record responseInit := ResponseInit {
  ri_status : option Z;
  ri_statusText : option string;
  ri_url : option string;
  ri_headers : list (string * string);
}.

(** [status < 200 || status > 599]: both comparisons are false of
    [undefined]. *)
Definition outOfRange (status : option Z) : bool :=
  match status with
  | Some s => bool_decide (s < 200 ∨ s > 599)%Z
  | None => false
  end.

(** [/^[^\n\r]+$/.test(statusText)] *)
Definition validStatusText (s : string) : bool :=
  negb (bool_decide (s = "")) && negb (JS.contains JS.LF s) && negb (JS.contains JS.CR s).

Definition Response_constructor (env : Env) (init : bodyInit)
    (responseInit : option responseInit) : M ref :=
  match responseInit with
  | Some ri =>
      if outOfRange (ri_status ri)
      then throw (RangeError ("Status code " +:+ from_option pretty "undefined" (ri_status ri)
                                +:+ " not in range"))
      else
        let standardText := ri_status ri ≫= STATUS_CODES env in
        let statusText :=
          if isTruthy (ri_statusText ri) then default "" (ri_statusText ri)
          else if isTruthy standardText then default "" standardText
               else "Unknown" in
        if negb (validStatusText statusText)
        then throw (TypeError ("Status text " +:+ default "undefined" (ri_statusText ri)
                                +:+ " not valid format"))
        else
          let _url := URL_format env (if isTruthy (ri_url ri) then default "" (ri_url ri) else "") in
          Body_constructor env (Headers.of_list (ri_headers ri))
            (ResponseFields _url "default" (ri_status ri) statusText) init
  | None =>
      Body_constructor env Headers.empty (ResponseFields "" "error" (Some 0%Z) "") init
  end.

Definition ok (o : object) : bool :=
  match fields o with
  | ResponseFields _ _ (Some status) _ => bool_decide (200 ≤ status ∧ status ≤ 299)%Z
  | _ => false
  end.

(** Run a computation from a heap. *)
Definition run {A} (m : M A) (h : heap) : heap * (error + A) := m h.

(** The calls a program can make on the module. *)
Inductive apiCall :=
| CallAccessor (a : accessor) (this : ref)
| CallBlob (this : ref)
| CallClone (this : ref)
| NewRequest (input : requestInput) (init : option requestInit)
| NewResponse (init : bodyInit) (responseInit : option responseInit).

(** The heap after a call, whatever it returned or threw. *)
Definition exec (env : Env) (c : apiCall) (h : heap) : heap :=
  match c with
  | CallAccessor a this => (call env a this h).1
  | CallBlob this => (blob this h).1
  | CallClone this => (clone this h).1
  | NewRequest input init => (Request_constructor env input init h).1
  | NewResponse init responseInit => (Response_constructor env init responseInit h).1
  end.

Definition execAll (env : Env) (cs : list apiCall) (h : heap) : heap :=
  fold_left (λ h c, exec env c h) cs h.

(** The object at [r] exists and its body is marked used. *)
Definition usedIn (h : heap) (r : ref) : Prop :=
  ∃ o, objects h !! r = Some o ∧ _bodyUsed o = true.

(** A computation never clears a used flag. *)
Definition mono {A} (m : M A) : Prop :=
  ∀ h r, usedIn h r → usedIn (m h).1 r.

(** The [mimeType] computed by [formData]. *)
Definition mimeTypeOf (o : object) : string :=
  JS.splitHead ";" (default "" (Headers.get (headers o) "Content-Type")).

(** The stream of an object, when it has one, is on the heap. *)
Definition streamOk (h : heap) (o : object) : Prop :=
  match _stream o with
  | Some s => is_Some (streams h !! s)
  | None => True
  end.

(** [get url] of a response: the stored URL without its fragment. *)
Definition Response_url (o : object) : string :=
  match fields o with
  | ResponseFields _url _ _ _ => JS.splitHead "#" _url
  | RequestFields _ _ _ _ => ""
  end.

(** [Response.error()] *)
Definition Response_error (env : Env) : M ref :=
  Response_constructor env InitNull None.

(** The status codes [Response.redirect] accepts. *)
Definition redirectStatuses : list Z := [301; 302; 303; 307; 308]%Z.

(** [Response.redirect(url, status = 302)]; [URL_format] of a string is
    [URL.format(URL.parse(url))]. *)
Definition Response_redirect (env : Env) (url : string) (status : option Z) : M ref :=
  let status := default 302%Z status in
  if negb (bool_decide (status ∈ redirectStatuses))
  then throw (RangeError ("Status code " +:+ pretty status +:+ " not valid redirect code"))
  else
    let statusText := STATUS_CODES env status in
    response ← Response_constructor env InitNull
                 (Some (ResponseInit (Some status) statusText None []));
    o ← getObject response;
    setObject response
      (Object (_stream o) (Headers.set (headers o) "Location" (URL_format env url))
              (_bodyUsed o) (body o) (fields o));;
    mret response.

End Fetch.

(** ** Form entries ([class FormData]) *)

Module FormData.

(** [_entries]: an array of [[name, value]] pairs, in append order. *)
Abbreviation t := (list (string * Fetch.formValue)).

Definition empty : t := [].

(** [append(name, value, filename)]: the file name is ignored. *)
Definition append (f : t) (name : string) (value : Fetch.formValue) : t :=
  f ++ [(name, value)].

Definition delete (f : t) (name : string) : t :=
  filter (λ entry, entry.1 ≠ name) f.

Definition set (f : t) (name : string) (value : Fetch.formValue) : t :=
  append (delete f name) name value.

Definition get (f : t) (name : string) : option Fetch.formValue :=
  match List.find (λ entry, bool_decide (entry.1 = name)) f with
  | Some entry => Some entry.2
  | None => None
  end.

Definition getAll (f : t) (name : string) : list Fetch.formValue :=
  (filter (λ entry, entry.1 = name) f).*2.

Definition has (f : t) (name : string) : bool :=
  match List.find (λ entry, bool_decide (entry.1 = name)) f with
  | Some _ => true
  | None => false
  end.

(** [get length] *)
Definition length (f : t) : nat := List.length f.

End FormData.

(** ** The asynchronous request engine ([class XMLHttpRequest]) *)

Module XHR.

(** Lifecycle states, with their numeric codes. *)
Inductive readyState := UNSENT | OPENED | HEADERS_RECEIVED | LOADING | DONE.

Definition code_of (s : readyState) : nat :=
  match s with
  | UNSENT => 0 | OPENED => 1 | HEADERS_RECEIVED => 2 | LOADING => 3 | DONE => 4
  end.

#[global] Instance readyState_eq_dec : EqDecision readyState.
Proof. solve_decision. Defined.

(** DOM error codes: the four added by [dom.coffee], and the standard
    ones the engine throws. *)
Definition SECURITY_ERR : nat := 18.
Definition NETWORK_ERR : nat := 19.
Definition ABORT_ERR : nat := 20.
Definition TIMEOUT_ERR : nat := 23.
Definition NOT_SUPPORTED_ERR : nat := 9.
Definition INVALID_STATE_ERR : nat := 11.
Definition SYNTAX_ERR : nat := 12.

Record DOMException := mkDOMException { code : nat; message : string }.

#[global] Instance DOMException_eq_dec : EqDecision DOMException.
Proof. solve_decision. Defined.

(** What a method call can throw. *)
Inductive thrown :=
| Dom (e : DOMException)
| TypeError (msg : string).

(** [window.location] *)
Record location := Location {
  href : string; protocol : string; host : string; hostname : string;
}.

(** The object returned by [URL.parse]; [""] stands for [null]. *)
Record parsedURL := ParsedURL {
  u_protocol : string;
  u_auth : string;
  u_hostname : string;
  u_port : string;
  u_host : string;
  u_path : string;
  u_hash : string;
}.

Record Env := {
  URL_parse_resolve : string → string → parsedURL;  (* [URL.parse(URL.resolve(base, url))] *)
  URL_format : parsedURL → string;                  (* [URL.format] *)
}.

(** The request object built by [open] and completed by [send]. *)
Record request := Request {
  method : string;
  headers : JS.object;
  url : string;
  body : option string;
  timeout : nat;
  sent : bool;
  aborted : bool;
}.

(** The response handed to the completion callback; [headers] is a plain
    object indexed by lower-case name. *)
Record response := Response {
  statusCode : nat;
  statusText : string;
  r_headers : JS.object;
  r_body : string;
}.

(** The error handed to the completion callback. *)
Record netError := NetError { e_code : string; e_message : string }.

Definition ref := nat.

(** Observable effects, in the order they happen. *)
Inductive effect :=
| Fire (eventName : string) (state : readyState) (error : option DOMException)
| Raise (type_ msg : string) (exception : DOMException)
| PushError (e : DOMException)
| Http (r : ref).

Record xhr := Xhr {
  loc : location;                 (* [_window.location] *)
  state : readyState;             (* [readyState] *)
  _pending : option ref;
  _cors : option string;
  _url : string;
  _response : option response;
  _error : option DOMException;
  x_timeout : nat;                (* [timeout] *)
  requests : list request;        (* the request objects created so far *)
  effects : list effect;          (* events fired, errors raised, requests issued *)
}.

(** [new XMLHttpRequest(window)] *)
Definition new (l : location) : xhr :=
  Xhr l UNSENT None None "" None None 0 [] [].

Definition set_state (x : xhr) (s : readyState) : xhr :=
  Xhr (loc x) s (_pending x) (_cors x) (_url x) (_response x) (_error x)
      (x_timeout x) (requests x) (effects x).
Definition set_pending (x : xhr) (p : option ref) : xhr :=
  Xhr (loc x) (state x) p (_cors x) (_url x) (_response x) (_error x)
      (x_timeout x) (requests x) (effects x).
Definition set_cors (x : xhr) (c : option string) : xhr :=
  Xhr (loc x) (state x) (_pending x) c (_url x) (_response x) (_error x)
      (x_timeout x) (requests x) (effects x).
Definition set_url (x : xhr) (u : string) : xhr :=
  Xhr (loc x) (state x) (_pending x) (_cors x) u (_response x) (_error x)
      (x_timeout x) (requests x) (effects x).
Definition set_response (x : xhr) (r : option response) : xhr :=
  Xhr (loc x) (state x) (_pending x) (_cors x) (_url x) r (_error x)
      (x_timeout x) (requests x) (effects x).
Definition set_error (x : xhr) (e : option DOMException) : xhr :=
  Xhr (loc x) (state x) (_pending x) (_cors x) (_url x) (_response x) e
      (x_timeout x) (requests x) (effects x).
Definition set_requests (x : xhr) (rs : list request) : xhr :=
  Xhr (loc x) (state x) (_pending x) (_cors x) (_url x) (_response x) (_error x)
      (x_timeout x) rs (effects x).
Definition emit (x : xhr) (e : effect) : xhr :=
  Xhr (loc x) (state x) (_pending x) (_cors x) (_url x) (_response x) (_error x)
      (x_timeout x) (requests x) (effects x ++ [e]).

(** [_fire(eventName, error)] *)
Definition _fire (x : xhr) (eventName : string) (error : option DOMException) : xhr :=
  emit x (Fire eventName (state x) error).

(** [_stateChanged(newState)] *)
Definition _stateChanged (x : xhr) (newState : readyState) : xhr :=
  _fire (set_state x newState) "readystatechange" None.

(** [raise(type, message, data)] *)
Definition raise (x : xhr) (type_ msg : string) (e : DOMException) : xhr :=
  emit x (Raise type_ msg e).

Definition update_request (x : xhr) (r : ref) (f : request → request) : xhr :=
  match requests x !! r with
  | Some q => set_requests x (<[r := f q]> (requests x))
  | None => x
  end.

Definition mark_aborted (q : request) : request :=
  Request (method q) (headers q) (url q) (body q) (timeout q) (sent q) true.
Definition mark_sent (q : request) : request :=
  Request (method q) (headers q) (url q) (body q) (timeout q) true (aborted q).

(** [abort()] *)
Definition abort (x : xhr) : xhr * (thrown + unit) :=
  let request := _pending x ≫= (requests x !!.) in
  if bool_decide (state x = UNSENT) then (set_state x UNSENT, inr tt)
  else
    match request with
    | None => (x, inl (TypeError "Cannot read property of null"))
    | Some q =>
        if bool_decide (state x = OPENED) && negb (sent q)
        then (set_state x UNSENT, inr tt)
        else
          match _pending x with
          | Some r => (update_request x r mark_aborted, inr tt)
          | None => (x, inr tt)
          end
    end.

Definition isForbiddenMethod (m : string) : bool :=
  bool_decide (m = "CONNECT" ∨ m = "TRACE" ∨ m = "TRACK").
Definition isSupportedMethod (m : string) : bool :=
  bool_decide (m = "DELETE" ∨ m = "GET" ∨ m = "HEAD" ∨ m = "OPTIONS" ∨ m = "POST" ∨ m = "PUT").
Definition isHTTP (protocol : string) : bool :=
  let p := JS.toLowerCase protocol in bool_decide (p = "http:" ∨ p = "https:").

(** [open(method, url, useAsync, user, password)]; [useAsync = None] is
    an omitted argument. *)
Definition open (env : Env) (x : xhr) (method0 url0 : string)
    (useAsync : option bool) (user password : string) : xhr * (thrown + unit) :=
  if bool_decide (useAsync = Some false)
  then (x, inl (Dom (mkDOMException NOT_SUPPORTED_ERR
                       "Zombie does not support synchronous XHR requests")))
  else
    match abort x with
    | (x, inl e) => (x, inl e)
    | (x, inr _) =>
        let method := JS.toUpperCase method0 in
        if isForbiddenMethod method
        then (x, inl (Dom (mkDOMException SECURITY_ERR "Unsupported HTTP method")))
        else if negb (isSupportedMethod method)
        then (x, inl (Dom (mkDOMException SYNTAX_ERR "Unsupported HTTP method")))
        else
          let u := URL_parse_resolve env (href (loc x)) url0 in
          let port :=
            if bool_decide ((u_protocol u = "https:" ∧ u_port u = "443") ∨
                            (u_protocol u = "http:" ∧ u_port u = "80"))
            then "" else u_port u in
          if negb (isHTTP (u_protocol u))
          then (x, inl (Dom (mkDOMException NOT_SUPPORTED_ERR "Only HTTP/S protocol supported")))
          else
            let hostname_ := if bool_decide (u_hostname u = "") then hostname (loc x) else u_hostname u in
            let host_ := if bool_decide (port = "") then hostname_ else hostname_ +:+ ":" +:+ port in
            let crossOrigin := bool_decide (host_ ≠ host (loc x)) in
            let origin := protocol (loc x) +:+ "//" +:+ host (loc x) in
            let headers : JS.object :=
              if crossOrigin then [("origin", origin)] else [] in
            let x := if crossOrigin then set_cors x (Some origin) else x in
            let auth := if bool_decide (user = "") then u_auth u else user +:+ ":" +:+ password in
            let u' := ParsedURL (u_protocol u) auth hostname_ port host_ (u_path u) "" in
            let x := set_url x (URL_format env u') in
            let x := set_error (set_response x None) None in
            let request := Request method headers (URL_format env u') None 0 false false in
            let r := length (requests x) in
            let x := set_pending (set_requests x (requests x ++ [request])) (Some r) in
            (_stateChanged x OPENED, inr tt)
    end.

(** [setRequestHeader(header, value)] *)
Definition setRequestHeader (x : xhr) (header value : string) : xhr * (thrown + unit) :=
  if bool_decide (state x ≠ OPENED)
  then (x, inl (Dom (mkDOMException INVALID_STATE_ERR "Invalid state")))
  else
    match _pending x with
    | Some r =>
        (update_request x r (λ q,
           Request (method q) (JS.assign (headers q) (JS.toLowerCase header) value)
                   (url q) (body q) (timeout q) (sent q) (aborted q)), inr tt)
    | None => (x, inl (TypeError "Cannot read property of null"))
    end.

(** [send(data)]: issues the request; the completion callback is
    [complete] below, run later by the event queue. *)
Definition send (x : xhr) (data : option string) : xhr * (thrown + unit) :=
  if bool_decide (state x ≠ OPENED)
  then (x, inl (Dom (mkDOMException INVALID_STATE_ERR "Invalid state")))
  else
    match _pending x with
    | None => (x, inl (TypeError "Cannot read property of null"))
    | Some r =>
        let x := _fire x "loadstart" None in
        let x := update_request x r (λ q,
          let hs := match JS.getProp (headers q) "content-type" with
                    | Some "" | None => JS.setProp (headers q) "content-type" "text/plain"
                    | Some _ => headers q
                    end in
          Request (method q) hs (url q) data (x_timeout x) (sent q) (aborted q)) in
        let x := emit x (Http r) in
        (update_request x r mark_sent, inr tt)
    end.

(** The exceptions built by the completion callback. *)
Definition abortError : DOMException := mkDOMException ABORT_ERR "Request aborted".
Definition corsError : DOMException :=
  mkDOMException SECURITY_ERR "Cannot make request to different domain".

(** The branch of the callback for an aborted request. *)
Definition completeAborted (x : xhr) : xhr :=
  let x := _stateChanged x DONE in
  let x := _fire x "progress" None in
  let x := set_error x (Some abortError) in
  _fire x "abort" (_error x).

(** The branch of the callback for an error of the pipeline. *)
Definition completeError (x : xhr) (error : netError) : xhr :=
  let x := _stateChanged x DONE in
  let x := _fire x "progress" None in
  let x :=
    if bool_decide (e_code error = "ETIMEDOUT") then
      let x := set_error x (Some (mkDOMException TIMEOUT_ERR "The request timed out")) in
      _fire x "timeout" (_error x)
    else
      let x := set_error x (Some (mkDOMException NETWORK_ERR (e_message error))) in
      _fire x "error" (_error x) in
  let x := _fire x "loadend" None in
  match _error x with
  | Some e => emit x (PushError e)
  | None => x
  end.

(** The branch of the callback for a response refused by the origin check. *)
Definition completeRejected (x : xhr) : xhr :=
  let x := set_error x (Some corsError) in
  let x := emit x (PushError corsError) in
  let x := _stateChanged x DONE in
  let x := _fire x "progress" None in
  let x := _fire x "error" (_error x) in
  let x := _fire x "loadend" None in
  raise x "error" (message corsError) corsError.

(** The last part of the callback: the response is stored and the state
    goes through all its transitions. *)
Definition completeLoaded (x : xhr) (response : response) : xhr :=
  let x := set_response x (Some response) in
  let x := _stateChanged x HEADERS_RECEIVED in
  let x := _stateChanged x LOADING in
  let x := _stateChanged x DONE in
  let x := _fire x "progress" None in
  let x := _fire x "load" None in
  _fire x "loadend" None.

(** The callback passed to [_eventQueue.http] by [send], for the request
    object [r], called with an error or a response. *)
Definition complete (x : xhr) (r : ref) (outcome : netError + response) : xhr :=
  let x := if bool_decide (_pending x = Some r) then set_pending x None else x in
  let isAborted := match requests x !! r with Some q => aborted q | None => false end in
  if isAborted then completeAborted x
  else
    match outcome with
    | inl error => completeError x error
    | inr response =>
        match _cors x with
        | Some cors =>
            let allowedOrigin := JS.getProp (r_headers response) "access-control-allow-origin" in
            if negb (bool_decide (allowedOrigin = Some "*" ∨ allowedOrigin = Some cors))
            then completeRejected x
            else completeLoaded x response
        | None => completeLoaded x response
        end
    end.

(** [get status]; [None] is [null]. *)
Definition status (x : xhr) : option nat :=
  match _response x, _error x with
  | Some r, _ => Some (statusCode r)
  | None, Some _ => Some 0
  | None, None => None
  end.

(** [get statusText]; [None] is [null]. *)
Definition statusTextOf (x : xhr) : option string :=
  match _response x, _error x with
  | Some r, _ => Some (statusText r)
  | None, Some _ => Some ""
  | None, None => None
  end.

(** [get responseText] *)
Definition responseText (x : xhr) : option string :=
  match _response x with
  | Some r => if bool_decide (code_of LOADING ≤ code_of (state x))%nat then Some (r_body r) else None
  | None => None
  end.

(** [getResponseHeader(name)]: [null] without a response, and for a
    header that is missing or empty. *)
Definition getResponseHeader (x : xhr) (name : string) : option string :=
  match _response x with
  | Some r =>
      match JS.getProp (r_headers r) (JS.toLowerCase name) with
      | Some "" | None => None
      | Some v => Some v
      end
  | None => None
  end.

(** [getAllResponseHeaders()]: one [name: value] line per header. *)
Definition getAllResponseHeaders (x : xhr) : option string :=
  match _response x with
  | Some r =>
      Some (String.concat (String JS.LF "")
              ((λ nv, JS.toLowerCase nv.1 +:+ ": " +:+ nv.2) <$> r_headers r))
  | None => None
  end.

(** The events fired on the object, in order, without the other effects. *)
Definition fired (x : xhr) : list (string * readyState) :=
  omap (λ e, match e with Fire n s _ => Some (n, s) | _ => None end) (effects x).

Definition eventNames (x : xhr) : list string := (fired x).*1.

Definition raisedErrors (x : xhr) : list DOMException :=
  omap (λ e, match e with Raise _ _ ex => Some ex | _ => None end) (effects x).

(** What a successful completion fires. *)
Definition successEvents : list effect :=
  [Fire "readystatechange" HEADERS_RECEIVED None; Fire "readystatechange" LOADING None;
   Fire "readystatechange" DONE None; Fire "progress" DONE None;
   Fire "load" DONE None; Fire "loadend" DONE None].

(** What a completion rejected by the origin check does. *)
Definition corsRejection : list effect :=
  [PushError corsError; Fire "readystatechange" DONE None; Fire "progress" DONE None;
   Fire "error" DONE (Some corsError); Fire "loadend" DONE None;
   Raise "error" (message corsError) corsError].

(** What the completion of an aborted request fires. *)
Definition abortEvents : list effect :=
  [Fire "readystatechange" DONE None; Fire "progress" DONE None;
   Fire "abort" DONE (Some abortError)].

(** Does the response allow the origin recorded in [_cors]. *)
Definition allows (response : response) (cors : string) : Prop :=
  JS.getProp (r_headers response) "access-control-allow-origin" = Some "*" ∨
  JS.getProp (r_headers response) "access-control-allow-origin" = Some cors.

End XHR.

(** ** The resource pipeline ([class Resources]) *)

Module Resources.

Inductive error :=
| Error (message : string)            (* [new Error(message)] *)
| AssertionError (message : string)   (* a failed [assert] *)
| SystemError (code message : string) (* an error of the file system or the network *)
| URIError (message : string).        (* thrown by [decodeURI] *)

(** A request or response body; [NoBody] is [undefined]. *)
Inductive body :=
| NoBody
| Text (s : string)
| Buffer (bytes : string).

Definition bodyTruthy (b : body) : bool :=
  match b with
  | NoBody | Text "" => false
  | _ => true
  end.

(** A value of [params]: a string or a file-like object with [read()]. *)
Inductive paramValue :=
| PText (s : string)
| PFile (name : string) (mime : string) (content : string).

(** [options.params]: own keys in order, each with its value list. *)
Definition params := list (string * list paramValue).

(** One part of a multipart body, as built by [formData(name, value)]. *)
Record part := Part {
  contentDisposition : string;
  contentType : string;
  contentLength : nat;
  partBody : string;
}.

(** The request record [req]; [redirects = 0] also stands for a record
    without the field, [url]/[method] are always present. *)
Record requestRecord := Request {
  method : string;
  url : string;
  headers : Headers.t;
  req_params : option params;
  req_body : body;
  multipart : option (list part);
  time : nat;
  timeout : nat;
  strictSSL : bool;
  localAddress : string;
  redirects : nat;
  req_error : option error;
}.

(** The response record [res]; [""] and [0] stand for fields that are
    absent (they are read through [||]). [res_headers] is whatever the
    producer stored: it becomes a [Headers] in [handleResponse]. *)
Record responseRecord := Response {
  res_url : string;
  statusCode : nat;
  statusText : string;
  res_headers : list (string * string);
  res_body : body;
  res_redirects : nat;
  res_time : nat;
}.

(** [class Resource] *)
Record resource := Resource {
  r_request : requestRecord;
  r_target : option string;
  r_error : option error;
  r_response : option responseRecord;
}.

(** Events emitted on the browser. *)
Inductive event :=
| EvRequest (req : requestRecord)
| EvResponse (req : requestRecord) (res : responseRecord)
| EvRedirect (req : requestRecord) (res : responseRecord) (redirectRequest : requestRecord)
| EvAuthenticate (host : string).

(** Calls into the file system module. *)
Inductive fsOp :=
| FsExists (filename : string)
| FsReadFile (filename : string)
| FsWrite (filename : string) (data : string).

Definition isWrite (o : fsOp) : bool :=
  match o with FsWrite _ _ => true | _ => false end.

(** The result of [URL.parse]. *)
Record parsedURL := ParsedURL {
  protocol : string; host : string; hostname : string; pathname : string;
}.

(** What the wire client reports on [complete]: each header name with
    its value, or its values when the header was sent several times. *)
Record wireResponse := WireResponse {
  w_statusCode : nat;
  w_headers : list (string * list string);
  w_body : string;
  w_redirects : nat;
}.

(** The browser configuration read by the handlers. *)
Record browser := Browser {
  document : option string;      (* the open document (its URL), if any *)
  site : string;                 (* [browser.site], [""] when unset *)
  b_headers : list (string * string);
  userAgent : string;
  maxRedirects : nat;
  proxy : string;
  b_strictSSL : bool;
  b_localAddress : string;
}.

(** The mutable state around a fetch. *)
Record world := World {
  history : list resource;                          (* the [Resources] array *)
  cookieUpdates : list (list string * string * string);  (* calls of [cookies.update] *)
  emitted : list event;                             (* [browser.emit] *)
  logged : list string;                             (* [browser.log] *)
  fsOps : list fsOp;                                (* calls into [File] *)
  ticks : nat;                                      (* calls of [Date.now] *)
}.

(** What the module takes from outside the repository (Node, jsdom,
    the cookie store, the network, the file system). *)
Record Env := {
  URL_parse : string → parsedURL;
  resolveHref : string → string → string;           (* [Utils.resolveHref] *)
  resolveDocument : string → string → string;       (* [DOM.resourceLoader.resolve] *)
  addQuery : string → params → string;              (* parse, [Object.assign(uri.query, params)], format *)
  QS_stringify : params → string;
  authenticate : string → option (string * string); (* listeners of the authenticate event *)
  base64 : string → string;
  Date_now : nat → nat;                             (* the n-th reading of the clock *)
  random : nat → string;                            (* the n-th boundary token *)
  cookies_serialize : list (list string * string * string) → string → string → string;
  decodeURI : string → option string;               (* [None]: URIError *)
  Path_normalize : string → string;
  File_exists : string → bool;
  File_readFile : string → error + string;
  wire : browser → requestRecord → option (error + wireResponse);  (* the HTTP client; [None]: no answer ever *)
  Zlib_inflate : body → error + string;
  Zlib_gunzip : body → error + string;
  charsetOption : string → option string;           (* the [charset=] option of a content type *)
  isHTML : string → option string → bool;           (* subtype or Accept header mention html *)
  sniffCharset : string → option string;            (* [MATCH_CHARSET] on the bytes *)
  iconv_decode : string → string → error + string;
  STATUS_CODES : nat → option string;               (* [HTTP.STATUS_CODES] *)
}.

Definition set_url (r : requestRecord) (u : string) : requestRecord :=
  Request (method r) u (headers r) (req_params r) (req_body r) (multipart r)
          (time r) (timeout r) (strictSSL r) (localAddress r) (redirects r) (req_error r).
Definition set_headers (r : requestRecord) (h : Headers.t) : requestRecord :=
  Request (method r) (url r) h (req_params r) (req_body r) (multipart r)
          (time r) (timeout r) (strictSSL r) (localAddress r) (redirects r) (req_error r).
Definition set_body (r : requestRecord) (b : body) : requestRecord :=
  Request (method r) (url r) (headers r) (req_params r) b (multipart r)
          (time r) (timeout r) (strictSSL r) (localAddress r) (redirects r) (req_error r).
Definition set_multipart (r : requestRecord) (m : option (list part)) : requestRecord :=
  Request (method r) (url r) (headers r) (req_params r) (req_body r) m
          (time r) (timeout r) (strictSSL r) (localAddress r) (redirects r) (req_error r).
Definition set_error (r : requestRecord) (e : option error) : requestRecord :=
  Request (method r) (url r) (headers r) (req_params r) (req_body r) (multipart r)
          (time r) (timeout r) (strictSSL r) (localAddress r) (redirects r) e.

Definition set_res_url (r : responseRecord) (u : string) : responseRecord :=
  Response u (statusCode r) (statusText r) (res_headers r) (res_body r) (res_redirects r) (res_time r).
Definition set_res_headers (r : responseRecord) (h : list (string * string)) : responseRecord :=
  Response (res_url r) (statusCode r) (statusText r) h (res_body r) (res_redirects r) (res_time r).
Definition set_res_body (r : responseRecord) (b : body) : responseRecord :=
  Response (res_url r) (statusCode r) (statusText r) (res_headers r) b (res_redirects r) (res_time r).
Definition set_res_redirects (r : responseRecord) (n : nat) : responseRecord :=
  Response (res_url r) (statusCode r) (statusText r) (res_headers r) (res_body r) n (res_time r).

Definition emit (w : world) (e : event) : world :=
  World (history w) (cookieUpdates w) (emitted w ++ [e]) (logged w) (fsOps w) (ticks w).
Definition log (w : world) (s : string) : world :=
  World (history w) (cookieUpdates w) (emitted w) (logged w ++ [s]) (fsOps w) (ticks w).
Definition fs (w : world) (o : fsOp) : world :=
  World (history w) (cookieUpdates w) (emitted w) (logged w) (fsOps w ++ [o]) (ticks w).
Definition cookies_update (w : world) (values : list string) (hostname pathname : string) : world :=
  World (history w) (cookieUpdates w ++ [(values, hostname, pathname)]) (emitted w)
        (logged w) (fsOps w) (ticks w).
Definition tick (w : world) : world :=
  World (history w) (cookieUpdates w) (emitted w) (logged w) (fsOps w) (S (ticks w)).
Definition set_history (w : world) (h : list resource) : world :=
  World h (cookieUpdates w) (emitted w) (logged w) (fsOps w) (ticks w).

(** *** Handlers.  A handler returns what it passes to [next]. *)

Inductive reqOutcome :=
| ReqNext                      (* [next()] *)
| ReqRespond (res : responseRecord)  (* [next(null, res)] *)
| ReqFail (e : error)          (* [next(error)], or a synchronous throw *)
| ReqStall.                    (* [next] is never called *)

Inductive resOutcome :=
| ResNext (newResponse : responseRecord)  (* [next()] with the response as mutated, or [next(null, newResponse)] *)
| ResFail (e : error)               (* [next(error)], or a synchronous throw *)
| ResResubmit (redirectRequest : requestRecord)  (* [browser.resources._runPipeline(redirectRequest, next)] *)
| ResStall.

Definition requestHandler := Env → browser → world → requestRecord → world * requestRecord * reqOutcome.
Definition responseHandler := Env → browser → world → requestRecord → responseRecord → world * resOutcome.

(** An element of the pipeline, classified by its arity. *)
Inductive handler :=
| Handler2 (fn : requestHandler)
| Handler3 (fn : responseHandler).

Definition length2 (h : handler) : bool := match h with Handler2 _ => true | _ => false end.
Definition length3 (h : handler) : bool := match h with Handler3 _ => true | _ => false end.

(** What a pipeline run reports to its callback. *)
Inductive result :=
| Done (r : error + responseRecord)
| Stalled
| OutOfFuel.

(** *** The default request handlers *)

Definition normalizeURL : requestHandler := λ env b w req,
  let req :=
    match document b with
    | Some doc => set_url req (resolveDocument env doc (url req))
    | None =>
        set_url req (resolveHref env (if bool_decide (site b = "") then "http://localhost" else site b)
                                 (url req))
    end in
  let req :=
    match req_params req with
    | Some ps =>
        if bool_decide (method req = "GET" ∨ method req = "HEAD" ∨ method req = "DELETE")
        then set_url req (addQuery env (url req) ps)
        else req
    | None => req
    end in
  (w, req, ReqNext).

Definition mergeHeaders : requestHandler := λ env b w req,
  let hs := Headers.appendAll (headers req) (b_headers b) in
  let hs := if negb (Headers.has hs "User-Agent")
            then Headers.set hs "User-Agent" (userAgent b) else hs in
  let host := host (URL_parse env (url req)) in
  let hs := Headers.set hs "Host" host in
  let w := emit w (EvAuthenticate host) in
  match authenticate env host with
  | Some (username, password) =>
      if negb (bool_decide (username = "")) && negb (bool_decide (password = "")) then
        let w := log w ("Authenticating as " +:+ username +:+ ":" +:+ password) in
        let base64 := base64 env (username +:+ ":" +:+ password) in
        (w, set_headers req (Headers.set hs "authorization" ("Basic " +:+ base64)), ReqNext)
      else (w, set_headers req hs, ReqNext)
  | None => (w, set_headers req hs, ReqNext)
  end.

Definition DQUOTE : string := String (ascii_of_nat 34) EmptyString.

(** [formData(name, value)] *)
Definition formData (name : string) (value : paramValue) : part :=
  match value with
  | PFile fname mime buffer =>
      Part ("form-data; name=" +:+ DQUOTE +:+ name +:+ DQUOTE +:+ "; filename="
              +:+ DQUOTE +:+ fname +:+ DQUOTE)
           (if bool_decide (mime = "") then "application/octet-stream" else mime)
           (String.length buffer) buffer
  | PText v =>
      Part ("form-data; name=" +:+ DQUOTE +:+ name +:+ DQUOTE)
           "text/plain; charset=utf8" (String.length v) v
  end.

Definition createBody : requestHandler := λ env b w req,
  if bool_decide (method req ≠ "POST" ∧ method req ≠ "PUT") then (w, req, ReqNext)
  else
    let contentType :=
      match Headers.get (headers req) "content-type" with
      | Some "" | None => "application/x-www-form-urlencoded"
      | Some ct => ct
      end in
    let hs := Headers.set (headers req) "content-type" contentType in
    let req := set_headers req hs in
    let mimeType :=
      JS.splitHead ";" (default "" (Headers.get hs "content-type")) in
    if bodyTruthy (req_body req) then (w, req, ReqNext)
    else
      let params := default [] (req_params req) in
      if bool_decide (mimeType = "application/x-www-form-urlencoded") then
        let body := QS_stringify env params in
        let req := set_body req (Text body) in
        let req := set_headers req
                     (Headers.set hs "content-length" (pretty (String.length body))) in
        (w, req, ReqNext)
      else if bool_decide (mimeType = "multipart/form-data") then
        if bool_decide (length params = 0) then
          let req := set_headers req (Headers.set hs "content-type" "text/plain") in
          (w, set_body req (Text ""), ReqNext)
        else
          let boundary := random env (ticks w) in
          let w := tick w in
          let withBoundary :=
            default "" (Headers.get hs "content-type") +:+ "; boundary=" +:+ boundary in
          let req := set_headers req (Headers.set hs "content-type" withBoundary) in
          let parts :=
            fold_left (λ parts nv, parts ++ (formData nv.1 <$> nv.2)) params [] in
          (w, set_multipart req (Some parts), ReqNext)
      else if bool_decide (mimeType = "text/plain") then (w, req, ReqNext)
      else (w, req, ReqFail (Error ("Unsupported content type " +:+ mimeType))).

(** A response object with only the given fields set. *)
Definition statusOnly (status : nat) : responseRecord :=
  Response "" status "" [] NoBody 0 0.
Definition bodyOnly (buffer : string) : responseRecord :=
  Response "" 0 "" [] (Buffer buffer) 0 0.

(** The array of [[name, value]] pairs built from the wire headers. *)
Definition arrayOfHeaders (hs : list (string * list string)) : list (string * string) :=
  fold_left (λ headers nv, headers ++ ((λ item, (nv.1, item)) <$> nv.2)) hs [].

(** [makeHTTPRequest]: always the last request handler. *)
Definition makeHTTPRequest : requestHandler := λ env b w req,
  let u := URL_parse env (url req) in
  if bool_decide (protocol u = "file:") then
    if bool_decide (method req ≠ "GET") then (w, req, ReqRespond (statusOnly 405))
    else
      match decodeURI env (pathname u) with
      | None => (w, req, ReqFail (URIError "URI malformed"))
      | Some decoded =>
          let filename := Path_normalize env decoded in
          let w := fs w (FsExists filename) in
          if File_exists env filename then
            let w := fs w (FsReadFile filename) in
            match File_readFile env filename with
            | inl error => (w, set_error req (Some error), ReqFail error)
            | inr buffer => (w, req, ReqRespond (bodyOnly buffer))
            end
          else (w, req, ReqRespond (statusOnly 404))
      end
  else
    let cookie := cookies_serialize env (cookieUpdates w) (hostname u) (pathname u) in
    let req := set_headers req (Headers.append (headers req) "Cookie" cookie) in
    match wire env b req with
    | None => (w, req, ReqStall)
    | Some (inl error) => (w, req, ReqFail error)
    | Some (inr response) =>
        (w, req,
         ReqRespond (Response (url req) (w_statusCode response) ""
                              (Headers.of_list (arrayOfHeaders (w_headers response)))
                              (Buffer (w_body response)) (w_redirects response) 0))
    end.

(** *** The default response handlers *)

Definition tooManyRedirects (max : nat) : error :=
  Error ("More than " +:+ pretty max +:+ " redirects, giving up").

Definition isHTTP (protocol : string) : bool :=
  bool_decide (protocol = "http:" ∨ protocol = "https:").

(** The redirect target chosen from the status code and the method;
    [""] is the initial [null]. *)
Definition redirectUrl (env : Env) (req : requestRecord) (res : responseRecord) : string :=
  let location := default "" (Headers.get (res_headers res) "Location") in
  if bool_decide (statusCode res = 301 ∨ statusCode res = 307) &&
     bool_decide (method req = "GET" ∨ method req = "HEAD")
  then resolveHref env (url req) location
  else if bool_decide (statusCode res = 302 ∨ statusCode res = 303)
  then resolveHref env (url req) location
  else "".

Definition handleResponse : responseHandler := λ env b w req res,
  let res := set_res_headers res (Headers.of_list (res_headers res)) in
  let u := URL_parse env (url req) in
  if negb (isHTTP (protocol u)) then (w, ResNext res)
  else
    let newCookies := Headers.getAll (res_headers res) "Set-Cookie" in
    let w := cookies_update w newCookies (hostname u) (pathname u) in
    let redirects := redirects req in
    let redirectUrl := redirectUrl env req res in
    if negb (bool_decide (redirectUrl = "")) then
      let res := set_res_url res redirectUrl in
      let redirects := S redirects in
      if bool_decide (maxRedirects b < redirects)
      then (w, ResFail (tooManyRedirects (maxRedirects b)))
      else
        let redirectHeaders := Headers.of_list (headers req) in
        let redirectHeaders := Headers.set redirectHeaders "Referer" (url req) in
        let redirectHeaders := Headers.delete redirectHeaders "Content-Type" in
        let redirectHeaders := Headers.delete redirectHeaders "Content-Length" in
        let redirectHeaders := Headers.delete redirectHeaders "Content-Transfer-Encoding" in
        let redirectRequest :=
          Request "GET" (res_url res) redirectHeaders None NoBody None
                  (time req) (timeout req) (strictSSL req) "" redirects None in
        let w := emit w (EvRedirect req res redirectRequest) in
        (w, ResResubmit redirectRequest)
    else (w, ResNext (set_res_redirects res redirects)).

Definition decompressBody : responseHandler := λ env b w req res,
  let transferEncoding := Headers.get (res_headers res) "Transfer-Encoding" in
  let contentEncoding := Headers.get (res_headers res) "Content-Encoding" in
  if bool_decide (contentEncoding = Some "deflate" ∨ transferEncoding = Some "deflate") then
    match Zlib_inflate env (res_body res) with
    | inl error => (w, ResFail error)
    | inr buffer => (w, ResNext (set_res_body res (Buffer buffer)))
    end
  else if bool_decide (contentEncoding = Some "gzip" ∨ transferEncoding = Some "gzip") then
    match Zlib_gunzip env (res_body res) with
    | inl error => (w, ResFail error)
    | inr buffer => (w, ResNext (set_res_body res (Buffer buffer)))
    end
  else (w, ResNext res).

Definition decodeBody : responseHandler := λ env b w req res,
  match res_body res with
  | Buffer bytes =>
      let contentType :=
        match Headers.get (res_headers res) "Content-Type" with
        | Some "" | None => "application/unknown"
        | Some ct => ct
        end in
      let type_ := JS.splitHead "/" contentType in
      if negb (bool_decide (type_ = "")) && negb (bool_decide (type_ = "text"))
      then (w, ResNext res)
      else
        let charset := charsetOption env contentType in
        let charset :=
          match charset with
          | Some "" | None =>
              if isHTML env contentType (Headers.get (headers req) "Accept")
              then Some (default "windows-1252" (sniffCharset env bytes))
              else None
          | Some c => Some c
          end in
        match charset with
        | Some "" | None => (w, ResNext res)
        | Some c =>
            match iconv_decode env bytes c with
            | inl error => (w, ResFail error)
            | inr text => (w, ResNext (set_res_body res (Text text)))
            end
        end
  | _ => (w, ResNext res)
  end.

(** [Resources.pipeline]: all browsers start out with this list. *)
Definition pipeline : list handler :=
  [ Handler2 normalizeURL; Handler2 mergeHeaders; Handler2 createBody;
    Handler3 handleResponse; Handler3 decompressBody; Handler3 decodeBody ].

(** [addHandler(handler)] *)
Definition addHandler (pipeline : list handler) (h : handler) : list handler :=
  pipeline ++ [h].

(** *** Running the pipeline *)

Section Run.
Context (env : Env) (b : browser).

(** [browser.resources._runPipeline], for the re-entry on a redirect. *)
Variable _runPipeline : world → requestRecord → world * result.

(** [nextResponseHandler(browser, req, res, handlers, callback)] *)
Fixpoint nextResponseHandler (w : world) (req : requestRecord) (res : responseRecord)
    (handlers : list responseHandler) : world * result :=
  match handlers with
  | [] => (w, Done (inr res))
  | handler :: rest =>
      match handler env b w req res with
      | (w, ResFail error) => (w, Done (inl error))
      | (w, ResNext newResponse) => nextResponseHandler w req newResponse rest
      | (w, ResResubmit redirectRequest) =>
          match _runPipeline w redirectRequest with
          | (w, Done (inl error)) => (w, Done (inl error))
          | (w, Done (inr newResponse)) => nextResponseHandler w req newResponse rest
          | (w, Stalled) => (w, Stalled)
          | (w, OutOfFuel) => (w, OutOfFuel)
          end
      | (w, ResStall) => (w, Stalled)
      end
  end.

(** [handlers.filter(fn => fn.length === 3)] *)
Definition responseHandlersOf (handlers : list handler) : list responseHandler :=
  omap (λ fn, match fn with Handler3 f => Some f | Handler2 _ => None end) handlers.

(** [nextRequestHandler(browser, req, handlers, callback)]; the request
    is returned as the handlers have left it. *)
Fixpoint nextRequestHandler (w : world) (req : requestRecord)
    (handlers : list handler) : world * requestRecord * result :=
  match handlers with
  | Handler2 handler :: rest =>
      match handler env b w req with
      | (w, req, ReqFail error) => (w, req, Done (inl error))
      | (w, req, ReqRespond res) =>
          let res := set_res_url res (if bool_decide (res_url res = "") then url req
                                      else res_url res) in
          let responseHandlers := responseHandlersOf handlers in
          let '(w, r) := nextResponseHandler w req res responseHandlers in
          (w, req, r)
      | (w, req, ReqNext) => nextRequestHandler w req rest
      | (w, req, ReqStall) => (w, req, Stalled)
      end
  | _ => (w, req, Done (inl (AssertionError "Expected 2 arguments request handler")))
  end.

(** The body of [_runPipeline(req, callback)]. *)
Definition runPipelineBody (pipeline : list handler) (w : world) (req : requestRecord)
    : world * requestRecord * result :=
  let requestHandlers := filter (λ fn, length2 fn) pipeline in
  let responseHandlers := filter (λ fn, length3 fn) pipeline in
  let handlersInOrder := requestHandlers ++ [Handler2 makeHTTPRequest] ++ responseHandlers in
  nextRequestHandler w req handlersInOrder.

End Run.

(** [_runPipeline(req, callback)]: every re-entry on a redirect uses one
    unit of fuel. *)
Fixpoint _runPipeline (env : Env) (b : browser) (pipeline : list handler) (fuel : nat)
    (w : world) (req : requestRecord) : world * requestRecord * result :=
  match fuel with
  | 0 => (w, req, OutOfFuel)
  | S fuel =>
      runPipelineBody env b
        (λ w r, let '(w, _, res) := _runPipeline env b pipeline fuel w r in (w, res))
        pipeline w req
  end.

(** *** [request(method, url, options)] *)

Record options := Options {
  o_headers : list (string * string);
  o_params : option params;
  o_body : body;
  o_timeout : nat;
  o_target : option string;
}.

Definition noOptions : options := Options [] None NoBody 0 None.

(** The synchronous part: build [req], push the resource, emit. *)
Definition request_start (env : Env) (b : browser) (w : world)
    (method url : string) (options : options) : world * requestRecord :=
  let now := Date_now env (ticks w) in
  let w := tick w in
  let req :=
    Request (JS.toUpperCase method) url (Headers.of_list (o_headers options))
            (o_params options) (o_body options) None now (o_timeout options)
            (b_strictSSL b) (b_localAddress b) 0 None in
  let resource := Resource req (o_target options) None None in
  let w := set_history w (history w ++ [resource]) in
  (emit w (EvRequest req), req).

(** The resource holds the request object itself: its record follows
    what the handlers did to it. *)
Definition syncRequest (w : world) (index : nat) (req : requestRecord) : world :=
  match history w !! index with
  | Some r => set_history w (<[index := Resource req (r_target r) (r_error r) (r_response r)]> (history w))
  | None => w
  end.

(** The callback given to [_runPipeline] by [request]. *)
Definition request_callback (env : Env) (w : world) (index : nat) (req : requestRecord)
    (outcome : error + responseRecord) : world * (error + responseRecord) :=
  match history w !! index with
  | None => (w, outcome)
  | Some resource =>
      match outcome with
      | inl error =>
          (set_history w (<[index := Resource (r_request resource) (r_target resource)
                                        (Some error) (r_response resource)]> (history w)),
           inl error)
      | inr res =>
          let status := if bool_decide (statusCode res = 0) then 200 else statusCode res in
          let text := match STATUS_CODES env status with
                      | Some "" | None => "Unknown"
                      | Some t => t
                      end in
          let now := Date_now env (ticks w) in
          let w := tick w in
          let res := Response (res_url res) status text (res_headers res) (res_body res)
                              (res_redirects res) now in
          let w := set_history w (<[index := Resource (r_request resource) (r_target resource)
                                              (r_error resource) (Some res)]> (history w)) in
          (emit w (EvResponse req res), inr res)
      end
  end.

Definition request (env : Env) (b : browser) (pipeline : list handler) (fuel : nat)
    (w : world) (method url : string) (options : options) : world * result :=
  let index := length (history w) in
  let '(w, req) := request_start env b w method url options in
  match _runPipeline env b pipeline fuel w req with
  | (w, req, Done outcome) =>
      let '(w, r) := request_callback env (syncRequest w index req) index req outcome in
      (w, Done r)
  | (w, req, other) => (syncRequest w index req, other)
  end.

(** [get(url, options)] and [post(url, options)] *)
Definition get env b pipeline fuel w url options :=
  request env b pipeline fuel w "get" url options.
Definition post env b pipeline fuel w url options :=
  request env b pipeline fuel w "post" url options.

(** [Resource.url] *)
Definition resource_url (r : resource) : string :=
  match r_response r with
  | Some res => if bool_decide (res_url res = "") then url (r_request r) else res_url res
  | None => url (r_request r)
  end.

(** *** Vocabulary for the properties *)

(** The URL [normalizeURL] leaves in the request. *)
Definition normalizedURL (env : Env) (b : browser) (req : requestRecord) : string :=
  let u :=
    match document b with
    | Some doc => resolveDocument env doc (url req)
    | None => resolveHref env (if bool_decide (site b = "") then "http://localhost" else site b)
                          (url req)
    end in
  match req_params req with
  | Some ps =>
      if bool_decide (method req = "GET" ∨ method req = "HEAD" ∨ method req = "DELETE")
      then addQuery env u ps
      else u
  | None => u
  end.

(** The follow-up requests announced by redirect events. *)
Definition redirectRequests (evs : list event) : list requestRecord :=
  omap (λ e, match e with EvRedirect _ _ r => Some r | _ => None end) evs.

(** The number of redirects followed, as the redirect events count them. *)
Definition countRedirects (evs : list event) : nat := length (redirectRequests evs).

(** The events emitted between two states of the world. *)
Definition newEvents (w w' : world) : list event :=
  drop (length (emitted w)) (emitted w').

(** The URL of the last request of the chain that starts at [req] and
    follows the redirects announced in [evs]. *)
Definition finalURL (env : Env) (b : browser) (req : requestRecord) (evs : list event) : string :=
  normalizedURL env b (default req (last (redirectRequests evs))).

(** The [Location] a response handler reads from a response. *)
Definition locationOf (res : responseRecord) : string :=
  default "" (Headers.get (Headers.of_list (res_headers res)) "Location").

(** No follow-up request: the handler hands a response to the next one. *)
Definition terminal (o : resOutcome) : Prop := ∃ res, o = ResNext res.

(** The response as [handleResponse] first rewrites it. *)
Definition withHeaders (res : responseRecord) : responseRecord :=
  set_res_headers res (Headers.of_list (res_headers res)).

(** The world after [handleResponse] has stored the cookies of the response. *)
Definition withCookies (env : Env) (w : world) (req : requestRecord) (res : responseRecord)
    : world :=
  cookies_update w (Headers.getAll (Headers.of_list (res_headers res)) "Set-Cookie")
                 (hostname (URL_parse env (url req))) (pathname (URL_parse env (url req))).

(** The re-entry into [_runPipeline] that [handleResponse] makes. *)
Definition reenter (env : Env) (b : browser) (pipeline : list handler) (fuel : nat)
    (w : world) (r : requestRecord) : world * result :=
  let '(w, _, res) := _runPipeline env b pipeline fuel w r in (w, res).

(** The handlers of the default pipeline, in the order they run. *)
Definition defaultHandlersInOrder : list handler :=
  [ Handler2 normalizeURL; Handler2 mergeHeaders; Handler2 createBody;
    Handler2 makeHTTPRequest;
    Handler3 handleResponse; Handler3 decompressBody; Handler3 decodeBody ].

(** The URL of the last request of a chain whose first request has the
    (normalized) URL [u]. *)
Definition finalOr (env : Env) (b : browser) (u : string) (evs : list event) : string :=
  match last (redirectRequests evs) with
  | Some r => normalizedURL env b r
  | None => u
  end.

(** What a run of the pipeline from [w] on a request with normalized URL
    [u] and redirect count [n] guarantees about the world [w'] and the
    result [r] it ends with: the history is untouched, events are only
    added, and a response carries the URL of the last request of the chain
    and, when that URL is http(s), the number of redirects followed. *)
Definition chainInv (env : Env) (b : browser) (w : world) (u : string) (n : nat)
    (w' : world) (r : result) : Prop :=
  history w' = history w ∧
  ∃ evs, emitted w' = emitted w ++ evs ∧
    ∀ res, r = Done (inr res) →
      res_url res = finalOr env b u evs ∧
      (isHTTP (protocol (URL_parse env (res_url res))) = true →
       res_redirects res = n + countRedirects evs).

(** The same environment with another HTTP client. *)
Definition withWire (env : Env)
    (client : browser → requestRecord → option (error + wireResponse)) : Env := {|
  URL_parse := URL_parse env;
  resolveHref := resolveHref env;
  resolveDocument := resolveDocument env;
  addQuery := addQuery env;
  QS_stringify := QS_stringify env;
  authenticate := authenticate env;
  base64 := base64 env;
  Date_now := Date_now env;
  random := random env;
  cookies_serialize := cookies_serialize env;
  decodeURI := decodeURI env;
  Path_normalize := Path_normalize env;
  File_exists := File_exists env;
  File_readFile := File_readFile env;
  wire := client;
  Zlib_inflate := Zlib_inflate env;
  Zlib_gunzip := Zlib_gunzip env;
  charsetOption := charsetOption env;
  isHTML := isHTML env;
  sniffCharset := sniffCharset env;
  iconv_decode := iconv_decode env;
  STATUS_CODES := STATUS_CODES env;
|}.

(** A handler has left the target of the request as it was. *)
Definition sameTarget (req req' : requestRecord) : Prop :=
  url req' = url req ∧ method req' = method req ∧ redirects req' = redirects req.

(** The request handlers of a list of handlers, in order. *)
Definition requestHandlersOf (handlers : list handler) : list requestHandler :=
  omap (λ fn, match fn with Handler2 f => Some f | Handler3 _ => None end) handlers.

(** Assumptions on the handlers a caller adds with [addHandler].  A
    request handler keeps to itself when it leaves the history alone,
    announces no redirect, keeps the URL and the redirect count of the
    request, and answers, if it does, with a response that names no URL or
    the URL of the request (as a mock does). *)
Definition quietRequestHandler (env : Env) (b : browser) (h : requestHandler) : Prop :=
  ∀ w req w' req' o,
    h env b w req = (w', req', o) →
    history w' = history w ∧
    (∃ evs, emitted w' = emitted w ++ evs ∧ redirectRequests evs = []) ∧
    url req' = url req ∧ redirects req' = redirects req ∧
    ∀ res, o = ReqRespond res → res_url res = "" ∨ res_url res = url req.

(** A response handler keeps to itself when it leaves the history alone,
    announces no redirect, does not re-enter the pipeline, and hands on a
    response with the URL and the redirect count it was given. *)
Definition quietResponseHandler (env : Env) (b : browser) (h : responseHandler) : Prop :=
  ∀ w req res w' o,
    h env b w req res = (w', o) →
    history w' = history w ∧
    (∃ evs, emitted w' = emitted w ++ evs ∧ redirectRequests evs = []) ∧
    (∀ redirectRequest, o ≠ ResResubmit redirectRequest) ∧
    ∀ res', o = ResNext res' →
      res_url res' = res_url res ∧ res_redirects res' = res_redirects res.

Definition quietHandler (env : Env) (b : browser) (h : handler) : Prop :=
  match h with
  | Handler2 fn => quietRequestHandler env b fn
  | Handler3 fn => quietResponseHandler env b fn
  end.

End Resources.

(** ** Test doubles: a concrete environment to run the model *)

Module Sample.

Fixpoint dropN (n : nat) (s : string) : string :=
  match n, s with
  | S n, String _ r => dropN n r
  | _, _ => s
  end.

(** A reader for URLs of the form [scheme://authority/path]. *)
Definition parse (u : string) : Resources.parsedURL :=
  let scheme := JS.splitHead ":" u in
  let rest := dropN (String.length scheme + 1) u in
  if String.prefix "//" rest then
    let authority := JS.splitHead "/" (dropN 2 rest) in
    Resources.ParsedURL (scheme +:+ ":") authority authority
                        (dropN (2 + String.length authority) rest)
  else Resources.ParsedURL (scheme +:+ ":") "" "" rest.

(** Resolution of an absolute URL or an absolute path against a base. *)
Definition resolve (base href : string) : string :=
  if JS.contains ":" href then href
  else if bool_decide (href = "") then base
  else Resources.protocol (parse base) +:+ "//" +:+ Resources.host (parse base) +:+ href.

Definition statusText (code : nat) : option string :=
  if bool_decide (code = 200) then Some "OK"
  else if bool_decide (code = 301) then Some "Moved Permanently"
  else if bool_decide (code = 302) then Some "Found"
  else if bool_decide (code = 404) then Some "Not Found"
  else if bool_decide (code = 405) then Some "Method Not Allowed"
  else None.

(** A server: [/a] redirects to [/b] with 302, [/moved] to [/b] with 301,
    [/loop] to itself, [/local] to a local file; anything else is found. *)
Definition server (b : Resources.browser) (req : Resources.requestRecord)
    : option (Resources.error + Resources.wireResponse) :=
  let path := Resources.pathname (parse (Resources.url req)) in
  if bool_decide (path = "/a") then
    Some (inr (Resources.WireResponse 302 [("Location", ["/b"])] "" 0))
  else if bool_decide (path = "/moved") then
    Some (inr (Resources.WireResponse 301 [("Location", ["/b"])] "" 0))
  else if bool_decide (path = "/loop") then
    Some (inr (Resources.WireResponse 302 [("Location", ["/loop"])] "" 0))
  else if bool_decide (path = "/local") then
    Some (inr (Resources.WireResponse 302 [("Location", ["file:///srv/missing.txt"])] "" 0))
  else Some (inr (Resources.WireResponse 200 [("Content-Type", ["application/json"])] "{}" 0)).

(** [decodeURI] on a path in ASCII: the escape of an ASCII character is
    replaced by the character, except those of [;/?:@&=+$,#], which stay
    as written; a [%] that two hexadecimal digits do not follow is
    malformed.  (An escape above 7F would start a longer sequence; the
    sample paths have none, and a lone one is malformed as well.) *)
Definition hexValue (c : ascii) : option nat :=
  let n := nat_of_ascii c in
  if Nat.leb 48 n && Nat.leb n 57 then Some (n - 48)
  else if Nat.leb 65 n && Nat.leb n 70 then Some (n - 55)
  else if Nat.leb 97 n && Nat.leb n 102 then Some (n - 87)
  else None.

Fixpoint decodeURI (s : string) : option string :=
  match s with
  | EmptyString => Some EmptyString
  | String c r =>
      if Ascii.eqb c "%" then
        match r with
        | String a (String d r') =>
            match hexValue a, hexValue d with
            | Some h, Some l =>
                if Nat.leb 128 (16 * h + l) then None
                else
                  let decoded := ascii_of_nat (16 * h + l) in
                  rest ← decodeURI r';
                  Some (if JS.contains decoded ";/?:@&=+$,#"
                        then String c (String a (String d rest))
                        else String decoded rest)
            | _, _ => None
            end
        | _ => None
        end
      else String c <$> decodeURI r
  end.

(** The files on disk: one readable file, one that fails to read. *)
Definition exists_ (filename : string) : bool :=
  bool_decide (filename = "/srv/index.html" ∨ filename = "/srv/locked").

Definition readFile (filename : string) : Resources.error + string :=
  if bool_decide (filename = "/srv/index.html") then inr "<html></html>"
  else inl (Resources.SystemError "EACCES" "permission denied").

Definition env : Resources.Env := {|
  Resources.URL_parse := parse;
  Resources.resolveHref := resolve;
  Resources.resolveDocument := resolve;
  Resources.addQuery := λ u _, u;
  Resources.QS_stringify := λ _, "";
  Resources.authenticate := λ _, None;
  Resources.base64 := λ s, s;
  Resources.Date_now := λ n, n;
  Resources.random := λ _, "boundary";
  Resources.cookies_serialize := λ _ _ _, "";
  Resources.decodeURI := decodeURI;
  Resources.Path_normalize := λ p, p;
  Resources.File_exists := exists_;
  Resources.File_readFile := readFile;
  Resources.wire := server;
  Resources.Zlib_inflate := λ _, inl (Resources.Error "incorrect header check");
  Resources.Zlib_gunzip := λ _, inl (Resources.Error "incorrect header check");
  Resources.charsetOption := λ _, None;
  Resources.isHTML := λ _ _, false;
  Resources.sniffCharset := λ _, None;
  Resources.iconv_decode := λ bytes _, inr bytes;
  Resources.STATUS_CODES := statusText;
|}.


Definition browser (maxRedirects : nat) : Resources.browser :=
  Resources.Browser None "" [] "Mozilla/5.0" maxRedirects "" true "".

Definition world : Resources.world := Resources.World [] [] [] [] [] 0.

(** A request record as [request] builds it. *)
Definition req (method url : string) : Resources.requestRecord :=
  Resources.Request method url [] None Resources.NoBody None 0 0 true "" 0 None.

(** A response with a status and a [Location] header. *)
Definition redirectTo (status : nat) (location : string) : Resources.responseRecord :=
  Resources.Response "" status "" [("Location", location)] Resources.NoBody 0 0.

(** A mock: a request handler that answers [/a] with a 302 to [/b] and
    any other path with an empty 200. *)
Definition mock : Resources.requestHandler := λ env b w req,
  if bool_decide (Resources.pathname (Resources.URL_parse env (Resources.url req)) = "/a")
  then (w, req, Resources.ReqRespond (redirectTo 302 "/b"))
  else (w, req, Resources.ReqRespond (Resources.Response "" 200 "" [] (Resources.Text "ok") 0 0)).

(** A response handler that does not keep to itself: it rewrites the
    redirect count of every response. *)
Definition renumber : Resources.responseHandler := λ env b w req res,
  (w, Resources.ResNext (Resources.set_res_redirects res 7)).

Definition fetchEnv : Fetch.Env := {|
  Fetch.inflate := λ s, s;
  Fetch.gunzip := λ s, s;
  Fetch.JSON_valid := λ s, bool_decide (s = "{}");
  Fetch.URL_format := λ s, s;
  Fetch.STATUS_CODES := λ z, statusText (Z.to_nat z);
  Fetch.newBoundary := "boundary";
|}.

Definition xhrParse (base url : string) : XHR.parsedURL :=
  let u := parse (resolve base url) in
  XHR.ParsedURL (Resources.protocol u) "" (Resources.hostname u) ""
                (Resources.host u) (Resources.pathname u) "".

Definition xhrEnv : XHR.Env := {|
  XHR.URL_parse_resolve := xhrParse;
  XHR.URL_format := λ u, XHR.u_protocol u +:+ "//" +:+ XHR.u_host u +:+ XHR.u_path u;
|}.

Definition location : XHR.location :=
  XHR.Location "http://example.test/" "http:" "example.test" "example.test".

End Sample.

(** * Properties *)

(** ** Header collection *)

Section HeadersFacts.
Implicit Types (h : Headers.t) (k n v : string).

Lemma find_key_app k h1 h2 :
  List.find (λ x : string * string, bool_decide (x.1 = k)) (h1 ++ h2) =
  match List.find (λ x : string * string, bool_decide (x.1 = k)) h1 with
  | Some x => Some x
  | None => List.find (λ x : string * string, bool_decide (x.1 = k)) h2
  end.
Proof.
  induction h1 as [|x h1 IH]; simpl; [done|].
  by destruct (bool_decide (x.1 = k)).
Qed.

Lemma find_key_none k h :
  List.find (λ x : string * string, bool_decide (x.1 = k)) h = None ↔
  Forall (λ x, x.1 ≠ k) h.
Proof.
  induction h as [|x h IH]; simpl.
  - split; [constructor|done].
  - case_bool_decide as Hx.
    + split; [done|]. intros HF. inversion HF; subst. done.
    + rewrite IH. split; [by constructor|]. by inversion 1.
Qed.

Lemma has_false_Forall h n :
  Headers.has h n = false ↔ Forall (λ x, x.1 ≠ JS.toLowerCase n) h.
Proof.
  unfold Headers.has. rewrite <- find_key_none.
  destruct (List.find _ h); split; congruence.
Qed.

Lemma get_none_iff h n : Headers.get h n = None ↔ Headers.has h n = false.
Proof. unfold Headers.get, Headers.has. destruct (List.find _ h); split; congruence. Qed.

Lemma filter_ne_id k h :
  Forall (λ x, x.1 ≠ k) h → filter (λ x : string * string, x.1 ≠ k) h = h.
Proof.
  induction 1 as [|x h Hx _ IH]; [done|].
  rewrite filter_cons_True; [|done]. by rewrite IH.
Qed.

Lemma filter_eq_nil k h :
  Forall (λ x, x.1 ≠ k) h → filter (λ x : string * string, x.1 = k) h = [].
Proof.
  induction 1 as [|x h Hx _ IH]; [done|].
  rewrite filter_cons_False; [done|]. by intros ?.
Qed.

Lemma filter_eq_ne_nil k h :
  filter (λ x : string * string, x.1 = k) (filter (λ x : string * string, x.1 ≠ k) h) = [].
Proof.
  apply filter_eq_nil. induction h as [|x h IH]; [constructor|].
  destruct (decide (x.1 ≠ k)).
  - rewrite filter_cons_True; [|done]. by constructor.
  - by rewrite filter_cons_False.
Qed.

Lemma set_fold_replaced k cv h acc :
  fold_left (Headers.set_step k cv) h (acc, true) =
  (acc ++ filter (λ x : string * string, x.1 ≠ k) h, true).
Proof.
  revert acc. induction h as [|x h IH]; intros acc; simpl.
  - by rewrite app_nil_r.
  - case_bool_decide as Hx.
    + rewrite IH, filter_cons_True; [|done]. by rewrite <- app_assoc.
    + rewrite IH. rewrite filter_cons_False; [done|]. intros HH. by apply HH.
Qed.

Lemma set_fold_nomatch k cv h acc :
  Forall (λ x, x.1 ≠ k) h →
  fold_left (Headers.set_step k cv) h (acc, false) = (acc ++ h, false).
Proof.
  intros HF. revert acc. induction HF as [|x h Hx _ IH]; intros acc; simpl.
  - by rewrite app_nil_r.
  - rewrite bool_decide_true by done. rewrite IH. by rewrite <- app_assoc.
Qed.

Lemma set_first_match h1 v0 h2 n v :
  Headers.has h1 n = false →
  Headers.set (h1 ++ (JS.toLowerCase n, v0) :: h2) n v =
  h1 ++ (JS.toLowerCase n, JS.replaceCRLF v) :: Headers.delete h2 n.
Proof.
  intros HF%has_false_Forall. unfold Headers.set, Headers.delete.
  rewrite fold_left_app, set_fold_nomatch by done. simpl.
  rewrite bool_decide_false by (intros Hne; by apply Hne).
  by rewrite set_fold_replaced, <- app_assoc.
Qed.

Lemma set_no_match h n v :
  Headers.has h n = false → Headers.set h n v = Headers.append h n v.
Proof.
  intros HF%has_false_Forall. unfold Headers.set.
  by rewrite set_fold_nomatch.
Qed.

Lemma has_true_split h n :
  Headers.has h n = true →
  ∃ h1 v0 h2, h = h1 ++ (JS.toLowerCase n, v0) :: h2 ∧ Headers.has h1 n = false.
Proof.
  induction h as [|[k0 v0] h IH]; [done|].
  destruct (decide (k0 = JS.toLowerCase n)) as [->|Hne].
  - intros _. by exists [], v0, h.
  - unfold Headers.has. simpl. rewrite bool_decide_false by done.
    intros Hh. destruct (IH Hh) as (h1 & v1 & h2 & -> & Hh1).
    exists ((k0, v0) :: h1), v1, h2. split; [done|].
    unfold Headers.has in *. simpl. by rewrite bool_decide_false.
Qed.

Lemma appendAll_app h l :
  Headers.appendAll h l = h ++ ((λ nv, (JS.toLowerCase nv.1, JS.replaceCRLF nv.2)) <$> l).
Proof.
  revert h. induction l as [|nv l IH]; intros h; simpl.
  - by rewrite app_nil_r.
  - unfold Headers.appendAll in *. simpl. rewrite IH. unfold Headers.append.
    by rewrite <- app_assoc.
Qed.

Lemma has_app h1 h2 n :
  Headers.has (h1 ++ h2) n = Headers.has h1 n || Headers.has h2 n.
Proof.
  unfold Headers.has. rewrite find_key_app. by destruct (List.find _ h1).
Qed.

Lemma get_app h1 h2 n :
  Headers.get (h1 ++ h2) n =
  match Headers.get h1 n with Some v => Some v | None => Headers.get h2 n end.
Proof.
  unfold Headers.get. rewrite find_key_app. by destruct (List.find _ h1).
Qed.

Lemma getAll_app h1 h2 n :
  Headers.getAll (h1 ++ h2) n = Headers.getAll h1 n ++ Headers.getAll h2 n.
Proof. unfold Headers.getAll. by rewrite filter_app, fmap_app. Qed.

Lemma getAll_absent h n : Headers.has h n = false → Headers.getAll h n = [].
Proof.
  intros HF%has_false_Forall. unfold Headers.getAll. by rewrite filter_eq_nil.
Qed.

Lemma getAll_delete h n : Headers.getAll (Headers.delete h n) n = [].
Proof. unfold Headers.getAll, Headers.delete. by rewrite filter_eq_ne_nil. Qed.

Lemma delete_Forall (P : string * string → Prop) h n :
  Forall P h → Forall P (Headers.delete h n).
Proof.
  unfold Headers.delete. induction 1 as [|x h Hx _ IH]; [constructor|].
  destruct (decide (x.1 ≠ JS.toLowerCase n)).
  - rewrite filter_cons_True; [|done]. by constructor.
  - by rewrite filter_cons_False.
Qed.

(** What the stripping does guarantee: every stored value is the image of
    an input value under the CR LF replacement. *)
Lemma run_ops_values_stripped os h :
  Forall (λ x, ∃ v, x.2 = JS.replaceCRLF v) h →
  Forall (λ x, ∃ v, x.2 = JS.replaceCRLF v) (Headers.run_ops h os).
Proof.
  revert h. induction os as [|o os IH]; intros h Hh; [done|].
  apply IH. destruct o as [n v|n v|n]; simpl.
  - unfold Headers.append. apply Forall_app. split; [done|].
    constructor; [by exists v|constructor].
  - destruct (Headers.has h n) eqn:Hhas.
    + destruct (has_true_split _ _ Hhas) as (h1 & v0 & h2 & -> & Hh1).
      rewrite set_first_match by done.
      apply Forall_app in Hh as [H1 H2]. inversion H2; subst.
      apply Forall_app. split; [done|].
      constructor; [by exists v|]. by apply delete_Forall.
    + rewrite set_no_match by done. unfold Headers.append.
      apply Forall_app. split; [done|]. constructor; [by exists v|constructor].
  - by apply delete_Forall.
Qed.

(** C5: [get], [set], [has] and [delete] depend on the name only through
    its lower-case form, so they behave identically for any casing;
    [get] returns the first value appended under any casing of the name and
    [None] when there is none; and after N >= 1 appends of one name (in any
    casing, onto any collection) a single [set] leaves exactly one entry for
    it, at the position of the first former match. *)
Theorem headers_case_insensitive_set_single :
  (∀ (h : Headers.t) (n1 n2 v : string),
     JS.toLowerCase n1 = JS.toLowerCase n2 →
     Headers.get h n1 = Headers.get h n2 ∧
     Headers.has h n1 = Headers.has h n2 ∧
     Headers.delete h n1 = Headers.delete h n2 ∧
     Headers.set h n1 v = Headers.set h n2 v) ∧
  (∀ (h : Headers.t) (n n' v : string) (rest : list (string * string)),
     Headers.has h n = false →
     JS.toLowerCase n' = JS.toLowerCase n →
     Headers.get (Headers.appendAll (Headers.append h n' v) rest) n
     = Some (JS.replaceCRLF v)) ∧
  (∀ (h : Headers.t) (n : string),
     Headers.has h n = false → Headers.get h n = None) ∧
  (∀ (h : Headers.t) (n v : string) (l : list (string * string)),
     l ≠ [] →
     Forall (λ nv, JS.toLowerCase nv.1 = JS.toLowerCase n) l →
     let h' := Headers.appendAll h l in
     length (Headers.getAll (Headers.set h' n v) n) = 1 ∧
     ∃ h1 v0 h2,
       h' = h1 ++ (JS.toLowerCase n, v0) :: h2 ∧
       Headers.has h1 n = false ∧
       Headers.set h' n v
       = h1 ++ (JS.toLowerCase n, JS.replaceCRLF v) :: Headers.delete h2 n).
Proof.
  split; [|split; [|split]].
  - intros h n1 n2 v Hn. unfold Headers.get, Headers.has, Headers.delete,
      Headers.set, Headers.append. by rewrite Hn.
  - intros h n n' v rest Hh Hn.
    rewrite appendAll_app. unfold Headers.append.
    rewrite <- app_assoc, get_app.
    apply get_none_iff in Hh. rewrite Hh.
    unfold Headers.get. simpl. rewrite Hn.
    by rewrite bool_decide_true.
  - intros h n. by rewrite get_none_iff.
  - intros h n v l Hl HF h'.
    assert (Headers.has h' n = true) as Hhas.
    { subst h'. rewrite appendAll_app, has_app.
      destruct l as [|[n0 v0] l]; [done|].
      inversion HF as [|? ? Hn0 _]; subst; simpl in *.
      unfold Headers.has at 2. simpl. rewrite Hn0.
      rewrite bool_decide_true by done. apply orb_true_r. }
    destruct (has_true_split _ _ Hhas) as (h1 & v1 & h2 & Heq & Hh1).
    split.
    + rewrite Heq, set_first_match by done.
      rewrite getAll_app, (getAll_absent h1) by done.
      change (?x :: Headers.delete h2 n) with ([x] ++ Headers.delete h2 n).
      rewrite getAll_app, getAll_delete. unfold Headers.getAll.
      rewrite filter_cons_True; done.
    + exists h1, v1, h2. split; [done|]. split; [done|].
      rewrite Heq. by apply set_first_match.
Qed.

(** The theorem at three appends of one name in three casings. *)
Lemma headers_case_insensitive_set_single_witness :
  Headers.get [("accept", "a")] "ACCEPT" = Headers.get [("accept", "a")] "Accept" ∧
  Headers.get (Headers.appendAll (Headers.append [] "Accept" "a") [("ACCEPT", "b")]) "accept"
  = Some "a" ∧
  Headers.get [("host", "h")] "Accept" = None ∧
  length (Headers.getAll
            (Headers.set (Headers.appendAll [("host", "h")]
                            [("Accept", "a"); ("ACCEPT", "b"); ("accept", "c")])
                         "aCCept" "z") "accept") = 1.
Proof.
  destruct headers_case_insensitive_set_single as (Hcase & Hget & Hnone & Hset).
  split; [|split; [|split]].
  - apply (Hcase [("accept", "a")] "ACCEPT" "Accept" "v"). reflexivity.
  - apply (Hget [] "accept" "Accept" "a" [("ACCEPT", "b")]); reflexivity.
  - apply (Hnone [("host", "h")] "Accept"). reflexivity.
  - apply (Hset [("host", "h")] "aCCept" "z"
             [("Accept", "a"); ("ACCEPT", "b"); ("accept", "c")]).
    + discriminate.
    + repeat constructor.
Defined.

(** C6 (the code departs from the claim): a line feed that is not part of
    a CR LF pair is stored as it is by [append] and by [set], and a CR LF
    pair that the replacement itself brings together is stored too. *)
Theorem headers_lone_line_break_stored :
  let v := String "a" (String JS.LF "b") in
  let nested := String JS.CR (String JS.CR (String JS.LF (String JS.LF ""))) in
  Headers.run_ops [] [Headers.Append "X-Note" v] = [("x-note", v)] ∧
  Headers.run_ops [] [Headers.Set_ "X-Note" v] = [("x-note", v)] ∧
  JS.contains JS.LF v = true ∧
  Headers.run_ops [] [Headers.Append "X-Note" nested]
  = [("x-note", String JS.CR (String JS.LF ""))].
Proof. repeat split. Qed.

End HeadersFacts.

(** ** Message bodies *)

Section FetchFacts.
Import Fetch.
Context (env : Env).

Lemma mono_ret {A} (a : A) : mono (ret a).
Proof. by intros h r. Qed.

Lemma mono_throw {A} (e : error) : mono (@throw A e).
Proof. by intros h r. Qed.

Lemma mono_bind {A B} (m : M A) (k : A → M B) :
  mono m → (∀ a, mono (k a)) → mono (bind m k).
Proof.
  intros Hm Hk h r Hu. unfold bind.
  specialize (Hm h r Hu). destruct (m h) as [h' [e|a]]; simpl in *; [done|].
  by apply Hk.
Qed.

Lemma mono_getObject r : mono (getObject r).
Proof. intros h r' Hu. unfold getObject. by destruct (objects h !! r). Qed.

Lemma mono_getStream s : mono (getStream s).
Proof. intros h r' Hu. unfold getStream. by destruct (streams h !! s). Qed.

Lemma mono_setStream s st : mono (setStream s st).
Proof. by intros h r' Hu. Qed.

Lemma mono_newStream st : mono (newStream st).
Proof. by intros h r' Hu. Qed.

Lemma mono_newObject o : mono (newObject o).
Proof.
  intros h r (o' & Ho' & Hu). exists o'. split; [|done]. simpl.
  by apply lookup_app_l_Some.
Qed.

Lemma mono_setObject r o : _bodyUsed o = true → mono (setObject r o).
Proof.
  intros Ho h r' (o' & Ho' & Hu). unfold usedIn. simpl.
  destruct (decide (r = r')) as [->|Hne].
  - exists o. split; [|done]. apply list_lookup_insert_eq. by eapply lookup_lt_Some.
  - exists o'. by rewrite list_lookup_insert_ne.
Qed.

Lemma mono_setBody this v : mono (setBody this v).
Proof.
  intros h r (o' & Ho' & Hu). unfold setBody, mbind, M_bind, bind, getObject.
  destruct (objects h !! this) as [o|] eqn:Ho; simpl; [|by exists o'].
  unfold usedIn. simpl. destruct (decide (this = r)) as [->|Hne].
  - rewrite Ho in Ho'. injection Ho' as ->.
    eexists. split; [apply list_lookup_insert_eq; by eapply lookup_lt_Some|done].
  - exists o'. by rewrite list_lookup_insert_ne.
Qed.

Ltac mono_step :=
  first
    [ apply mono_ret | apply mono_throw | apply mono_getObject | apply mono_getStream
    | apply mono_setStream | apply mono_newStream | apply mono_newObject
    | apply mono_setBody | (apply mono_setObject; reflexivity)
    | (apply mono_bind; [|intros ?]) ].

Ltac mono_tac :=
  unfold mbind, mret, M_bind, M_ret;
  repeat first [ mono_step | progress simpl | case_match | case_bool_decide ].

Lemma bind_usedIn {A B} (m : M A) (k : A → M B) h r :
  usedIn (m h).1 r → (∀ a, mono (k a)) → usedIn (bind m k h).1 r.
Proof.
  intros Hm Hk. unfold bind. destruct (m h) as [h' [e|a]]; simpl in *; [done|].
  by apply Hk.
Qed.

Lemma mono_consume this : mono (_consume env this).
Proof. unfold _consume. mono_tac. Qed.

Lemma mono_call a this : mono (call env a this).
Proof.
  destruct a; unfold call, arrayBuffer, text, json, formData, nullDeref;
    unfold mbind, mret, M_bind, M_ret;
    repeat first [ apply mono_consume | mono_step | progress simpl | case_match | case_bool_decide ].
Qed.

Lemma mono_Body_constructor hs fs init : mono (Body_constructor env hs fs init).
Proof. unfold Body_constructor. destruct init; mono_tac. Qed.

Lemma mono_Request_constructor input init : mono (Request_constructor env input init).
Proof.
  unfold Request_constructor. unfold mbind, mret, M_bind, M_ret.
  repeat first [ apply mono_Body_constructor | mono_step | progress simpl | case_match | case_bool_decide ].
Qed.

Lemma mono_Response_constructor init ri : mono (Response_constructor env init ri).
Proof.
  unfold Response_constructor. unfold mbind, mret, M_bind, M_ret.
  repeat first [ apply mono_Body_constructor | mono_step | progress simpl | case_match | case_bool_decide ].
Qed.

Lemma mono_clone this : mono (clone this).
Proof. unfold clone. mono_tac. Qed.

Lemma usedIn_exec c h r : usedIn h r → usedIn (exec env c h) r.
Proof.
  destruct c; simpl.
  - apply mono_call.
  - done.
  - apply mono_clone.
  - apply mono_Request_constructor.
  - apply mono_Response_constructor.
Qed.

Lemma usedIn_execAll cs h r : usedIn h r → usedIn (execAll env cs h) r.
Proof.
  revert h. induction cs as [|c cs IH]; intros h Hu; [done|].
  apply IH. by apply usedIn_exec.
Qed.

Lemma consume_used this h : usedIn h this → _consume env this h = (h, inl reuseError).
Proof.
  intros (o & Ho & Hu). unfold _consume, mbind, M_bind, bind, getObject.
  by rewrite Ho, Hu.
Qed.

(** Once a body is used, every accessor fails with the reuse error and
    leaves the heap as it is. *)
Lemma call_used a this h : usedIn h this → call env a this h = (h, inl reuseError).
Proof.
  intros Hu. destruct a; unfold call, arrayBuffer, text, json, formData;
    unfold mbind, M_bind, bind; by rewrite consume_used.
Qed.

(** The first step of every accessor marks the body used, whatever the
    call then returns or throws. *)
Lemma consume_marks this h o :
  objects h !! this = Some o → usedIn (_consume env this h).1 this.
Proof.
  intros Ho. destruct (_bodyUsed o) eqn:Hu.
  { rewrite consume_used; by exists o. }
  unfold _consume, mbind, mret, M_bind, M_ret. unfold bind at 1. unfold getObject at 1.
  rewrite Ho, Hu. apply bind_usedIn.
  - eexists. split; [simpl; apply list_lookup_insert_eq; by eapply lookup_lt_Some|].
    reflexivity.
  - intros _. mono_tac.
Qed.

Lemma call_marks a this h o :
  objects h !! this = Some o → usedIn (call env a this h).1 this.
Proof.
  intros Ho. destruct a; unfold call, arrayBuffer, text, json, formData, nullDeref;
    unfold mbind, mret, M_bind, M_ret;
    (apply bind_usedIn; [by eapply consume_marks|]); intros ?;
    repeat first [ mono_step | progress simpl | case_match | case_bool_decide ].
Qed.

(** A first consumption of a body whose stream is on the heap succeeds and
    changes only the used flag of the object. *)
Lemma consume_fresh this h o :
  objects h !! this = Some o → _bodyUsed o = false → streamOk h o →
  ∃ h1 buffer,
    _consume env this h = (h1, inr buffer) ∧
    objects h1 !! this = Some (Object (_stream o) (headers o) true (body o) (fields o)).
Proof.
  intros Ho Hu Hs. unfold _consume, mbind, mret, M_bind, M_ret.
  unfold bind at 1. unfold getObject at 1. rewrite Ho, Hu.
  assert (<[this:=Object (_stream o) (headers o) true (body o) (fields o)]> (objects h) !! this
          = Some (Object (_stream o) (headers o) true (body o) (fields o))) as Hl.
  { apply list_lookup_insert_eq. by eapply lookup_lt_Some. }
  unfold bind, setObject, getStream, setStream, ret. simpl.
  unfold streamOk in Hs. destruct (_stream o) as [s|]; [|by eauto].
  destruct Hs as [st Hst]. simpl. rewrite Hst.
  destruct (readable st); simpl; eauto.
Qed.

(** A body that is not yet used does not answer with the reuse error. *)
Lemma call_fresh_not_reuse a this h o :
  objects h !! this = Some o → _bodyUsed o = false →
  (call env a this h).2 ≠ inl reuseError.
Proof.
  intros Ho Hu.
  destruct a; unfold call, arrayBuffer, text, json, formData, nullDeref, setBody, _consume;
    unfold mbind, mret, M_bind, M_ret, bind, getObject, setObject, getStream, setStream,
      ret, throw, absent, reuseError;
    rewrite Ho, Hu; simpl;
    repeat (case_match; simpl in *; simplify_eq; try discriminate); try discriminate.
  all: unfold throw in *; simplify_eq; discriminate.
Qed.

Lemma Body_constructor_result hs fs init h h' c :
  Body_constructor env hs fs init h = (h', inr c) →
  c = length (objects h) ∧
  ∃ oc, objects h' = objects h ++ [oc] ∧ _bodyUsed oc = false ∧ fields oc = fs.
Proof.
  unfold Body_constructor, mbind, mret, M_bind, M_ret, bind, getObject, newObject,
    newStream, ret, throw, absent.
  intros H. destruct init; simpl in H;
    repeat (case_match; simpl in *; simplify_eq); eauto;
    simplify_eq/=; eauto 6.
Qed.

Lemma Request_copy_of_used r h o init :
  objects h !! r = Some o → isRequest o = true → is_Some (_stream o) →
  _bodyUsed o = true →
  Request_constructor env (InputRequest r) init h
  = (h, inl (TypeError "Request body already used")).
Proof.
  intros Ho Hreq Hs Hu. unfold Request_constructor, mbind, mret, M_bind, M_ret.
  unfold bind at 1. unfold bind at 1. unfold getObject at 1.
  rewrite Ho, Hreq, Hu. by rewrite bool_decide_true.
Qed.

Lemma Request_copy_of_fresh r h o init :
  objects h !! r = Some o → isRequest o = true → is_Some (_stream o) →
  _bodyUsed o = false →
  usedIn (Request_constructor env (InputRequest r) init h).1 r ∧
  ∀ c, (Request_constructor env (InputRequest r) init h).2 = inr c →
    c ≠ r ∧
    ∃ oc, objects (Request_constructor env (InputRequest r) init h).1 !! c = Some oc ∧
          _bodyUsed oc = false.
Proof.
  intros Ho Hreq Hs Hu.
  assert (r < length (objects h)) as Hlt by by eapply lookup_lt_Some.
  split.
  - unfold Request_constructor, mbind, mret, M_bind, M_ret.
    apply bind_usedIn.
    + unfold bind, getObject, setObject, ret. rewrite Ho, Hreq, Hu.
      rewrite bool_decide_true by done. simpl.
      eexists. split; [simpl; by apply list_lookup_insert_eq|]. reflexivity.
    + intros b0.
      repeat first [ apply mono_Body_constructor | mono_step | progress simpl
                   | case_match | case_bool_decide ].
  - intros c. destruct (Request_constructor env (InputRequest r) init h) as [h' res] eqn:HR.
    simpl. intros ->.
    unfold Request_constructor, mbind, mret, M_bind, M_ret, bind, getObject, setObject,
      ret, throw in HR.
    rewrite Ho, Hreq, Hu in HR. rewrite bool_decide_true in HR by done. simpl in HR.
    rewrite list_lookup_insert_eq in HR by done. simpl in HR.
    destruct (fields o) as [u m rd rc|] eqn:Hf; [|by unfold isRequest in Hreq; rewrite Hf in Hreq].
    repeat (case_match; simpl in *; simplify_eq);
      match goal with
      | H : Body_constructor _ _ _ _ _ = _ |- _ =>
          apply Body_constructor_result in H as (-> & oc & Hobj & Hoc & _)
      end;
      simpl in *.
  all: rewrite ?length_insert.
  all: split; [lia|]; exists oc; split; [|done].
  all: rewrite Hobj, lookup_app_r; rewrite length_insert; [|lia].
  all: by rewrite Nat.sub_diag.
Qed.

(** C4 (as amended): the first call of any accessor marks the body used,
    and from then on every accessor call on that body fails with the reuse
    error and changes nothing, whichever accessors are called, in whatever
    order, and whatever other calls are made in between.  A copy has a used
    flag of its own: constructing a Request from a used Request that has a
    stream is refused with a reuse error; constructing it from an unused
    one marks the original used, and the copy, a different object, does not
    answer its next accessor call with the reuse error. *)
Theorem body_single_use :
  (∀ h this o a1 between a2,
     objects h !! this = Some o →
     let h1 := (call env a1 this h).1 in
     let h2 := execAll env between h1 in
     usedIn h1 this ∧ call env a2 this h2 = (h2, inl (TypeError "Body already consumed"))) ∧
  (∀ h r o init,
     objects h !! r = Some o → isRequest o = true → is_Some (_stream o) →
     _bodyUsed o = true →
     Request_constructor env (InputRequest r) init h
     = (h, inl (TypeError "Request body already used"))) ∧
  (∀ h r o init,
     objects h !! r = Some o → isRequest o = true → is_Some (_stream o) →
     _bodyUsed o = false →
     let h' := (Request_constructor env (InputRequest r) init h).1 in
     usedIn h' r ∧
     ∀ c a, (Request_constructor env (InputRequest r) init h).2 = inr c →
       c ≠ r ∧ (call env a c h').2 ≠ inl (TypeError "Body already consumed")).
Proof.
  split; [|split].
  - intros h this o a1 between a2 Ho h1 h2.
    assert (usedIn h1 this) as Hu by by eapply call_marks.
    split; [done|]. apply call_used. by apply usedIn_execAll.
  - intros h r o init. apply Request_copy_of_used.
  - intros h r o init Ho Hreq Hs Hu h'.
    destruct (Request_copy_of_fresh r h o init Ho Hreq Hs Hu) as [Hused Hcopy].
    split; [done|]. intros c a Hc.
    destruct (Hcopy c Hc) as (Hne & oc & Hoc & Hfresh).
    split; [done|]. by eapply call_fresh_not_reuse.
Qed.

(** C10: on a body that is not yet used and whose content type is neither
    of the two form types, [formData()] fails with its type error and still
    marks the body used: the heap is not left as it was, and every later
    accessor call on the body fails with the reuse error. *)
Theorem formData_type_error_marks_used h this o between a :
  objects h !! this = Some o →
  _bodyUsed o = false →
  streamOk h o →
  mimeTypeOf o ≠ "multipart/form-data" →
  mimeTypeOf o ≠ "application/x-www-form-urlencoded" →
  let h1 := (formData env this h).1 in
  let h2 := execAll env between h1 in
  (formData env this h).2
  = inl (TypeError ("formData does not support MIME type " +:+ mimeTypeOf o)) ∧
  usedIn h1 this ∧
  ¬ usedIn h this ∧
  call env a this h2 = (h2, inl (TypeError "Body already consumed")).
Proof.
  intros Ho Hu Hs Hm1 Hm2 h1 h2.
  destruct (consume_fresh this h o Ho Hu Hs) as (h' & buffer & Hc & Ho').
  assert (formData env this h
          = (h', inl (TypeError ("formData does not support MIME type " +:+ mimeTypeOf o))))
    as Hform.
  { unfold formData, mbind, mret, M_bind, M_ret. unfold bind at 1. rewrite Hc.
    unfold bind, getObject, throw. rewrite Ho'. simpl.
    unfold mimeTypeOf in Hm1, Hm2.
    replace (match Headers.get (headers o) "Content-Type" with
             | Some ct => ct | None => "" end)
      with (default "" (Headers.get (headers o) "Content-Type"))
      by by destruct (Headers.get (headers o) "Content-Type").
    by rewrite !bool_decide_false. }
  assert (usedIn h1 this) as Hused.
  { subst h1. rewrite Hform. simpl. eexists. split; [exact Ho'|done]. }
  split; [by rewrite Hform|]. split; [done|]. split.
  - intros (o0 & Ho0 & Hu0). rewrite Ho in Ho0. injection Ho0 as <-. congruence.
  - apply call_used. by apply usedIn_execAll.
Qed.

End FetchFacts.

(** The theorem at a POST request with a text body: read twice through
    different accessors, then copied before any read. *)
Lemma body_single_use_witness :
  let env := Sample.fetchEnv in
  let post := Some (Fetch.RequestInit (Some "post") [] (Fetch.InitString "abc") None) in
  let h := (Fetch.Request_constructor env (Fetch.InputString "http://example.test/") post
              Fetch.emptyHeap).1 in
  let h1 := (Fetch.call env Fetch.Text 0 h).1 in
  (Fetch.usedIn h1 0 ∧
   Fetch.call env Fetch.Json 0 (Fetch.execAll env [Fetch.CallAccessor Fetch.ArrayBuffer 0] h1)
   = (Fetch.execAll env [Fetch.CallAccessor Fetch.ArrayBuffer 0] h1,
      inl (Fetch.TypeError "Body already consumed"))) ∧
  Fetch.Request_constructor env (Fetch.InputRequest 0) None h1
  = (h1, inl (Fetch.TypeError "Request body already used")) ∧
  Fetch.usedIn (Fetch.Request_constructor env (Fetch.InputRequest 0) None h).1 0.
Proof.
  intros env post h h1.
  destruct (body_single_use env) as (Hsame & Hused & Hfresh).
  split; [|split].
  - eapply (Hsame h 0 _ Fetch.Text [Fetch.CallAccessor Fetch.ArrayBuffer 0] Fetch.Json).
    reflexivity.
  - eapply (Hused h1 0 _ None); [reflexivity|reflexivity|by eexists|reflexivity].
  - eapply (Hfresh h 0 _ None); [reflexivity|reflexivity|by eexists|reflexivity].
Defined.

(** C4 as first stated does not hold: a copy does not inherit the used
    flag.  A response is read and then copied: the copy answers its
    accessor with empty text.  A request is copied before any read: the
    original then fails with the reuse error on its first accessor call,
    and the copy, called afterwards, returns the text. *)
Lemma body_copy_not_refused :
  let env := Sample.fetchEnv in
  let ok := Some (Fetch.ResponseInit (Some 200%Z) None None []) in
  let post := Some (Fetch.RequestInit (Some "post") [] (Fetch.InitString "abc") None) in
  let h1 := (Fetch.Response_constructor env (Fetch.InitString "abc") ok Fetch.emptyHeap).1 in
  let h2 := (Fetch.call env Fetch.Text 0 h1).1 in
  let h3 := (Fetch.Response_constructor env (Fetch.InitBody 0) ok h2).1 in
  let g1 := (Fetch.Request_constructor env (Fetch.InputString "http://example.test/") post
               Fetch.emptyHeap).1 in
  let g2 := (Fetch.Request_constructor env (Fetch.InputRequest 0) None g1).1 in
  let g3 := (Fetch.call env Fetch.Text 0 g2).1 in
  ((Fetch.call env Fetch.Text 0 h1).2 = inr (Fetch.VText "abc") ∧
   (Fetch.Response_constructor env (Fetch.InitBody 0) ok h2).2 = inr 1 ∧
   (Fetch.call env Fetch.Text 1 h3).2 = inr (Fetch.VText "")) ∧
  ((Fetch.Request_constructor env (Fetch.InputRequest 0) None g1).2 = inr 1 ∧
   (Fetch.call env Fetch.Text 0 g2).2 = inl (Fetch.TypeError "Body already consumed") ∧
   (Fetch.call env Fetch.Text 1 g3).2 = inr (Fetch.VText "abc")).
Proof. repeat split. Qed.

(** The theorem at a text response asked for form data, then for text. *)
Lemma formData_type_error_marks_used_witness :
  let env := Sample.fetchEnv in
  let ok := Some (Fetch.ResponseInit (Some 200%Z) None None []) in
  let h := (Fetch.Response_constructor env (Fetch.InitString "abc") ok Fetch.emptyHeap).1 in
  let h1 := (Fetch.formData env 0 h).1 in
  (Fetch.formData env 0 h).2
  = inl (Fetch.TypeError "formData does not support MIME type text/plain") ∧
  Fetch.usedIn h1 0 ∧
  ¬ Fetch.usedIn h 0 ∧
  Fetch.call env Fetch.Text 0 h1 = (h1, inl (Fetch.TypeError "Body already consumed")).
Proof.
  intros env ok h h1.
  pose (o := Fetch.Object (Some 0) [("content-type", "text/plain;charset=UTF-8")] false
               Fetch.VNull (Fetch.ResponseFields "" "default" (Some 200%Z) "OK")).
  apply (formData_type_error_marks_used env h 0 o [] Fetch.Text);
    [reflexivity|reflexivity|by eexists|discriminate|discriminate].
Defined.

(** ** The asynchronous request engine *)

Section XHRFacts.
Import XHR.

(** Evaluation of the setters and emitters on a state given by its
    fields, with sharing. *)
Ltac xhr_eval :=
  lazy beta iota zeta delta
    [completeAborted completeError completeRejected completeLoaded
     _stateChanged _fire raise emit set_state set_error set_pending set_response
     loc state _pending _cors _url _response _error x_timeout requests effects
     abortEvents successEvents corsRejection].

Lemma completeAborted_spec x :
  effects (completeAborted x) = effects x ++ abortEvents.
Proof. destruct x. xhr_eval. by rewrite <- !app_assoc. Qed.

Lemma completeError_spec x error :
  let e := if bool_decide (e_code error = "ETIMEDOUT")
           then mkDOMException TIMEOUT_ERR "The request timed out"
           else mkDOMException NETWORK_ERR (e_message error) in
  let outcomeEvent := if bool_decide (e_code error = "ETIMEDOUT") then "timeout" else "error" in
  effects (completeError x error)
  = effects x ++ [Fire "readystatechange" DONE None; Fire "progress" DONE None;
                  Fire outcomeEvent DONE (Some e); Fire "loadend" DONE None; PushError e].
Proof.
  destruct x. unfold completeError.
  destruct (bool_decide (e_code error = "ETIMEDOUT")); xhr_eval; by rewrite <- !app_assoc.
Qed.

Lemma completeRejected_spec x :
  effects (completeRejected x) = effects x ++ corsRejection ∧
  _error (completeRejected x) = Some corsError ∧
  _response (completeRejected x) = _response x ∧
  state (completeRejected x) = DONE.
Proof. destruct x. xhr_eval. by rewrite <- !app_assoc. Qed.

Lemma completeLoaded_spec x response :
  effects (completeLoaded x response) = effects x ++ successEvents ∧
  _response (completeLoaded x response) = Some response ∧
  _error (completeLoaded x response) = _error x ∧
  state (completeLoaded x response) = DONE.
Proof. destruct x. xhr_eval. by rewrite <- !app_assoc. Qed.

(** The first statement of the callback touches [_pending] only. *)
Lemma clear_pending_frame x r :
  let x' := if bool_decide (_pending x = Some r) then set_pending x None else x in
  requests x' = requests x ∧ effects x' = effects x ∧ _cors x' = _cors x ∧
  _response x' = _response x ∧ _error x' = _error x.
Proof. simpl. by case_bool_decide. Qed.

(** The events of a completion on each of its five paths. *)
Lemma complete_aborted x r q outcome :
  requests x !! r = Some q → aborted q = true →
  effects (complete x r outcome) = effects x ++ abortEvents.
Proof.
  intros Hq Ha. unfold complete. cbv zeta.
  destruct (clear_pending_frame x r) as (Hr & He & _). cbv zeta in Hr, He.
  rewrite Hr, Hq, Ha, completeAborted_spec. by rewrite He.
Qed.

Lemma complete_error x r q error :
  requests x !! r = Some q → aborted q = false →
  let e := if bool_decide (e_code error = "ETIMEDOUT")
           then mkDOMException TIMEOUT_ERR "The request timed out"
           else mkDOMException NETWORK_ERR (e_message error) in
  let outcomeEvent := if bool_decide (e_code error = "ETIMEDOUT") then "timeout" else "error" in
  effects (complete x r (inl error))
  = effects x ++ [Fire "readystatechange" DONE None; Fire "progress" DONE None;
                  Fire outcomeEvent DONE (Some e); Fire "loadend" DONE None; PushError e].
Proof.
  intros Hq Ha. unfold complete. cbv zeta.
  destruct (clear_pending_frame x r) as (Hr & He & _). cbv zeta in Hr, He.
  rewrite Hr, Hq, Ha. pose proof (completeError_spec
    (if bool_decide (_pending x = Some r) then set_pending x None else x) error) as Hs.
  cbv zeta in Hs. by rewrite Hs, He.
Qed.

Lemma complete_cors_rejected x r q response cors :
  requests x !! r = Some q → aborted q = false → _cors x = Some cors →
  ¬ allows response cors →
  let x' := complete x r (inr response) in
  effects x' = effects x ++ corsRejection ∧
  _error x' = Some corsError ∧ _response x' = _response x ∧ state x' = DONE.
Proof.
  intros Hq Ha Hc H1. unfold allows in H1. unfold complete. cbv zeta.
  destruct (clear_pending_frame x r) as (Hr & He & Hco & Hre & _).
  cbv zeta in Hr, He, Hco, Hre.
  rewrite Hr, Hq, Ha, Hco, Hc. rewrite bool_decide_false by done. simpl negb. cbv iota.
  destruct (completeRejected_spec
    (if bool_decide (_pending x = Some r) then set_pending x None else x))
    as (-> & -> & -> & ->).
  by rewrite He, Hre.
Qed.

Lemma complete_cors_allowed x r q response cors :
  requests x !! r = Some q → aborted q = false → _cors x = Some cors →
  allows response cors →
  let x' := complete x r (inr response) in
  effects x' = effects x ++ successEvents ∧
  _response x' = Some response ∧ _error x' = _error x ∧ state x' = DONE.
Proof.
  intros Hq Ha Hc H1. unfold allows in H1. unfold complete. cbv zeta.
  destruct (clear_pending_frame x r) as (Hr & He & Hco & Hre & Her).
  cbv zeta in Hr, He, Hco, Hre, Her.
  rewrite Hr, Hq, Ha, Hco, Hc. rewrite bool_decide_true by done. simpl negb. cbv iota.
  destruct (completeLoaded_spec
    (if bool_decide (_pending x = Some r) then set_pending x None else x) response)
    as (-> & -> & -> & ->).
  by rewrite He, Her.
Qed.

Lemma complete_same_origin x r q response :
  requests x !! r = Some q → aborted q = false → _cors x = None →
  let x' := complete x r (inr response) in
  effects x' = effects x ++ successEvents ∧
  _response x' = Some response ∧ _error x' = _error x ∧ state x' = DONE.
Proof.
  intros Hq Ha Hc. unfold complete. cbv zeta.
  destruct (clear_pending_frame x r) as (Hr & He & Hco & Hre & Her).
  cbv zeta in Hr, He, Hco, Hre, Her.
  rewrite Hr, Hq, Ha, Hco, Hc.
  destruct (completeLoaded_spec
    (if bool_decide (_pending x = Some r) then set_pending x None else x) response)
    as (-> & -> & -> & ->).
  by rewrite He, Her.
Qed.

(** [abort] before [send] resets the state and fires nothing. *)
Lemma abort_before_send x r q :
  state x = OPENED → _pending x = Some r → requests x !! r = Some q → sent q = false →
  abort x = (set_state x UNSENT, inr tt) ∧ effects (abort x).1 = effects x.
Proof.
  intros Hs Hp Hq Hsent. unfold abort. rewrite Hs, Hp. simpl. rewrite Hq, Hsent. done.
Qed.

Lemma abort_loc x : loc (abort x).1 = loc x.
Proof.
  unfold abort, update_request, set_requests, set_state.
  repeat (case_match; simpl; try done).
Qed.

(** [open] on a URL of another host records the origin of the caller. *)
Lemma open_flags_cross_origin env x method0 url0 useAsync user password x' :
  open env x method0 url0 useAsync user password = (x', inr tt) →
  let u := URL_parse_resolve env (href (loc x)) url0 in
  let port := if bool_decide ((u_protocol u = "https:" ∧ u_port u = "443") ∨
                              (u_protocol u = "http:" ∧ u_port u = "80"))
              then "" else u_port u in
  let hostname_ := if bool_decide (u_hostname u = "") then hostname (loc x) else u_hostname u in
  let host_ := if bool_decide (port = "") then hostname_ else hostname_ +:+ ":" +:+ port in
  host_ ≠ host (loc x) →
  _cors x' = Some (protocol (loc x) +:+ "//" +:+ host (loc x)).
Proof.
  intros H u port hostname_ host_ Hne. unfold open in H.
  destruct (bool_decide (useAsync = Some false)); [done|].
  pose proof (abort_loc x) as Hloc.
  destruct (abort x) as [xa [e|[]]]; [done|]. simpl in Hloc.
  destruct (isForbiddenMethod _); [done|].
  destruct (isSupportedMethod _); [|done].
  cbv zeta in H. rewrite !Hloc in H.
  fold u in H. fold port in H. fold hostname_ in H. fold host_ in H.
  destruct (isHTTP _); [|done].
  rewrite bool_decide_true in H by done.
  injection H as <-. by destruct xa.
Qed.

#[local] Instance allows_dec response cors : Decision (allows response cors).
Proof. unfold allows. apply _. Defined.

Lemma fired_app x l :
  omap (λ e, match e with Fire n s _ => Some (n, s) | _ => None end) (effects x ++ l)
  = fired x ++ omap (λ e, match e with Fire n s _ => Some (n, s) | _ => None end) l.
Proof. unfold fired. by rewrite omap_app. Qed.

(** On the four paths of a request that was not aborted, the last event
    fired is [loadend], in state DONE. *)
Lemma loadend_last_unless_aborted x r q outcome :
  requests x !! r = Some q → aborted q = false →
  last (fired (complete x r outcome)) = Some ("loadend", DONE).
Proof.
  intros Hq Ha. unfold fired at 1. destruct outcome as [error|response].
  - rewrite (complete_error x r q error Hq Ha), fired_app. simpl.
    by rewrite last_app.
  - destruct (_cors x) as [cors|] eqn:Hc.
    + destruct (decide (allows response cors)) as [Hal|Hal].
      * destruct (complete_cors_allowed x r q response cors Hq Ha Hc Hal) as [-> _].
        rewrite fired_app. simpl. by rewrite last_app.
      * destruct (complete_cors_rejected x r q response cors Hq Ha Hc Hal) as [-> _].
        rewrite fired_app. simpl. by rewrite last_app.
    + destruct (complete_same_origin x r q response Hq Ha Hc) as [-> _].
      rewrite fired_app. simpl. by rewrite last_app.
Qed.

(** C7 (as amended): for a request flagged cross-origin ([_cors] holds the
    caller's origin) that was not aborted, a response that arrives leads to
    the success events exactly when its Access-Control-Allow-Origin header
    is [*] or the caller's origin; otherwise no response is stored, the
    security error is recorded, the error event is fired, and the error is
    raised to the document. *)
Theorem cors_check_on_response x r response cors :
  aborted <$> requests x !! r = Some false →
  _cors x = Some cors →
  let x' := complete x r (inr response) in
  (allows response cors →
     effects x' = effects x ++ successEvents ∧ _response x' = Some response) ∧
  (¬ allows response cors →
     effects x' = effects x ++ corsRejection ∧
     _error x' = Some corsError ∧ _response x' = _response x ∧ state x' = DONE) ∧
  (_response x = None → is_Some (_response x') → allows response cors).
Proof.
  intros Hq Hc x'. destruct (requests x !! r) as [q|] eqn:Hr; [|done].
  injection Hq as Ha. split; [|split].
  - intros Hal. by destruct (complete_cors_allowed x r q response cors Hr Ha Hc Hal) as (? & ? & _).
  - intros Hal. by apply (complete_cors_rejected x r q response cors Hr Ha Hc Hal).
  - intros Hnone Hsome. destruct (decide (allows response cors)) as [Hal|Hal]; [done|].
    destruct (complete_cors_rejected x r q response cors Hr Ha Hc Hal) as (_ & _ & Hresp & _).
    subst x'. rewrite Hresp, Hnone in Hsome. by destruct Hsome.
Qed.

(** C9 (the code departs from the claim): the completion of a request that
    was aborted after [send] fires the DONE transition, [progress] and
    [abort] and nothing after: no [loadend]. *)
Theorem aborted_completion_fires_no_loadend x r outcome :
  aborted <$> requests x !! r = Some true →
  effects (complete x r outcome) = effects x ++ abortEvents ∧
  last (fired (complete x r outcome)) = Some ("abort", DONE).
Proof.
  intros Hq. destruct (requests x !! r) as [q|] eqn:Hr; [|done].
  injection Hq as Ha. split; [by eapply complete_aborted|].
  unfold fired at 1. rewrite (complete_aborted x r q outcome Hr Ha), fired_app.
  simpl. by rewrite last_app.
Qed.

End XHRFacts.

(** The theorem at a request to another host answered without the header,
    and answered with the caller's origin. *)
Lemma cors_check_on_response_witness :
  let x1 := (XHR.open Sample.xhrEnv (XHR.new Sample.location) "get"
               "http://other.test/data" None "" "").1 in
  let x2 := (XHR.send x1 None).1 in
  let plain := XHR.Response 200 "OK" [] "hi" in
  let allowed :=
    XHR.Response 200 "OK" [("access-control-allow-origin", "http://example.test")] "hi" in
  XHR.effects (XHR.complete x2 0 (inr plain)) = XHR.effects x2 ++ XHR.corsRejection ∧
  XHR.effects (XHR.complete x2 0 (inr allowed)) = XHR.effects x2 ++ XHR.successEvents.
Proof.
  intros x1 x2 plain allowed. split.
  - apply (cors_check_on_response x2 0 plain "http://example.test");
      [reflexivity|reflexivity|].
    intros [H|H]; discriminate H.
  - apply (cors_check_on_response x2 0 allowed "http://example.test");
      [reflexivity|reflexivity|].
    right. reflexivity.
Defined.

(** C7 as first stated does not hold: a cross-origin request aborted after
    [send] and then answered without the header ends on the abort path:
    no error event is fired and nothing is raised to the document. *)
Lemma cors_not_checked_when_aborted :
  let x1 := (XHR.open Sample.xhrEnv (XHR.new Sample.location) "get"
               "http://other.test/data" None "" "").1 in
  let x2 := (XHR.send x1 None).1 in
  let x3 := (XHR.abort x2).1 in
  let plain := XHR.Response 200 "OK" [] "hi" in
  let x4 := XHR.complete x3 0 (inr plain) in
  XHR._cors x3 = Some "http://example.test" ∧
  JS.getProp (XHR.r_headers plain) "access-control-allow-origin" = None ∧
  XHR.eventNames x4
  = ["readystatechange"; "loadstart"; "readystatechange"; "progress"; "abort"] ∧
  XHR.raisedErrors x4 = [] ∧
  XHR._error x4 = Some XHR.abortError.
Proof. repeat split. Qed.

(** The theorem at a same-origin request aborted after [send], then
    answered by the server. *)
Lemma aborted_completion_fires_no_loadend_witness :
  let x1 := (XHR.open Sample.xhrEnv (XHR.new Sample.location) "get" "/data" None "" "").1 in
  let x2 := (XHR.send x1 None).1 in
  let x3 := (XHR.abort x2).1 in
  let x4 := XHR.complete x3 0 (inr (XHR.Response 200 "OK" [] "hi")) in
  XHR.effects x4 = XHR.effects x3 ++ XHR.abortEvents ∧
  last (XHR.fired x4) = Some ("abort", XHR.DONE).
Proof.
  intros x1 x2 x3 x4.
  apply (aborted_completion_fires_no_loadend x3 0). reflexivity.
Defined.

(** ** The resource pipeline *)

Section ResourcesFacts.
Import Resources.
Context (env : Env) (b : browser).

(** *** The transport *)

Lemma makeHTTPRequest_never_writes w req :
  ∃ ops, fsOps (makeHTTPRequest env b w req).1.1 = fsOps w ++ ops ∧
         Forall (λ o, isWrite o = false) ops.
Proof.
  unfold makeHTTPRequest. cbv zeta.
  repeat case_match; simpl;
    first [ by exists []; rewrite app_nil_r
          | by eexists [_]; split; [reflexivity|repeat constructor]
          | by eexists [_; _]; split; [rewrite <- app_assoc; reflexivity|repeat constructor] ].
Qed.

(** C8 (as amended): a request with a [file:] URL that reaches the
    transport is answered with status 405 when its method is not GET.  A
    GET whose path [decodeURI] refuses (a malformed escape) fails with the
    URI error before the file system is asked anything.  A GET whose path
    decodes is answered with status 404 when the path does not exist, and
    with the bytes of the file when it does; an error of the read is handed
    on as the error of the fetch.  The transport only asks the file system
    whether the path exists and for its content, and never writes. *)
Theorem file_transport w req :
  protocol (URL_parse env (url req)) = "file:" →
  let u := URL_parse env (url req) in
  let r := makeHTTPRequest env b w req in
  (method req ≠ "GET" → r = (w, req, ReqRespond (Response "" 405 "" [] NoBody 0 0))) ∧
  (method req = "GET" → decodeURI env (pathname u) = None →
     r = (w, req, ReqFail (URIError "URI malformed")) ∧
     ∀ resubmit rest,
       (nextRequestHandler env b resubmit w req (Handler2 makeHTTPRequest :: rest)).2
       = Done (inl (URIError "URI malformed"))) ∧
  (∀ decoded,
     method req = "GET" → decodeURI env (pathname u) = Some decoded →
     let filename := Path_normalize env decoded in
     (File_exists env filename = false →
        r = (fs w (FsExists filename), req, ReqRespond (Response "" 404 "" [] NoBody 0 0)) ∧
        fsOps r.1.1 = fsOps w ++ [FsExists filename]) ∧
     (∀ buffer,
        File_exists env filename = true → File_readFile env filename = inr buffer →
        r = (fs (fs w (FsExists filename)) (FsReadFile filename), req,
             ReqRespond (Response "" 0 "" [] (Buffer buffer) 0 0)) ∧
        fsOps r.1.1 = fsOps w ++ [FsExists filename; FsReadFile filename]) ∧
     (∀ error,
        File_exists env filename = true → File_readFile env filename = inl error →
        r = (fs (fs w (FsExists filename)) (FsReadFile filename),
             set_error req (Some error), ReqFail error) ∧
        ∀ resubmit rest,
          (nextRequestHandler env b resubmit w req (Handler2 makeHTTPRequest :: rest)).2
          = Done (inl error))) ∧
  (∃ ops, fsOps r.1.1 = fsOps w ++ ops ∧ Forall (λ o, isWrite o = false) ops).
Proof.
  intros Hp u r. split; [|split; [|split]].
  - intros Hm. subst r. unfold makeHTTPRequest. cbv zeta.
    rewrite Hp. rewrite !bool_decide_true by done. done.
  - intros Hm Hd. subst r u.
    assert (makeHTTPRequest env b w req = (w, req, ReqFail (URIError "URI malformed"))) as Hr.
    { unfold makeHTTPRequest. cbv zeta.
      rewrite Hp, Hm, Hd. rewrite bool_decide_true by done.
      by rewrite (bool_decide_false ("GET" ≠ "GET")) by (intros H; by apply H). }
    split; [done|]. intros resubmit rest. simpl. by rewrite Hr.
  - intros decoded Hm Hd filename. subst r u filename.
    unfold makeHTTPRequest. cbv zeta.
    rewrite Hp, Hm, Hd. rewrite bool_decide_true by done.
    rewrite (bool_decide_false ("GET" ≠ "GET")) by (intros H; by apply H).
    split; [|split].
    + by intros ->.
    + intros buffer -> ->. split; [done|]. simpl. by rewrite <- app_assoc.
    + intros error He Hr. split; [by rewrite He, Hr|].
      intros resubmit rest. simpl. unfold makeHTTPRequest. cbv zeta.
      rewrite Hp, Hm, Hd. rewrite bool_decide_true by done.
      rewrite (bool_decide_false ("GET" ≠ "GET")) by (intros H; by apply H).
      by rewrite He, Hr.
  - apply makeHTTPRequest_never_writes.
Qed.

(** *** [handleResponse] *)

Lemma redirectUrl_headers req res hs :
  redirectUrl env req (set_res_headers res hs)
  = (let location := default "" (Headers.get hs "Location") in
     if bool_decide (statusCode res = 301 ∨ statusCode res = 307) &&
        bool_decide (method req = "GET" ∨ method req = "HEAD")
     then resolveHref env (url req) location
     else if bool_decide (statusCode res = 302 ∨ statusCode res = 303)
     then resolveHref env (url req) location
     else "").
Proof. by destruct res. Qed.

Lemma handleResponse_not_http w req res :
  isHTTP (protocol (URL_parse env (url req))) = false →
  handleResponse env b w req res = (w, ResNext (withHeaders res)).
Proof. intros H. unfold handleResponse. cbv zeta. by rewrite H. Qed.

Lemma handleResponse_no_redirect w req res :
  isHTTP (protocol (URL_parse env (url req))) = true →
  redirectUrl env req (withHeaders res) = "" →
  handleResponse env b w req res
  = (withCookies env w req res, ResNext (set_res_redirects (withHeaders res) (redirects req))).
Proof.
  intros H Hr. unfold handleResponse. cbv zeta. rewrite H.
  fold (withHeaders res). rewrite Hr. by rewrite bool_decide_true.
Qed.

Lemma handleResponse_too_many w req res :
  isHTTP (protocol (URL_parse env (url req))) = true →
  redirectUrl env req (withHeaders res) ≠ "" →
  (maxRedirects b < S (redirects req))%nat →
  handleResponse env b w req res
  = (withCookies env w req res, ResFail (tooManyRedirects (maxRedirects b))).
Proof.
  intros H Hr Hm. unfold handleResponse. cbv zeta. rewrite H.
  fold (withHeaders res). rewrite (bool_decide_false _ Hr).
  by rewrite bool_decide_true.
Qed.

Lemma handleResponse_follow w req res :
  isHTTP (protocol (URL_parse env (url req))) = true →
  redirectUrl env req (withHeaders res) ≠ "" →
  (S (redirects req) ≤ maxRedirects b)%nat →
  ∃ redirectRequest res',
    handleResponse env b w req res
    = (emit (withCookies env w req res) (EvRedirect req res' redirectRequest),
       ResResubmit redirectRequest) ∧
    method redirectRequest = "GET" ∧
    url redirectRequest = redirectUrl env req (withHeaders res) ∧
    redirects redirectRequest = S (redirects req) ∧
    req_params redirectRequest = None ∧
    req_body redirectRequest = NoBody.
Proof.
  intros H Hr Hm. unfold handleResponse. cbv zeta. rewrite H.
  fold (withHeaders res). rewrite (bool_decide_false _ Hr).
  rewrite bool_decide_false by lia.
  eexists _, _. split; [reflexivity|]. by destruct res.
Qed.

Lemma redirectUrl_status req res :
  let status := statusCode res in
  let target := resolveHref env (url req) (locationOf res) in
  redirectUrl env req (withHeaders res)
  = if bool_decide (status = 301 ∨ status = 307) &&
       bool_decide (method req = "GET" ∨ method req = "HEAD")
    then target
    else if bool_decide (status = 302 ∨ status = 303) then target else "".
Proof. unfold withHeaders. by rewrite redirectUrl_headers. Qed.

Lemma handleResponse_terminal w req res :
  redirectUrl env req (withHeaders res) = "" →
  terminal (handleResponse env b w req res).2.
Proof.
  intros Hr. destruct (isHTTP (protocol (URL_parse env (url req)))) eqn:H.
  - rewrite handleResponse_no_redirect by done. by eexists.
  - rewrite handleResponse_not_http by done. by eexists.
Qed.

(** C1 (as amended): a response whose status is none of 301, 302, 303,
    307 is terminal, and so is a 301 or 307 to a method other than GET and
    HEAD.  For a request over http(s) below the redirect limit whose
    Location resolves to a URL, a 301 or 307 to GET or HEAD and a 302 or 303
    to any method are followed, and the follow-up request always uses GET
    (so GET is preserved, and HEAD is not). *)
Theorem redirect_eligibility w req res :
  let outcome := (handleResponse env b w req res).2 in
  let status := statusCode res in
  let target := resolveHref env (url req) (locationOf res) in
  (status ≠ 301 → status ≠ 302 → status ≠ 303 → status ≠ 307 → terminal outcome) ∧
  ((status = 301 ∨ status = 307) → method req ≠ "GET" → method req ≠ "HEAD" →
     terminal outcome) ∧
  (isHTTP (protocol (URL_parse env (url req))) = true →
   (redirects req < maxRedirects b)%nat →
   target ≠ "" →
   (((status = 301 ∨ status = 307) ∧ (method req = "GET" ∨ method req = "HEAD")) ∨
    status = 302 ∨ status = 303) →
   ∃ redirectRequest,
     outcome = ResResubmit redirectRequest ∧
     method redirectRequest = "GET" ∧
     url redirectRequest = target ∧
     redirects redirectRequest = S (redirects req)).
Proof.
  intros outcome status target. pose proof (redirectUrl_status req res) as Hu.
  cbv zeta in Hu. fold status target in Hu. split; [|split].
  - intros H1 H2 H3 H4. apply handleResponse_terminal. rewrite Hu.
    rewrite (bool_decide_false (status = 301 ∨ status = 307)) by (intros [?|?]; done).
    by rewrite (bool_decide_false (status = 302 ∨ status = 303)) by (intros [?|?]; done).
  - intros Hs Hg Hh. apply handleResponse_terminal. rewrite Hu.
    rewrite (bool_decide_false (method req = "GET" ∨ method req = "HEAD"))
      by (intros [?|?]; done).
    rewrite andb_false_r.
    rewrite (bool_decide_false (status = 302 ∨ status = 303)); [done|].
    intros [?|?]; destruct Hs; congruence.
  - intros Hp Hm Ht Hcase.
    assert (redirectUrl env req (withHeaders res) = target) as Hr.
    { rewrite Hu. destruct Hcase as [[Hs Hmeth]|Hs].
      - rewrite (bool_decide_true (status = 301 ∨ status = 307)) by done.
        by rewrite (bool_decide_true (method req = "GET" ∨ method req = "HEAD")) by done.
      - rewrite (bool_decide_true (status = 302 ∨ status = 303)) by done.
        by destruct (_ && _). }
    destruct (handleResponse_follow w req res Hp) as (rr & res' & Heq & Hmeth & Hurl & Hred & _).
    { by rewrite Hr. } { lia. }
    exists rr. subst outcome. rewrite Heq. simpl. by rewrite Hurl, Hr.
Qed.

(** *** The default handlers, one by one *)

Lemma normalizeURL_spec w req :
  normalizeURL env b w req = (w, set_url req (normalizedURL env b req), ReqNext).
Proof.
  unfold normalizeURL, normalizedURL. destruct req. simpl.
  repeat case_match; simpl in *; simplify_eq; try done; congruence.
Qed.

Lemma mergeHeaders_spec w req :
  ∃ w' hs,
    mergeHeaders env b w req = (w', set_headers req hs, ReqNext) ∧
    history w' = history w ∧
    emitted w' = emitted w ++ [EvAuthenticate (host (URL_parse env (url req)))].
Proof.
  unfold mergeHeaders. cbv zeta. repeat case_match; eexists _, _; done.
Qed.

Lemma createBody_spec w req :
  ∃ w' req' o,
    createBody env b w req = (w', req', o) ∧
    (o = ReqNext ∨ ∃ e, o = ReqFail e) ∧
    sameTarget req req' ∧ history w' = history w ∧ emitted w' = emitted w.
Proof.
  unfold createBody, sameTarget. cbv zeta. destruct req.
  repeat case_match; eexists _, _, _; (split; [reflexivity|]); simpl; eauto 8.
Qed.

Lemma createBody_other_method w req :
  method req ≠ "POST" → method req ≠ "PUT" → createBody env b w req = (w, req, ReqNext).
Proof. intros H1 H2. unfold createBody. by rewrite bool_decide_true. Qed.

Lemma makeHTTPRequest_spec w req :
  ∃ w' req' o,
    makeHTTPRequest env b w req = (w', req', o) ∧
    sameTarget req req' ∧ history w' = history w ∧ emitted w' = emitted w ∧
    ∀ res, o = ReqRespond res → res_url res = "" ∨ res_url res = url req.
Proof.
  unfold makeHTTPRequest, sameTarget. cbv zeta. destruct req.
  repeat case_match; eexists _, _, _; (split; [reflexivity|]); simpl;
    (split; [done|]); (split; [done|]); (split; [done|]);
    intros res' Hres; simplify_eq; simpl; eauto.
Qed.

Lemma decompressBody_spec w req res :
  ∃ o, decompressBody env b w req res = (w, o) ∧
       ((∃ e, o = ResFail e) ∨
        ∃ res', o = ResNext res' ∧ res_url res' = res_url res ∧
                res_redirects res' = res_redirects res).
Proof.
  unfold decompressBody. cbv zeta. destruct res.
  repeat case_match; eexists; (split; [reflexivity|]); simpl; eauto 8.
Qed.

Lemma decodeBody_spec w req res :
  ∃ o, decodeBody env b w req res = (w, o) ∧
       ((∃ e, o = ResFail e) ∨
        ∃ res', o = ResNext res' ∧ res_url res' = res_url res ∧
                res_redirects res' = res_redirects res).
Proof.
  unfold decodeBody. cbv zeta. destruct res.
  repeat case_match; eexists; (split; [reflexivity|]); simpl; eauto 8.
Qed.

Lemma handlersInOrder_default :
  filter (λ fn, length2 fn) pipeline ++ [Handler2 makeHTTPRequest] ++
    filter (λ fn, length3 fn) pipeline
  = defaultHandlersInOrder.
Proof. reflexivity. Qed.

(** *** Runs of the default pipeline *)

Lemma runPipeline_S fuel w req :
  _runPipeline env b pipeline (S fuel) w req
  = nextRequestHandler env b (reenter env b pipeline fuel) w req defaultHandlersInOrder.
Proof. reflexivity. Qed.

Lemma finalURL_finalOr req evs :
  finalURL env b req evs = finalOr env b (normalizedURL env b req) evs.
Proof. unfold finalURL, finalOr. by destruct (last _). Qed.

Lemma redirectRequests_app evs1 evs2 :
  redirectRequests (evs1 ++ evs2) = redirectRequests evs1 ++ redirectRequests evs2.
Proof. unfold redirectRequests. apply omap_app. Qed.

Lemma finalOr_redirect u req res rr evs :
  finalOr env b u (EvRedirect req res rr :: evs) = finalOr env b (normalizedURL env b rr) evs.
Proof.
  unfold finalOr. simpl. fold (redirectRequests evs).
  rewrite last_cons. by destruct (last (redirectRequests evs)).
Qed.

Lemma chainInv_refl w u n r :
  (∀ res, r ≠ Done (inr res)) → chainInv env b w u n w r.
Proof.
  intros Hr. split; [done|]. exists []. split; [by rewrite app_nil_r|].
  intros res ->. by destruct (Hr res).
Qed.

Lemma nextRequestHandler_cons resubmit w req handler rest :
  nextRequestHandler env b resubmit w req (Handler2 handler :: rest)
  = match handler env b w req with
    | (w, req, ReqFail error) => (w, req, Done (inl error))
    | (w, req, ReqRespond res) =>
        let res := set_res_url res (if bool_decide (res_url res = "") then url req
                                    else res_url res) in
        let '(w, r) := nextResponseHandler env b resubmit w req res
                         (responseHandlersOf (Handler2 handler :: rest)) in
        (w, req, r)
    | (w, req, ReqNext) => nextRequestHandler env b resubmit w req rest
    | (w, req, ReqStall) => (w, req, Stalled)
    end.
Proof. reflexivity. Qed.

Lemma chainInv_prefix w w1 pre u n w' r :
  history w1 = history w → emitted w1 = emitted w ++ pre → redirectRequests pre = [] →
  chainInv env b w1 u n w' r → chainInv env b w u n w' r.
Proof.
  intros Hh He Hpre (Hh' & evs & He' & Hres). split; [congruence|].
  exists (pre ++ evs). split; [by rewrite He', He, <- app_assoc|].
  unfold finalOr, countRedirects in *. by rewrite redirectRequests_app, Hpre.
Qed.

(** *** Runs of a pipeline with added handlers *)

Lemma finalOr_app_quiet u evs evs' :
  redirectRequests evs' = [] →
  finalOr env b u (evs ++ evs') = finalOr env b u evs ∧
  countRedirects (evs ++ evs') = countRedirects evs.
Proof.
  intros H. unfold finalOr, countRedirects.
  by rewrite redirectRequests_app, H, app_nil_r.
Qed.

Lemma filter_length2 hs :
  filter (λ fn, length2 fn) hs = Handler2 <$> requestHandlersOf hs.
Proof.
  induction hs as [|[f|f] hs IH]; [done| |].
  - rewrite filter_cons_True by exact I. simpl. by rewrite IH.
  - rewrite filter_cons_False by (intros []). done.
Qed.

Lemma filter_length3 hs :
  filter (λ fn, length3 fn) hs = Handler3 <$> responseHandlersOf hs.
Proof.
  induction hs as [|[f|f] hs IH]; [done| |].
  - rewrite filter_cons_False by (intros []). done.
  - rewrite filter_cons_True by exact I. simpl. by rewrite IH.
Qed.

Lemma responseHandlersOf_requests L hs :
  responseHandlersOf ((Handler2 <$> L) ++ hs) = responseHandlersOf hs.
Proof. induction L as [|f L IH]; [done|]. simpl. exact IH. Qed.

Lemma responseHandlersOf_responses R : responseHandlersOf (Handler3 <$> R) = R.
Proof. induction R as [|f R IH]; [done|]. simpl. by rewrite <- IH at 2. Qed.

Lemma quiet_split added :
  Forall (quietHandler env b) added →
  Forall (quietRequestHandler env b) (requestHandlersOf added) ∧
  Forall (quietResponseHandler env b) (responseHandlersOf added).
Proof.
  induction 1 as [|[f|f] hs Hq _ [IH2 IH3]]; [done| |]; simpl; split; try done;
    by constructor.
Qed.

Lemma mergeHeaders_quiet : quietRequestHandler env b mergeHeaders.
Proof.
  intros w req w' req' o H.
  destruct (mergeHeaders_spec w req) as (w2 & hs & Hm & Hh & He).
  rewrite Hm in H. injection H as <- <- <-.
  split; [done|]. split; [by eexists|]. by destruct req.
Qed.

Lemma createBody_quiet : quietRequestHandler env b createBody.
Proof.
  intros w req w' req' o H.
  destruct (createBody_spec w req) as (w2 & req2 & o2 & Hc & Ho & (Hu & _ & Hr) & Hh & He).
  rewrite Hc in H. injection H as <- <- <-.
  split; [done|]. split; [exists []; by rewrite app_nil_r|]. split; [done|]. split; [done|].
  intros res ->. by destruct Ho as [?|[? ?]].
Qed.

Lemma makeHTTPRequest_quiet : quietRequestHandler env b makeHTTPRequest.
Proof.
  intros w req w' req' o H.
  destruct (makeHTTPRequest_spec w req)
    as (w2 & req2 & o2 & Hc & (Hu & _ & Hr) & Hh & He & Hres).
  rewrite Hc in H. injection H as <- <- <-.
  split; [done|]. split; [exists []; by rewrite app_nil_r|]. done.
Qed.

Lemma decompressBody_quiet : quietResponseHandler env b decompressBody.
Proof.
  intros w req res w' o H.
  destruct (decompressBody_spec w req res) as (o1 & H1 & Hcase).
  rewrite H1 in H. injection H as <- <-.
  split; [done|]. split; [exists []; by rewrite app_nil_r|].
  destruct Hcase as [[e ->]|(res1 & -> & ? & ?)]; split; try done; by intros ? [= <-].
Qed.

Lemma decodeBody_quiet : quietResponseHandler env b decodeBody.
Proof.
  intros w req res w' o H.
  destruct (decodeBody_spec w req res) as (o1 & H1 & Hcase).
  rewrite H1 in H. injection H as <- <-.
  split; [done|]. split; [exists []; by rewrite app_nil_r|].
  destruct Hcase as [[e ->]|(res1 & -> & ? & ?)]; split; try done; by intros ? [= <-].
Qed.

(** Response handlers that keep to themselves hand on the URL and the
    redirect count of the response, and never re-enter the pipeline. *)
Lemma quiet_response_handlers resubmit hs :
  Forall (quietResponseHandler env b) hs →
  ∀ w req res w' r,
    nextResponseHandler env b resubmit w req res hs = (w', r) →
    history w' = history w ∧
    (∃ evs, emitted w' = emitted w ++ evs ∧ redirectRequests evs = []) ∧
    r ≠ OutOfFuel ∧
    ∀ res', r = Done (inr res') →
      res_url res' = res_url res ∧ res_redirects res' = res_redirects res.
Proof.
  induction 1 as [|h hs Hq _ IH]; intros w req res w' r Hrun.
  { injection Hrun as <- <-. split; [done|]. split; [exists []; by rewrite app_nil_r|].
    split; [done|]. by intros ? [= <-]. }
  simpl in Hrun. destruct (h env b w req res) as [w1 o] eqn:Hh.
  destruct (Hq _ _ _ _ _ Hh) as (Hh1 & (evs1 & He1 & Hq1) & Hno & Hnext).
  destruct o as [res1|e|rr|].
  - destruct (IH _ _ _ _ _ Hrun) as (Hh2 & (evs2 & He2 & Hq2) & Hf & Hres).
    destruct (Hnext res1 eq_refl) as [Hu Hr].
    split; [congruence|]. split.
    { exists (evs1 ++ evs2). split; [by rewrite He2, He1, <- app_assoc|].
      by rewrite redirectRequests_app, Hq1, Hq2. }
    split; [done|]. intros res' Hr'. destruct (Hres res' Hr'). split; congruence.
  - injection Hrun as <- <-. split; [done|]. split; [by exists evs1|]. done.
  - by destruct (Hno rr).
  - injection Hrun as <- <-. split; [done|]. split; [by exists evs1|]. done.
Qed.

Lemma chainInv_suffix w u n w1 r w' post :
  chainInv env b w u n w1 r →
  history w' = history w1 → emitted w' = emitted w1 ++ post → redirectRequests post = [] →
  chainInv env b w u n w' r.
Proof.
  intros (Hh & evs & He & Hres) Hh' He' Hpost. split; [congruence|].
  exists (evs ++ post). split; [by rewrite He', He, <- app_assoc|].
  intros res Hr. destruct (finalOr_app_quiet u evs post Hpost) as [-> ->]. by apply Hres.
Qed.

(** The response stage of a pipeline whose response handlers are
    [handleResponse] and then handlers that keep to themselves. *)
Lemma response_stage_added (enough : Prop) resubmit rest w req res u :
  (∀ w1 rr w2 r2, resubmit w1 rr = (w2, r2) →
     chainInv env b w1 (normalizedURL env b rr) (redirects rr) w2 r2 ∧
     (enough → redirects rr = S (redirects req) → (S (redirects req) ≤ maxRedirects b)%nat →
      r2 ≠ OutOfFuel)) →
  Forall (quietResponseHandler env b) rest →
  url req = u → res_url res = u →
  ∀ w' r,
    nextResponseHandler env b resubmit w req res (handleResponse :: rest) = (w', r) →
    chainInv env b w u (redirects req) w' r ∧ (enough → r ≠ OutOfFuel).
Proof.
  intros Hre Hrest Hu Hres w' r Hrun.
  change (nextResponseHandler env b resubmit w req res (handleResponse :: rest))
    with (match handleResponse env b w req res with
          | (w, ResFail error) => (w, Done (inl error))
          | (w, ResNext newResponse) =>
              nextResponseHandler env b resubmit w req newResponse rest
          | (w, ResResubmit redirectRequest) =>
              match resubmit w redirectRequest with
              | (w, Done (inl error)) => (w, Done (inl error))
              | (w, Done (inr newResponse)) =>
                  nextResponseHandler env b resubmit w req newResponse rest
              | (w, Stalled) => (w, Stalled)
              | (w, OutOfFuel) => (w, OutOfFuel)
              end
          | (w, ResStall) => (w, Stalled)
          end) in Hrun.
  destruct (isHTTP (protocol (URL_parse env (url req)))) eqn:Hhttp.
  2:{ (* not http: the response passes through *)
      rewrite handleResponse_not_http in Hrun by done.
      destruct (quiet_response_handlers resubmit rest Hrest _ _ _ _ _ Hrun)
        as (Hh & (evs & He & Hq) & Hf & Hcase).
      split; [|done]. split; [done|]. exists evs. split; [done|].
      intros res' ->. destruct (Hcase res' eq_refl) as [Hu1 Hr1].
      unfold finalOr. rewrite Hq. simpl.
      assert (res_url res' = u) as Hurl by (rewrite Hu1; by destruct res).
      split; [done|]. rewrite Hurl, <- Hu, Hhttp. done. }
  destruct (decide (redirectUrl env req (withHeaders res) = "")) as [Hno|Hyes].
  { (* no redirect: the count is recorded *)
    rewrite handleResponse_no_redirect in Hrun by done.
    destruct (quiet_response_handlers resubmit rest Hrest _ _ _ _ _ Hrun)
      as (Hh & (evs & He & Hq) & Hf & Hcase).
    split; [|done]. split; [done|]. exists evs. split; [done|].
    intros res' ->. destruct (Hcase res' eq_refl) as [Hu1 Hr1].
    unfold finalOr, countRedirects. rewrite Hq. simpl.
    split; [rewrite Hu1; by destruct res|].
    intros _. rewrite Hr1. simpl. by rewrite Nat.add_0_r. }
  destruct (decide (maxRedirects b < S (redirects req))%nat) as [Hmax|Hmax].
  { rewrite handleResponse_too_many in Hrun by done.
    injection Hrun as <- <-. split; [|done].
    split; [done|]. exists []. split; [by rewrite app_nil_r|]. done. }
  destruct (handleResponse_follow w req res Hhttp Hyes) as
    (rr & res'' & Heq & Hmeth & Hurl & Hred & _); [lia|].
  rewrite Heq in Hrun.
  destruct (resubmit _ rr) as [w2 r2] eqn:Hsub.
  destruct (Hre _ _ _ _ Hsub) as ((Hhist & evs & Hev & Hres2) & Hfuel).
  assert (history w2 = history w) as Hhist' by by rewrite Hhist.
  assert (emitted w2 = emitted w ++ EvRedirect req res'' rr :: evs) as Hev'.
  { rewrite Hev. simpl. by rewrite <- app_assoc. }
  destruct r2 as [[e|newResponse]| |].
  - injection Hrun as <- <-. split; [|done].
    split; [done|]. eexists. split; [exact Hev'|]. done.
  - destruct (quiet_response_handlers resubmit rest Hrest _ _ _ _ _ Hrun)
      as (Hh & (evs' & He & Hq) & Hf & Hcase).
    split; [|done].
    apply (chainInv_suffix w u (redirects req) w2 r w' evs'); [|done|done|done].
    split; [done|]. eexists. split; [exact Hev'|].
    intros res' ->. destruct (Hcase res' eq_refl) as [Hu1 Hr1].
    destruct (Hres2 newResponse eq_refl) as [Hfin Hcount].
    rewrite finalOr_redirect by done. split; [congruence|].
    intros Hh'. rewrite Hr1, Hcount by (by rewrite <- Hu1).
    rewrite Hred. unfold countRedirects. simpl. lia.
  - injection Hrun as <- <-. split; [|done].
    split; [done|]. eexists. split; [exact Hev'|]. done.
  - injection Hrun as <- <-. split.
    + split; [done|]. eexists. split; [exact Hev'|]. done.
    + intros He. apply Hfuel; [done|done|lia].
Qed.

(** The request stage: request handlers that keep to themselves, then the
    response stage. *)
Lemma request_stage_added (enough : Prop) resubmit L R u n :
  Forall (quietRequestHandler env b) L →
  Forall (quietResponseHandler env b) R →
  (∀ w1 rr w2 r2, resubmit w1 rr = (w2, r2) →
     chainInv env b w1 (normalizedURL env b rr) (redirects rr) w2 r2 ∧
     (enough → redirects rr = S n → (S n ≤ maxRedirects b)%nat → r2 ≠ OutOfFuel)) →
  ∀ w req w' req' r,
    url req = u → redirects req = n →
    nextRequestHandler env b resubmit w req
      ((Handler2 <$> L) ++ Handler3 handleResponse :: (Handler3 <$> R)) = (w', req', r) →
    chainInv env b w u n w' r ∧ (enough → r ≠ OutOfFuel).
Proof.
  intros HL HR Hre. induction HL as [|h L Hq _ IH]; intros w req w' req' r Hu Hn Hrun.
  { injection Hrun as <- <- <-. split; [|done]. by apply chainInv_refl. }
  rewrite fmap_cons, <- app_comm_cons, nextRequestHandler_cons in Hrun.
  destruct (h env b w req) as [[w1 req1] o] eqn:Hh.
  destruct (Hq _ _ _ _ _ Hh) as (Hh1 & (evs1 & He1 & Hq1) & Hu1 & Hr1 & Hres1).
  destruct o as [|res|e|]; cbv beta iota zeta in Hrun.
  - destruct (IH w1 req1 w' req' r) as [Hinv Hf]; [congruence|congruence|exact Hrun|].
    split; [|done]. by apply (chainInv_prefix w w1 evs1).
  - rewrite app_comm_cons, (responseHandlersOf_requests (h :: L)) in Hrun.
    change (responseHandlersOf (Handler3 handleResponse :: (Handler3 <$> R)))
      with (handleResponse :: responseHandlersOf (Handler3 <$> R)) in Hrun.
    rewrite responseHandlersOf_responses in Hrun.
    destruct (nextResponseHandler _ _ _ _ _ _ _) as [w5 r5] eqn:Hresp.
    injection Hrun as <- <- <-.
    destruct (response_stage_added enough resubmit R w1 req1
                (set_res_url res (if bool_decide (res_url res = "") then url req1
                                  else res_url res)) u) with (w' := w5) (r := r5)
      as [Hinv Hf]; [by rewrite Hr1, Hn|done|congruence| |exact Hresp|].
    { destruct (Hres1 res eq_refl) as [Hz|Hz]; destruct res; simpl in *.
      - subst. by rewrite bool_decide_true.
      - case_bool_decide; congruence. }
    split; [|done]. apply (chainInv_prefix w w1 evs1); [done|done|done|].
    by rewrite <- Hn, <- Hr1.
  - injection Hrun as <- <- <-. split; [|done].
    apply (chainInv_prefix w w1 evs1); [done|done|done|]. by apply chainInv_refl.
  - injection Hrun as <- <- <-. split; [|done].
    apply (chainInv_prefix w w1 evs1); [done|done|done|]. by apply chainInv_refl.
Qed.

Lemma addHandlers_app added : fold_left addHandler added pipeline = pipeline ++ added.
Proof.
  generalize pipeline. induction added as [|h hs IH]; intros p; [by rewrite app_nil_r|].
  simpl. rewrite IH. unfold addHandler. by rewrite <- app_assoc.
Qed.

(** The handlers of the default pipeline with handlers added, in the
    order they run. *)
Lemma runPipeline_added_S added fuel w req :
  _runPipeline env b (pipeline ++ added) (S fuel) w req
  = nextRequestHandler env b (reenter env b (pipeline ++ added) fuel) w req
      (Handler2 normalizeURL ::
       (Handler2 <$> ([mergeHeaders; createBody] ++ requestHandlersOf added ++ [makeHTTPRequest]))
       ++ Handler3 handleResponse ::
          (Handler3 <$> ([decompressBody; decodeBody] ++ responseHandlersOf added))).
Proof.
  cbn [_runPipeline]. unfold runPipelineBody. cbv zeta.
  rewrite !filter_app, !filter_length2, !filter_length3.
  rewrite !fmap_app, <- !app_assoc. reflexivity.
Qed.

(** The invariant of a run of the default pipeline with handlers added
    that keep to themselves, and its use of fuel: the pipeline is re-entered
    at most [maxRedirects] times. *)
Lemma runPipeline_added_inv added :
  Forall (quietHandler env b) added →
  ∀ fuel w req w' req' r,
    _runPipeline env b (pipeline ++ added) fuel w req = (w', req', r) →
    chainInv env b w (normalizedURL env b req) (redirects req) w' r ∧
    ((0 < fuel)%nat → (maxRedirects b < fuel + redirects req)%nat → r ≠ OutOfFuel).
Proof.
  intros Hadded. destruct (quiet_split added Hadded) as [Hq2 Hq3].
  induction fuel as [|fuel IH]; intros w req w' req' r Hrun.
  { injection Hrun as <- <- <-. split; [by apply chainInv_refl|lia]. }
  rewrite runPipeline_added_S, nextRequestHandler_cons, normalizeURL_spec in Hrun.
  cbv beta iota in Hrun.
  set (req1 := set_url req (normalizedURL env b req)) in *.
  assert (url req1 = normalizedURL env b req ∧ redirects req1 = redirects req) as [Hu1 Hr1]
    by by destruct req.
  destruct (request_stage_added (maxRedirects b < S fuel + redirects req)%nat
              (reenter env b (pipeline ++ added) fuel)
              ([mergeHeaders; createBody] ++ requestHandlersOf added ++ [makeHTTPRequest])
              ([decompressBody; decodeBody] ++ responseHandlersOf added)
              (normalizedURL env b req) (redirects req))
    with (w := w) (req := req1) (w' := w') (req' := req') (r := r) as [Hinv Hf];
    [| | |done|done|exact Hrun|].
  - repeat (apply Forall_cons; split); [apply mergeHeaders_quiet|apply createBody_quiet|].
    apply Forall_app. split; [done|]. apply Forall_singleton, makeHTTPRequest_quiet.
  - repeat (apply Forall_cons; split); [apply decompressBody_quiet|apply decodeBody_quiet|done].
  - intros w1 rr w2 r2. unfold reenter.
    destruct (_runPipeline env b (pipeline ++ added) fuel w1 rr) as [[w2' rr'] r2'] eqn:Hsub.
    intros [= <- <-]. destruct (IH _ _ _ _ _ Hsub) as [Hinv Hf].
    split; [done|]. intros He Hrr Hle. apply Hf; lia.
  - split; [done|]. intros _ He. by apply Hf.
Qed.

(** The invariant of a run of the default pipeline, whatever the
    environment answers and however much fuel it is given. *)
Lemma runPipeline_inv fuel w req w' req' r :
  _runPipeline env b pipeline fuel w req = (w', req', r) →
  chainInv env b w (normalizedURL env b req) (redirects req) w' r.
Proof.
  intros Hrun. rewrite <- (app_nil_r pipeline) in Hrun.
  by destruct (runPipeline_added_inv [] (Forall_nil_2 _) _ _ _ _ _ _ Hrun).
Qed.

(** *** [request] *)

Lemma request_start_spec w method url options :
  let started := request_start env b w method url options in
  history started.1 = history w ++ [Resource started.2 (o_target options) None None] ∧
  emitted started.1 = emitted w ++ [EvRequest started.2] ∧
  redirects started.2 = 0.
Proof. by destruct w. Qed.

Lemma insert_last {A} (l : list A) (x y : A) : <[length l := y]> (l ++ [x]) = l ++ [y].
Proof. rewrite insert_app_r_alt by lia. by rewrite Nat.sub_diag. Qed.

Lemma lookup_last {A} (l : list A) (x : A) : (l ++ [x]) !! length l = Some x.
Proof. by rewrite list_lookup_middle. Qed.

Lemma syncRequest_spec w1 hw rec req' :
  history w1 = hw ++ [rec] →
  history (syncRequest w1 (length hw) req')
  = hw ++ [Resource req' (r_target rec) (r_error rec) (r_response rec)] ∧
  emitted (syncRequest w1 (length hw) req') = emitted w1.
Proof.
  intros Hh. unfold syncRequest. rewrite Hh, lookup_last. destruct w1; simpl in *.
  by rewrite insert_last.
Qed.

Lemma request_callback_spec w1 hw rec req' outcome :
  history w1 = hw ++ [rec] →
  let done := request_callback env w1 (length hw) req' outcome in
  ∃ rec' evs,
    history done.1 = hw ++ [rec'] ∧ r_target rec' = r_target rec ∧
    r_request rec' = r_request rec ∧
    emitted done.1 = emitted w1 ++ evs ∧ redirectRequests evs = [] ∧
    (∀ e, done.2 = inl e → outcome = inl e ∧ r_error rec' = Some e ∧
                            r_response rec' = r_response rec) ∧
    (∀ res, done.2 = inr res →
       r_response rec' = Some res ∧ r_error rec' = r_error rec ∧
       ∃ res0, outcome = inr res0 ∧ res_url res = res_url res0 ∧
               res_redirects res = res_redirects res0).
Proof.
  intros Hh. destruct w1 as [h0 cu em lg fo tk]. simpl in Hh. subst h0.
  unfold request_callback. cbn [history]. rewrite lookup_last.
  destruct outcome as [e|res]; cbv zeta.
  - exists (Resource (r_request rec) (r_target rec) (Some e) (r_response rec)), [].
    simpl. rewrite insert_last, app_nil_r.
    split; [reflexivity|]. split; [done|]. split; [done|]. split; [reflexivity|].
    split; [done|]. split; [|done].
    by intros e' [= <-].
  - eexists (Resource (r_request rec) (r_target rec) (r_error rec) (Some _)), [_].
    simpl. rewrite insert_last.
    split; [reflexivity|]. split; [done|]. split; [done|]. split; [reflexivity|].
    split; [done|]. split; [done|].
    intros res' [= <-]. split; [done|]. split; [done|].
    eexists. split; [reflexivity|done].
Qed.

(** C2 (as amended): [request] appends exactly one record to the history,
    at call time, with neither response nor error; the run of the pipeline,
    re-entries on redirects included, appends none, so that afterwards the
    history is still the former one plus that record.  When the fetch ends
    with a response, the record holds it; the response carries the URL of
    the last request of the redirect chain, and, when that URL is http(s),
    its redirect count is the number of redirects followed.  This holds of
    the default pipeline and of the default pipeline with handlers added,
    such as a mock that answers with a redirect, as long as these keep to
    themselves: they leave the history alone and do not rewrite the URL or
    the redirect count.  A run re-enters the pipeline at most [maxRedirects]
    times: given more fuel than that, it does not run out. *)
Theorem request_single_record added fuel w method url options :
  Forall (quietHandler env b) added →
  let p := fold_left addHandler added pipeline in
  let started := request_start env b w method url options in
  let finished := request env b p fuel w method url options in
  history started.1 = history w ++ [Resource started.2 (o_target options) None None] ∧
  ((maxRedirects b < fuel)%nat → finished.2 ≠ OutOfFuel) ∧
  ∃ record evs,
    history finished.1 = history w ++ [record] ∧
    r_target record = o_target options ∧
    emitted finished.1 = emitted started.1 ++ evs ∧
    (∀ e, finished.2 = Done (inl e) → r_error record = Some e ∧ r_response record = None) ∧
    (∀ res, finished.2 = Done (inr res) →
       r_response record = Some res ∧ r_error record = None ∧
       res_url res = finalURL env b started.2 evs ∧
       (isHTTP (protocol (URL_parse env (res_url res))) = true →
        res_redirects res = countRedirects evs)).
Proof.
  intros Hadded p started finished.
  destruct (request_start_spec w method url options) as (Hh0 & He0 & Hr0).
  fold started in Hh0, He0, Hr0. split; [done|].
  subst finished p. rewrite addHandlers_app. unfold request. fold started.
  destruct started as [w0 req0]. simpl in Hh0, He0, Hr0. cbv beta iota.
  destruct (_runPipeline env b (pipeline ++ added) fuel w0 req0) as [[w1 req'] r] eqn:Hrun.
  destruct (runPipeline_added_inv added Hadded _ _ _ _ _ _ Hrun)
    as ((Hh1 & evs & He1 & Hres) & Hfuel).
  rewrite Hr0, Nat.add_0_r in Hfuel.
  split.
  { intros Hlt. destruct r as [outcome| |]; simpl in *; [|done|apply Hfuel; lia].
    by destruct (request_callback env _ _ req' outcome). }
  clear Hfuel.
  rewrite Hh0 in Hh1.
  destruct (syncRequest_spec w1 (history w) _ req' Hh1) as [Hsh Hse]. simpl in Hsh.
  destruct r as [outcome| |]; simpl.
  - destruct (request_callback_spec _ (history w) _ req' outcome Hsh)
      as (rec' & evs' & Hh2 & Ht2 & _ & He2 & Hq & Herr & Hok).
    destruct (request_callback env _ _ req' outcome) as [w2 r2]. simpl in *.
    destruct (finalOr_app_quiet (normalizedURL env b req0) evs evs' Hq) as [Hf Hc].
    exists rec', (evs ++ evs'). split; [done|]. split; [done|].
    split; [by rewrite He2, Hse, He1, <- app_assoc|]. split.
    + intros e [= ->]. by destruct (Herr e eq_refl) as (_ & ? & ?).
    + intros res [= ->]. destruct (Hok res eq_refl) as (? & ? & res0 & -> & Hu & Hn).
      destruct (Hres res0 eq_refl) as [Hurl Hcount].
      split; [done|]. split; [done|].
      rewrite finalURL_finalOr, Hf, Hc, Hu, Hn. split; [done|].
      intros Hhttp. rewrite Hcount by done. by rewrite Hr0.
  - eexists _, evs. split; [exact Hsh|]. split; [done|].
    split; [by rewrite Hse|]. done.
  - eexists _, evs. split; [exact Hsh|]. split; [done|].
    split; [by rewrite Hse|]. done.
Qed.

(** *** Redirect chains *)




End ResourcesFacts.

(** The theorem at a GET answered with a 301 and a POST answered with a
    303: both are followed with GET. *)
Lemma redirect_eligibility_witness :
  (∃ r, (Resources.handleResponse Sample.env (Sample.browser 5) Sample.world
           (Sample.req "GET" "http://example.test/moved") (Sample.redirectTo 301 "/b")).2
        = Resources.ResResubmit r ∧ Resources.method r = "GET" ∧
        Resources.url r = "http://example.test/b" ∧ Resources.redirects r = 1) ∧
  (∃ r, (Resources.handleResponse Sample.env (Sample.browser 5) Sample.world
           (Sample.req "POST" "http://example.test/form") (Sample.redirectTo 303 "/b")).2
        = Resources.ResResubmit r ∧ Resources.method r = "GET" ∧
        Resources.url r = "http://example.test/b" ∧ Resources.redirects r = 1).
Proof.
  split.
  - apply (redirect_eligibility Sample.env (Sample.browser 5) Sample.world
             (Sample.req "GET" "http://example.test/moved") (Sample.redirectTo 301 "/b"));
      [reflexivity|simpl; lia|discriminate|left; split; [by left|by left]].
  - apply (redirect_eligibility Sample.env (Sample.browser 5) Sample.world
             (Sample.req "POST" "http://example.test/form") (Sample.redirectTo 303 "/b"));
      [reflexivity|simpl; lia|discriminate|right; by right].
Defined.

(** C1 as first stated does not hold: a HEAD request answered with a 301
    is followed, but with GET: the method is not preserved. *)
Lemma redirect_of_head_uses_get :
  ∃ r, (Resources.handleResponse Sample.env (Sample.browser 5) Sample.world
          (Sample.req "HEAD" "http://example.test/moved") (Sample.redirectTo 301 "/b")).2
       = Resources.ResResubmit r ∧
       Resources.method r = "GET" ∧
       Resources.method r ≠ Resources.method (Sample.req "HEAD" "http://example.test/moved").
Proof. eexists. split; [reflexivity|]. split; [reflexivity|discriminate]. Qed.

(** The theorem at the five kinds of [file:] requests. *)
Lemma file_transport_witness :
  let run method url :=
    Resources.makeHTTPRequest Sample.env (Sample.browser 5) Sample.world (Sample.req method url) in
  (run "POST" "file:///srv/index.html").2
  = Resources.ReqRespond (Resources.Response "" 405 "" [] Resources.NoBody 0 0) ∧
  (run "GET" "file:///srv/100%").2 = Resources.ReqFail (Resources.URIError "URI malformed") ∧
  (run "GET" "file:///srv/missing.txt").2
  = Resources.ReqRespond (Resources.Response "" 404 "" [] Resources.NoBody 0 0) ∧
  (run "GET" "file:///srv/index%2Ehtml").2
  = Resources.ReqRespond (Resources.Response "" 0 "" [] (Resources.Buffer "<html></html>") 0 0) ∧
  (run "GET" "file:///srv/locked").2
  = Resources.ReqFail (Resources.SystemError "EACCES" "permission denied").
Proof.
  intros run.
  pose proof (λ method url, file_transport Sample.env (Sample.browser 5) Sample.world
                              (Sample.req method url)) as H.
  split; [|split; [|split; [|split]]].
  - destruct (H "POST" "file:///srv/index.html" eq_refl) as (H405 & _).
    unfold run. by rewrite H405.
  - destruct (H "GET" "file:///srv/100%" eq_refl) as (_ & Hbad & _).
    destruct (Hbad eq_refl eq_refl) as [Heq _].
    unfold run. by rewrite Heq.
  - destruct (H "GET" "file:///srv/missing.txt" eq_refl) as (_ & _ & Hget & _).
    destruct (Hget "/srv/missing.txt" eq_refl eq_refl) as ([H404 _] & _).
    { reflexivity. }
    unfold run. by rewrite H404.
  - destruct (H "GET" "file:///srv/index%2Ehtml" eq_refl) as (_ & _ & Hget & _).
    destruct (Hget "/srv/index.html" eq_refl eq_refl) as (_ & Hread & _).
    destruct (Hread "<html></html>" eq_refl eq_refl) as [Heq _].
    unfold run. by rewrite Heq.
  - destruct (H "GET" "file:///srv/locked" eq_refl) as (_ & _ & Hget & _).
    destruct (Hget "/srv/locked" eq_refl eq_refl) as (_ & _ & Hfail).
    destruct (Hfail (Resources.SystemError "EACCES" "permission denied") eq_refl eq_refl)
      as [Heq _].
    unfold run. by rewrite Heq.
Defined.

(** C8 as first stated does not hold: a GET of a [file:] URL whose path
    ends in a lone [%] is answered with neither a 404 nor the bytes of a
    file: the transport fails with the URI error without asking the file
    system, and the fetch ends with that error. *)
Lemma malformed_file_path_fails :
  let r := Resources.makeHTTPRequest Sample.env (Sample.browser 5) Sample.world
             (Sample.req "GET" "file:///srv/100%") in
  let finished :=
    Resources.request Sample.env (Sample.browser 5) Resources.pipeline 10 Sample.world
      "get" "file:///srv/100%" Resources.noOptions in
  Resources.protocol (Sample.parse "file:///srv/100%") = "file:" ∧
  r.2 = Resources.ReqFail (Resources.URIError "URI malformed") ∧
  (∀ res, r.2 ≠ Resources.ReqRespond res) ∧
  Resources.fsOps r.1.1 = [] ∧
  finished.2 = Resources.Done (inl (Resources.URIError "URI malformed")) ∧
  Resources.fsOps finished.1 = [].
Proof. by vm_compute. Qed.

(** The sample mock keeps to itself. *)
Lemma mock_quiet env b : Resources.quietRequestHandler env b Sample.mock.
Proof.
  intros w req w' req' o. unfold Sample.mock.
  case_bool_decide; intros [= <- <- <-];
    (split; [done|]); (split; [exists []; by rewrite app_nil_r|]);
    (split; [done|]); (split; [done|]); intros res [= <-]; by left.
Qed.

(** The theorem at the pipeline with the sample mock added and a fetch of
    [/a], which the mock answers with a 302 to [/b]: one record, the URL of
    [/b], one redirect. *)
Lemma request_single_record_witness :
  let finished :=
    Resources.request Sample.env (Sample.browser 5)
      (Resources.addHandler Resources.pipeline (Resources.Handler2 Sample.mock))
      10 Sample.world "get" "http://example.test/a" Resources.noOptions in
  ∃ record res,
    Resources.history finished.1 = [record] ∧
    Resources.r_response record = Some res ∧
    Resources.res_url res = "http://example.test/b" ∧
    Resources.res_redirects res = 1.
Proof.
  intros finished.
  destruct (request_single_record Sample.env (Sample.browser 5)
              [Resources.Handler2 Sample.mock] 10 Sample.world
              "get" "http://example.test/a" Resources.noOptions)
    as (_ & _ & record & evs & Hh & _ & _ & _ & Hok).
  { apply Forall_singleton. apply mock_quiet. }
  change (Resources.request _ _ _ _ _ _ _ _) with finished in Hh, Hok.
  destruct finished.2 as [[e|res]| |] eqn:Hf; try (vm_compute in Hf; discriminate Hf).
  destruct (Hok res eq_refl) as (Hres & _ & _ & _).
  exists record, res. split; [exact Hh|]. split; [exact Hres|].
  vm_compute in Hf. injection Hf as <-. by split.
Defined.

(** The end-to-end example with a mock: a request handler answers [/a]
    with a 302 to [/b]; the response has the URL of [/b], one redirect, and
    the history holds one record. *)
Example mock_redirect_once :
  let finished :=
    Resources.request Sample.env (Sample.browser 5)
      (Resources.addHandler Resources.pipeline (Resources.Handler2 Sample.mock))
      10 Sample.world "get" "http://example.test/a" Resources.noOptions in
  (∃ res, finished.2 = Resources.Done (inr res) ∧
          Resources.res_url res = "http://example.test/b" ∧
          Resources.res_redirects res = 1) ∧
  length (Resources.history finished.1) = 1.
Proof. split; [eexists; split; [vm_compute; reflexivity|done]|done]. Qed.

(** Why added handlers are asked to keep to themselves: with a response
    handler added that rewrites the redirect count, a fetch that follows no
    redirect ends with a count of 7. *)
Example rewriting_handler_changes_count :
  let finished :=
    Resources.request Sample.env (Sample.browser 5)
      (Resources.addHandler Resources.pipeline (Resources.Handler3 Sample.renumber))
      10 Sample.world "get" "http://example.test/b" Resources.noOptions in
  (∃ res, finished.2 = Resources.Done (inr res) ∧ Resources.res_redirects res = 7) ∧
  Resources.countRedirects (Resources.emitted finished.1) = 0.
Proof. split; [eexists; split; [vm_compute; reflexivity|done]|done]. Qed.

(** C2 as first stated does not hold: a fetch of [/local], which the
    sample server redirects once to a [file:] URL, ends with a response
    whose redirect count is 0 although one redirect was followed. *)
Lemma redirect_to_file_loses_count :
  let finished :=
    Resources.request Sample.env (Sample.browser 5) Resources.pipeline 10 Sample.world
      "get" "http://example.test/local" Resources.noOptions in
  ∃ res,
    finished.2 = Resources.Done (inr res) ∧
    Resources.res_url res = "file:///srv/missing.txt" ∧
    Resources.countRedirects (Resources.newEvents Sample.world finished.1) = 1 ∧
    Resources.res_redirects res = 0.
Proof. eexists. split; [vm_compute; reflexivity|]. by vm_compute. Qed.

(** * Further properties of the code *)

(** ** Lists of named entries *)

Section EntryLists.
Context {A : Type}.
Implicit Types (f : list (string * A)) (k n m : string).

Lemma entries_find_delete k f :
  List.find (λ x : string * A, bool_decide (x.1 = k)) (filter (λ x : string * A, x.1 ≠ k) f)
  = None.
Proof.
  induction f as [|x f IH]; [done|].
  destruct (decide (x.1 = k)) as [Hx|Hx].
  - by rewrite filter_cons_False by (intros HH; by apply HH).
  - rewrite filter_cons_True by done. simpl. by rewrite bool_decide_false.
Qed.

Lemma entries_filter_delete k f :
  filter (λ x : string * A, x.1 = k) (filter (λ x : string * A, x.1 ≠ k) f) = [].
Proof.
  induction f as [|x f IH]; [done|].
  destruct (decide (x.1 = k)) as [Hx|Hx].
  - by rewrite filter_cons_False by (intros HH; by apply HH).
  - rewrite filter_cons_True by done. by rewrite filter_cons_False.
Qed.

Lemma entries_find_other k k' f :
  k' ≠ k →
  List.find (λ x : string * A, bool_decide (x.1 = k')) (filter (λ x : string * A, x.1 ≠ k) f)
  = List.find (λ x : string * A, bool_decide (x.1 = k')) f.
Proof.
  intros Hne. induction f as [|x f IH]; [done|].
  destruct (decide (x.1 = k)) as [Hx|Hx].
  - rewrite filter_cons_False by (intros HH; by apply HH). simpl.
    by rewrite bool_decide_false by congruence.
  - rewrite filter_cons_True by done. simpl. by rewrite IH.
Qed.

Lemma entries_filter_other k k' f :
  k' ≠ k →
  filter (λ x : string * A, x.1 = k') (filter (λ x : string * A, x.1 ≠ k) f)
  = filter (λ x : string * A, x.1 = k') f.
Proof.
  intros Hne. induction f as [|x f IH]; [done|].
  destruct (decide (x.1 = k)) as [Hx|Hx].
  - rewrite filter_cons_False by (intros HH; by apply HH).
    by rewrite (filter_cons_False (λ x : string * A, x.1 = k')) by congruence.
  - rewrite filter_cons_True by done.
    destruct (decide (x.1 = k')).
    + rewrite !(filter_cons_True (λ x : string * A, x.1 = k')) by done. by rewrite IH.
    + by rewrite !(filter_cons_False (λ x : string * A, x.1 = k')) by done.
Qed.

Lemma entries_find_app k f1 f2 :
  List.find (λ x : string * A, bool_decide (x.1 = k)) (f1 ++ f2) =
  match List.find (λ x : string * A, bool_decide (x.1 = k)) f1 with
  | Some x => Some x
  | None => List.find (λ x : string * A, bool_decide (x.1 = k)) f2
  end.
Proof.
  induction f1 as [|x f1 IH]; simpl; [done|].
  by destruct (bool_decide (x.1 = k)).
Qed.

End EntryLists.


(** ** Header collection: lookups after updates *)

Section HeadersLookups.
Implicit Types (h : Headers.t) (k n m v : string).

Lemma get_delete_other h n m :
  JS.toLowerCase m ≠ JS.toLowerCase n →
  Headers.get (Headers.delete h n) m = Headers.get h m.
Proof. intros Hne. unfold Headers.get, Headers.delete. by rewrite entries_find_other. Qed.

Lemma getAll_delete_other h n m :
  JS.toLowerCase m ≠ JS.toLowerCase n →
  Headers.getAll (Headers.delete h n) m = Headers.getAll h m.
Proof. intros Hne. unfold Headers.getAll, Headers.delete. by rewrite entries_filter_other. Qed.

Lemma has_delete h n : Headers.has (Headers.delete h n) n = false.
Proof.
  apply has_false_Forall. unfold Headers.delete.
  induction h as [|x h IH]; [constructor|].
  destruct (decide (x.1 ≠ JS.toLowerCase n)).
  - rewrite filter_cons_True by done. by constructor.
  - by rewrite filter_cons_False.
Qed.

Lemma get_single k v n :
  Headers.get [(k, v)] n = if bool_decide (k = JS.toLowerCase n) then Some v else None.
Proof. unfold Headers.get. simpl. by case_bool_decide. Qed.

Lemma getAll_single k v n :
  Headers.getAll [(k, v)] n = if bool_decide (k = JS.toLowerCase n) then [v] else [].
Proof.
  unfold Headers.getAll. case_bool_decide.
  - by rewrite filter_cons_True.
  - by rewrite filter_cons_False.
Qed.

Lemma get_has h n : Headers.has h n = true → ∃ v, Headers.get h n = Some v.
Proof. unfold Headers.has, Headers.get. destruct (List.find _ h); [eauto|done]. Qed.

Lemma get_set_same h n v : Headers.get (Headers.set h n v) n = Some (JS.replaceCRLF v).
Proof.
  destruct (Headers.has h n) eqn:Hhas.
  - destruct (has_true_split _ _ Hhas) as (h1 & v0 & h2 & -> & Hh1).
    rewrite set_first_match, get_app by done.
    apply get_none_iff in Hh1. rewrite Hh1.
    unfold Headers.get. simpl. by rewrite bool_decide_true.
  - rewrite set_no_match by done. unfold Headers.append. rewrite get_app.
    apply get_none_iff in Hhas. rewrite Hhas, get_single. by rewrite bool_decide_true.
Qed.

Lemma getAll_set_same h n v :
  Headers.getAll (Headers.set h n v) n = [JS.replaceCRLF v].
Proof.
  destruct (Headers.has h n) eqn:Hhas.
  - destruct (has_true_split _ _ Hhas) as (h1 & v0 & h2 & -> & Hh1).
    rewrite set_first_match, getAll_app, (getAll_absent h1) by done.
    change (?x :: Headers.delete h2 n) with ([x] ++ Headers.delete h2 n).
    rewrite getAll_app, getAll_delete, getAll_single. by rewrite bool_decide_true.
  - rewrite set_no_match by done. unfold Headers.append.
    rewrite getAll_app, getAll_absent, getAll_single by done. by rewrite bool_decide_true.
Qed.

Lemma getAll_set_other h n m v :
  JS.toLowerCase m ≠ JS.toLowerCase n →
  Headers.getAll (Headers.set h n v) m = Headers.getAll h m.
Proof.
  intros Hne. destruct (Headers.has h n) eqn:Hhas.
  - destruct (has_true_split _ _ Hhas) as (h1 & v0 & h2 & -> & Hh1).
    rewrite set_first_match by done.
    change (?x :: Headers.delete h2 n) with ([x] ++ Headers.delete h2 n).
    change (h1 ++ ?x :: h2) with (h1 ++ [x] ++ h2).
    rewrite !getAll_app, getAll_delete_other, !getAll_single by done.
    by rewrite !bool_decide_false by congruence.
  - rewrite set_no_match by done. unfold Headers.append.
    rewrite getAll_app, getAll_single. rewrite bool_decide_false by congruence.
    by rewrite app_nil_r.
Qed.

Lemma get_set_other h n m v :
  JS.toLowerCase m ≠ JS.toLowerCase n →
  Headers.get (Headers.set h n v) m = Headers.get h m.
Proof.
  intros Hne. destruct (Headers.has h n) eqn:Hhas.
  - destruct (has_true_split _ _ Hhas) as (h1 & v0 & h2 & -> & Hh1).
    rewrite set_first_match by done.
    change (?x :: Headers.delete h2 n) with ([x] ++ Headers.delete h2 n).
    change (h1 ++ ?x :: h2) with (h1 ++ [x] ++ h2).
    rewrite !get_app, get_delete_other, !get_single by done.
    by rewrite !bool_decide_false by congruence.
  - rewrite set_no_match by done. unfold Headers.append.
    rewrite get_app, get_single. rewrite bool_decide_false by congruence.
    by destruct (Headers.get h m).
Qed.

Lemma has_get h n : Headers.has h n = bool_decide (is_Some (Headers.get h n)).
Proof.
  unfold Headers.has, Headers.get. destruct (List.find _ h).
  - by rewrite bool_decide_true.
  - rewrite bool_decide_false; [done|]. by intros [? ?].
Qed.

Lemma has_set_other h n m v :
  JS.toLowerCase m ≠ JS.toLowerCase n →
  Headers.has (Headers.set h n v) m = Headers.has h m.
Proof. intros Hne. by rewrite !has_get, get_set_other. Qed.

Lemma has_delete_other h n m :
  JS.toLowerCase m ≠ JS.toLowerCase n →
  Headers.has (Headers.delete h n) m = Headers.has h m.
Proof. intros Hne. by rewrite !has_get, get_delete_other. Qed.

(** X1: [delete] removes every entry of the name, whatever its casing,
    and nothing else: afterwards the name is absent, and the values of
    every other name are the same, in the same order. *)
Theorem headers_delete_only_name h n :
  Headers.has (Headers.delete h n) n = false ∧
  Headers.get (Headers.delete h n) n = None ∧
  Headers.getAll (Headers.delete h n) n = [] ∧
  ∀ m, JS.toLowerCase m ≠ JS.toLowerCase n →
       Headers.getAll (Headers.delete h n) m = Headers.getAll h m ∧
       Headers.get (Headers.delete h n) m = Headers.get h m.
Proof.
  split; [apply has_delete|]. split; [apply get_none_iff, has_delete|].
  split; [apply getAll_delete|].
  intros m Hne. split; [by apply getAll_delete_other|by apply get_delete_other].
Qed.

(** X2: [append] never rejects a duplicate and never hides an earlier
    value: the new value comes last among the values of its name, [get]
    still answers with the first one, and other names are untouched. *)
Theorem headers_append_keeps_first h n v :
  Headers.getAll (Headers.append h n v) n = Headers.getAll h n ++ [JS.replaceCRLF v] ∧
  Headers.get (Headers.append h n v) n
  = Some (default (JS.replaceCRLF v) (Headers.get h n)) ∧
  ∀ m, JS.toLowerCase m ≠ JS.toLowerCase n →
       Headers.getAll (Headers.append h n v) m = Headers.getAll h m ∧
       Headers.get (Headers.append h n v) m = Headers.get h m.
Proof.
  unfold Headers.append. split; [|split].
  - rewrite getAll_app, getAll_single. by rewrite bool_decide_true.
  - rewrite get_app, get_single. rewrite bool_decide_true by done.
    by destruct (Headers.get h n).
  - intros m Hne. rewrite getAll_app, get_app, getAll_single, get_single.
    rewrite !bool_decide_false by congruence. rewrite app_nil_r.
    by destruct (Headers.get h m).
Qed.

(** X3: after [set], the name has exactly the new value (whether it
    replaced former ones or was appended), and the values of every other
    name are the same, in the same order. *)
Theorem headers_set_then_get h n v :
  Headers.get (Headers.set h n v) n = Some (JS.replaceCRLF v) ∧
  Headers.getAll (Headers.set h n v) n = [JS.replaceCRLF v] ∧
  Headers.has (Headers.set h n v) n = true ∧
  ∀ m, JS.toLowerCase m ≠ JS.toLowerCase n →
       Headers.getAll (Headers.set h n v) m = Headers.getAll h m ∧
       Headers.get (Headers.set h n v) m = Headers.get h m.
Proof.
  split; [apply get_set_same|]. split; [apply getAll_set_same|].
  split; [by rewrite has_get, get_set_same, bool_decide_true|].
  intros m Hne. split; [by apply getAll_set_other|by apply get_set_other].
Qed.

End HeadersLookups.

Section HeadersInvariants.
Implicit Types (h : Headers.t) (k n m v : string).

Lemma lower_ascii_idem c : JS.lower_ascii (JS.lower_ascii c) = JS.lower_ascii c.
Proof. destruct c as [[] [] [] [] [] [] [] []]; reflexivity. Qed.

Lemma toLowerCase_idem n : JS.toLowerCase (JS.toLowerCase n) = JS.toLowerCase n.
Proof. induction n as [|c n IH]; simpl; [done|]. by rewrite lower_ascii_idem, IH. Qed.


Lemma lowerNames_run_op h o : Forall (λ x, JS.toLowerCase x.1 = x.1) h →
  Forall (λ x, JS.toLowerCase x.1 = x.1) (Headers.run_op h o).
Proof.
  intros Hh. destruct o as [n v|n v|n]; simpl.
  - apply Forall_app. split; [done|].
    constructor; [apply toLowerCase_idem|constructor].
  - destruct (Headers.has h n) eqn:Hhas.
    + destruct (has_true_split _ _ Hhas) as (h1 & v0 & h2 & -> & Hh1).
      rewrite set_first_match by done.
      apply Forall_app in Hh as [H1 H2]. inversion H2; subst.
      apply Forall_app. split; [done|].
      constructor; [apply toLowerCase_idem|]. by apply delete_Forall.
    + rewrite set_no_match by done. apply Forall_app. split; [done|].
      constructor; [apply toLowerCase_idem|constructor].
  - by apply delete_Forall.
Qed.

Lemma lowerNames_run_ops os h : Forall (λ x, JS.toLowerCase x.1 = x.1) h →
  Forall (λ x, JS.toLowerCase x.1 = x.1) (Headers.run_ops h os).
Proof.
  revert h. induction os as [|o os IH]; intros h Hh; [done|].
  apply IH. by apply lowerNames_run_op.
Qed.

Lemma of_list_app init : Headers.of_list init = Headers.appendAll [] init.
Proof. reflexivity. Qed.

Lemma lowerNames_of_list init :
  Forall (λ x, JS.toLowerCase x.1 = x.1) (Headers.of_list init).
Proof.
  rewrite of_list_app, appendAll_app. simpl.
  induction init as [|x init IH]; [constructor|].
  constructor; [apply toLowerCase_idem|done].
Qed.

(** X4: every name stored by the constructor and by any sequence of
    [append], [set] and [delete] after it is in lower case, so every stored
    entry is found again under its stored name (and under any casing of
    it). *)
Theorem headers_names_lower_case init os :
  let h := Headers.run_ops (Headers.of_list init) os in
  Forall (λ x, JS.toLowerCase x.1 = x.1) h ∧
  ∀ k v, (k, v) ∈ h → Headers.has h k = true ∧ v ∈ Headers.getAll h k.
Proof.
  intros h.
  assert (Forall (λ x, JS.toLowerCase x.1 = x.1) h) as Hl
    by apply lowerNames_run_ops, lowerNames_of_list.
  split; [done|]. intros k v Hin.
  assert (JS.toLowerCase k = k) as Hk.
  { rewrite Forall_forall in Hl. by apply (Hl (k, v)). }
  split.
  - destruct (Headers.has h k) eqn:Hhas; [done|].
    apply has_false_Forall in Hhas. rewrite Forall_forall in Hhas.
    specialize (Hhas _ Hin). simpl in Hhas. congruence.
  - unfold Headers.getAll. apply list_elem_of_fmap. exists (k, v). split; [done|].
    apply list_elem_of_filter. by split.
Qed.

(** *** [toObject] *)

Lemma getProp_setProp o k k' v :
  JS.getProp (JS.setProp o k v) k' = if bool_decide (k = k') then Some v else JS.getProp o k'.
Proof.
  induction o as [|[k0 v0] o IH]; simpl.
  - done.
  - destruct (decide (k0 = k)) as [->|Hne].
    + rewrite bool_decide_true by done. simpl. by case_bool_decide.
    + rewrite bool_decide_false by done. simpl. rewrite IH.
      case_bool_decide; [|done]. subst. by rewrite bool_decide_false.
Qed.

Lemma toObject_snoc h x :
  Headers.toObject (h ++ [x]) = JS.setProp (Headers.toObject h) x.1 x.2.
Proof. unfold Headers.toObject. by rewrite fold_left_app. Qed.

(** X5: the plain object made by [toObject] holds, for each name, the
    last of the values stored under it: earlier duplicates are lost, and a
    name that is absent is undefined. *)
Theorem headers_toObject_last_wins h n :
  JS.getProp (Headers.toObject h) (JS.toLowerCase n) = last (Headers.getAll h n).
Proof.
  unfold Headers.getAll. generalize (JS.toLowerCase n). intros k.
  induction h as [|x h IH] using rev_ind; [done|].
  rewrite toObject_snoc, getProp_setProp, filter_app, fmap_app, IH.
  case_bool_decide as Hx.
  - rewrite filter_cons_True by done. simpl. by rewrite last_snoc.
  - rewrite filter_cons_False by done. simpl. by rewrite app_nil_r.
Qed.

(** *** Copies *)

Lemma replaceCRLF_cons c d r :
  JS.replaceCRLF (String c (String d r))
  = if Ascii.eqb c JS.CR && Ascii.eqb d JS.LF then JS.replaceCRLF r
    else String c (JS.replaceCRLF (String d r)).
Proof. reflexivity. Qed.

Lemma replaceCRLF_no_CR v : JS.contains JS.CR v = false → JS.replaceCRLF v = v.
Proof.
  induction v as [|c v IH]; [done|]. intros H.
  change (JS.contains JS.CR (String c v))
    with (Ascii.eqb JS.CR c || JS.contains JS.CR v) in H.
  apply orb_false_iff in H as [Hc Hv].
  destruct v as [|d v']; [done|].
  rewrite replaceCRLF_cons, Ascii.eqb_sym, Hc. simpl andb. cbv iota.
  by rewrite (IH Hv).
Qed.

(** X6: copying a collection through the constructor gives the same
    collection when its names are in lower case and its values hold no
    carriage return: the copy applies the name and value conversions of
    [append] a second time. *)
Theorem headers_copy_same h :
  Forall (λ x, JS.toLowerCase x.1 = x.1 ∧ JS.contains JS.CR x.2 = false) h →
  Headers.of_list h = h.
Proof.
  intros Hh. rewrite of_list_app, appendAll_app. simpl.
  induction Hh as [|[k v] h [Hk Hv] _ IH]; [done|].
  rewrite fmap_cons, IH. simpl in *. by rewrite Hk, replaceCRLF_no_CR.
Qed.

End HeadersInvariants.

Lemma headers_copy_same_witness :
  Headers.of_list [("accept", "text/html"); ("x-note", "a b")]
  = [("accept", "text/html"); ("x-note", "a b")].
Proof.
  apply headers_copy_same. repeat constructor.
Defined.

(** ** Form entries *)

Section FormDataSet.
Implicit Types (f : FormData.t) (n m : string) (v : Fetch.formValue).

(** X7: [set] on form entries is [delete] followed by [append]: the name
    then has the new value only, placed last, and the entries of every
    other name (names are compared as they are, case included) are the
    same, in the same order. *)
Theorem formdata_set_replaces f n v :
  FormData.getAll (FormData.set f n v) n = [v] ∧
  FormData.get (FormData.set f n v) n = Some v ∧
  FormData.has (FormData.set f n v) n = true ∧
  last (FormData.set f n v) = Some (n, v) ∧
  FormData.has (FormData.delete f n) n = false ∧
  ∀ m, m ≠ n →
       FormData.getAll (FormData.set f n v) m = FormData.getAll f m ∧
       FormData.get (FormData.set f n v) m = FormData.get f m.
Proof.
  unfold FormData.set, FormData.append, FormData.delete, FormData.getAll, FormData.get,
    FormData.has.
  split; [|split; [|split; [|split; [|split]]]].
  - rewrite filter_app, entries_filter_delete. by rewrite filter_cons_True.
  - rewrite entries_find_app, entries_find_delete. simpl. by rewrite bool_decide_true.
  - rewrite entries_find_app, entries_find_delete. simpl. by rewrite bool_decide_true.
  - apply last_snoc.
  - by rewrite entries_find_delete.
  - intros m Hne. rewrite filter_app, entries_find_app.
    rewrite entries_filter_other, entries_find_other by done.
    rewrite filter_cons_False by (simpl; congruence). simpl.
    rewrite bool_decide_false by congruence. rewrite app_nil_r.
    split; [done|]. by destruct (List.find _ f).
Qed.

End FormDataSet.

(** ** Message bodies: streams and content types *)

Section BodyFacts.
Import Fetch.
Context (env : Env).

Ltac monad_unfold :=
  unfold mbind, mret, M_bind, M_ret, bind, ret, throw, getObject, setObject, newObject,
    getStream, setStream, newStream, absent.

Ltac monad_unfold_in H :=
  unfold mbind, mret, M_bind, M_ret, bind, ret, throw, getObject, setObject, newObject,
    getStream, setStream, newStream, absent in H.

(** The object as [_consume] leaves it. *)
Local Abbreviation used o := (Object (_stream o) (headers o) true (body o) (fields o)).

(** The first consumption of a body over a readable stream. *)
Lemma consume_readable this h o s cs :
  objects h !! this = Some o → _bodyUsed o = false →
  _stream o = Some s → streams h !! s = Some (Stream true cs) →
  _consume env this h
  = (Heap (<[s := Stream false cs]> (streams h)) (<[this := used o]> (objects h)),
     inr (Some (decompressStream env (String.concat "" cs) (headers o)))).
Proof.
  intros Ho Hu Hs Hst. unfold _consume. monad_unfold.
  rewrite Ho, Hu. simpl. rewrite Hs. simpl. rewrite Hst. done.
Qed.

(** The first consumption of a body whose stream is no longer readable. *)
Lemma consume_drained this h o s cs :
  objects h !! this = Some o → _bodyUsed o = false →
  _stream o = Some s → streams h !! s = Some (Stream false cs) →
  _consume env this h
  = (Heap (streams h) (<[this := used o]> (objects h)), inr (Some "")).
Proof.
  intros Ho Hu Hs Hst. unfold _consume. monad_unfold.
  rewrite Ho, Hu. simpl. rewrite Hs. simpl. rewrite Hst. done.
Qed.

(** The first consumption of a body without a stream. *)
Lemma consume_null this h o :
  objects h !! this = Some o → _bodyUsed o = false → _stream o = None →
  _consume env this h = (Heap (streams h) (<[this := used o]> (objects h)), inr None).
Proof.
  intros Ho Hu Hs. unfold _consume. monad_unfold.
  rewrite Ho, Hu. simpl. rewrite Hs. done.
Qed.

Lemma decompressStream_plain bytes hs :
  Headers.get hs "Content-Encoding" ≠ Some "deflate" →
  Headers.get hs "Transfer-Encoding" ≠ Some "deflate" →
  Headers.get hs "Content-Encoding" ≠ Some "gzip" →
  Headers.get hs "Transfer-Encoding" ≠ Some "gzip" →
  decompressStream env bytes hs = bytes.
Proof.
  intros H1 H2 H3 H4. unfold decompressStream. cbv zeta.
  by rewrite !bool_decide_false by (intros [?|?]; done).
Qed.

(** X8: the first consumption of a body over a readable stream yields
    everything the stream emits, inflated when either encoding header says
    [deflate], otherwise gunzipped when either says [gzip], otherwise as it
    is; the stream is left drained. *)
Theorem consume_decompresses this h o s cs :
  objects h !! this = Some o → _bodyUsed o = false →
  _stream o = Some s → streams h !! s = Some (Stream true cs) →
  let bytes := String.concat "" cs in
  let ce := Headers.get (headers o) "Content-Encoding" in
  let te := Headers.get (headers o) "Transfer-Encoding" in
  let h1 := (_consume env this h).1 in
  streams h1 !! s = Some (Stream false cs) ∧
  ((ce = Some "deflate" ∨ te = Some "deflate") →
     (_consume env this h).2 = inr (Some (inflate env bytes))) ∧
  (ce ≠ Some "deflate" → te ≠ Some "deflate" → (ce = Some "gzip" ∨ te = Some "gzip") →
     (_consume env this h).2 = inr (Some (gunzip env bytes))) ∧
  (ce ≠ Some "deflate" → te ≠ Some "deflate" → ce ≠ Some "gzip" → te ≠ Some "gzip" →
     (_consume env this h).2 = inr (Some bytes)).
Proof.
  intros Ho Hu Hs Hst bytes ce te h1. subst h1.
  rewrite (consume_readable this h o s cs) by done. simpl.
  split; [apply list_lookup_insert_eq; by eapply lookup_lt_Some|].
  unfold decompressStream. fold ce te bytes. cbv zeta.
  split; [|split].
  - intros Hd. by rewrite bool_decide_true.
  - intros H1 H2 Hg. rewrite bool_decide_false by (intros [?|?]; done).
    by rewrite bool_decide_true.
  - intros H1 H2 H3 H4. by rewrite !bool_decide_false by (intros [?|?]; done).
Qed.

Lemma bind_inr {A B} (m : M A) (k : A → M B) h h' a :
  m h = (h', inr a) → bind m k h = k a h'.
Proof. intros H. unfold bind. by rewrite H. Qed.

Lemma bind_inl {A B} (m : M A) (k : A → M B) h h' e :
  m h = (h', inl e) → bind m k h = (h', inl e).
Proof. intros H. unfold bind. by rewrite H. Qed.

(** An accessor call after its consumption step: only the object itself
    is written, and no stream. *)
Lemma call_after_consume a this h h' b o' :
  _consume env this h = (h', inr b) → objects h' !! this = Some o' →
  let h1 := (call env a this h).1 in
  streams h1 = streams h' ∧
  ∀ other, other ≠ this → objects h1 !! other = objects h' !! other.
Proof.
  intros Hc Ho' h1. subst h1.
  destruct a; unfold call, arrayBuffer, text, json, formData;
    unfold mbind, mret, M_bind, M_ret; rewrite (bind_inr _ _ _ _ _ Hc);
    unfold nullDeref, setBody; monad_unfold; rewrite ?Ho'; simpl;
    repeat (case_match; simplify_eq/=);
    (split; [done|]); intros other Hne; by rewrite ?list_lookup_insert_ne by done.
Qed.

(** What an accessor call on a fresh body over a stream leaves behind:
    the stream is drained, and no other object is touched. *)
Lemma call_frame a this h o s rd cs :
  objects h !! this = Some o → _bodyUsed o = false →
  _stream o = Some s → streams h !! s = Some (Stream rd cs) →
  let h1 := (call env a this h).1 in
  streams h1 !! s = Some (Stream false cs) ∧
  ∀ other, other ≠ this → objects h1 !! other = objects h !! other.
Proof.
  intros Ho Hu Hs Hst h1. subst h1.
  assert (this < length (objects h)) as Hlt by by eapply lookup_lt_Some.
  assert (s < length (streams h)) as Hslt by by eapply lookup_lt_Some.
  destruct rd.
  - pose proof (consume_readable this h o s cs Ho Hu Hs Hst) as Hc.
    destruct (call_after_consume a this h _ _ (used o) Hc) as [H1 H2].
    { by apply list_lookup_insert_eq. }
    rewrite H1. simpl. split; [by apply list_lookup_insert_eq|].
    intros other Hne. rewrite H2 by done. simpl. by rewrite list_lookup_insert_ne.
  - pose proof (consume_drained this h o s cs Ho Hu Hs Hst) as Hc.
    destruct (call_after_consume a this h _ _ (used o) Hc) as [H1 H2].
    { by apply list_lookup_insert_eq. }
    rewrite H1. simpl. split; [done|].
    intros other Hne. rewrite H2 by done. simpl. by rewrite list_lookup_insert_ne.
Qed.

(** X9: a stream is shared by reference between a body and the bodies
    constructed from it, and is read once: after any accessor call on one
    of two unused bodies over the same stream, the other answers [text()]
    with the empty text (not with the data, and not with the reuse
    error). *)
Theorem shared_stream_read_once a this other h o1 o2 s st :
  this ≠ other →
  objects h !! this = Some o1 → objects h !! other = Some o2 →
  _bodyUsed o1 = false → _bodyUsed o2 = false →
  _stream o1 = Some s → _stream o2 = Some s → streams h !! s = Some st →
  let h1 := (call env a this h).1 in
  (text env other h1).2 = inr (VText "") ∧ usedIn (text env other h1).1 other.
Proof.
  intros Hne Ho1 Ho2 Hu1 Hu2 Hs1 Hs2 Hst h1. destruct st as [rd cs].
  destruct (call_frame a this h o1 s rd cs Ho1 Hu1 Hs1 Hst) as [Hstream Hframe].
  fold h1 in Hstream, Hframe.
  assert (objects h1 !! other = Some o2) as Ho2' by (rewrite Hframe; done).
  assert (other < length (objects h1)) as Hlt by by eapply lookup_lt_Some.
  pose proof (consume_drained other h1 o2 s cs Ho2' Hu2 Hs2 Hstream) as Hc.
  unfold text, setBody. unfold mbind, mret, M_bind, M_ret.
  rewrite (bind_inr _ _ _ _ _ Hc).
  monad_unfold. simpl. rewrite list_lookup_insert_eq by done. simpl.
  split; [done|]. eexists. split; [apply list_lookup_insert_eq|done].
  by rewrite length_insert.
Qed.



Lemma setContentType_other hs ct m :
  JS.toLowerCase m ≠ "content-type" →
  Headers.get (_setContentType hs ct) m = Headers.get hs m.
Proof.
  intros Hm. unfold _setContentType. destruct ct as [ct|]; [|done].
  destruct (_ && _); [|done]. by apply get_set_other.
Qed.

(** X10: a body made from a string reads back as that string, through
    [text()] and through [arrayBuffer()], when its headers name no
    [deflate] or [gzip] encoding. *)
Theorem string_body_round_trip hs fs s h :
  Headers.get hs "Content-Encoding" ≠ Some "deflate" →
  Headers.get hs "Transfer-Encoding" ≠ Some "deflate" →
  Headers.get hs "Content-Encoding" ≠ Some "gzip" →
  Headers.get hs "Transfer-Encoding" ≠ Some "gzip" →
  let this := length (objects h) in
  ∃ h1, Body_constructor env hs fs (InitString s) h = (h1, inr this) ∧
        (text env this h1).2 = inr (VText s) ∧
        (arrayBuffer env this h1).2 = inr (VUint8Array s).
Proof.
  intros H1 H2 H3 H4 this.
  set (hs' := _setContentType hs (Some "text/plain;charset=UTF-8")).
  set (o := Object (Some (length (streams h))) hs' false VNull fs).
  set (h1 := Heap (streams h ++ [Stream true [s]]) (objects h ++ [o])).
  exists h1. split; [done|].
  assert (objects h1 !! this = Some o) as Ho by apply list_lookup_middle, eq_refl.
  assert (streams h1 !! length (streams h) = Some (Stream true [s])) as Hst
    by apply list_lookup_middle, eq_refl.
  pose proof (consume_readable this h1 o _ [s] Ho eq_refl eq_refl Hst) as Hc.
  assert (decompressStream env s hs' = s) as Hd.
  { subst hs'. apply decompressStream_plain; by rewrite setContentType_other. }
  simpl headers in Hc. change (String.concat "" [s]) with s in Hc. rewrite Hd in Hc.
  assert (this < length (objects h1)) as Hlt by by eapply lookup_lt_Some.
  split.
  - unfold text, setBody. unfold mbind, mret, M_bind, M_ret.
    rewrite (bind_inr _ _ _ _ _ Hc). monad_unfold. simpl.
    by rewrite list_lookup_insert_eq.
  - unfold arrayBuffer, setBody. unfold mbind, mret, M_bind, M_ret.
    rewrite (bind_inr _ _ _ _ _ Hc). monad_unfold. simpl.
    by rewrite list_lookup_insert_eq.
Qed.

(** X11: a body without a stream (a request without a body, a response
    made from nothing or from an empty form) does not read as empty:
    [text()], [json()] and [arrayBuffer()] fail with a type error on the
    null buffer, which is not the reuse error, and the body is used
    afterwards. *)
Theorem accessors_without_stream a this h o :
  objects h !! this = Some o → _bodyUsed o = false → _stream o = None →
  a ≠ FormData_ →
  (∃ msg, (call env a this h).2 = inl (TypeError msg)) ∧
  (call env a this h).2 ≠ inl (TypeError "Body already consumed") ∧
  usedIn (call env a this h).1 this.
Proof.
  intros Ho Hu Hs Ha.
  pose proof (consume_null this h o Ho Hu Hs) as Hc.
  assert (this < length (objects h)) as Hlt by by eapply lookup_lt_Some.
  destruct a; [| | |done];
    unfold call, arrayBuffer, text, json, nullDeref, setBody;
    unfold mbind, mret, M_bind, M_ret; rewrite (bind_inr _ _ _ _ _ Hc);
    monad_unfold; simpl; rewrite ?list_lookup_insert_eq by done; simpl;
    (split; [by eexists|]); (split; [done|]);
    eexists; (split; [apply list_lookup_insert_eq; by rewrite ?length_insert|done]).
Qed.


End BodyFacts.

(** ** Requests and responses *)

Section RequestResponseFacts.
Import Fetch.
Context (env : Env).

Ltac monad_unfold :=
  unfold mbind, mret, M_bind, M_ret, bind, ret, throw, getObject, setObject, newObject,
    getStream, setStream, newStream, absent.

Ltac monad_unfold_in H :=
  unfold mbind, mret, M_bind, M_ret, bind, ret, throw, getObject, setObject, newObject,
    getStream, setStream, newStream, absent in H.

(** The method of a request made from a string: [init.method], or [GET]
    when it is missing or empty, in upper case. *)
Local Abbreviation methodOf init :=
  (JS.toUpperCase (match init ≫= init_method with
                   | Some "" | None => "GET"
                   | Some m => m
                   end)).

Lemma Request_constructor_string s init h :
  Request_constructor env (InputString s) init h
  = if bool_decide (URL_format env s = "")
    then (h, inl (TypeError "Input must be string or another Request"))
    else
      match init with
      | Some i =>
          if truthy (init_body i) then
            if bool_decide (methodOf init = "GET" ∨ methodOf init = "HEAD")
            then (h, inl (TypeError "Cannot include body with GET/HEAD request"))
            else Body_constructor env (Headers.of_list (init_headers i))
                   (RequestFields (URL_format env s) (methodOf init)
                      (if bool_decide (init_redirect i = Some "error") then error_ else follow) 0)
                   (init_body i) h
          else Body_constructor env (Headers.of_list (init_headers i))
                 (RequestFields (URL_format env s) (methodOf init)
                    (if bool_decide (init_redirect i = Some "error") then error_ else follow) 0)
                 InitNull h
      | None =>
          Body_constructor env (Headers.of_list [])
            (RequestFields (URL_format env s) "GET" follow 0) InitNull h
      end.
Proof.
  unfold Request_constructor. monad_unfold. cbv zeta.
  case_bool_decide; [done|].
  destruct init as [i|]; simpl; [|done].
  assert (JS.toUpperCase (if isTruthy (init_method i) then default "GET" (init_method i)
                          else "GET")
          = JS.toUpperCase (match init_method i with
                            | Some "" | None => "GET"
                            | Some m => m
                            end)) as ->.
  { destruct (init_method i) as [[|]|]; done. }
  destruct (truthy (init_body i)); [|done].
  by case_bool_decide.
Qed.

(** X13: a request made from a string.  A string that formats to no URL
    is refused; a body together with the method GET or HEAD (also the
    default method) is refused; otherwise the request has the formatted
    URL, the method in upper case ([GET] when none is given), the redirect
    mode [follow] unless [error] was asked for, a redirect count of 0, and
    an unused body.  A refused construction leaves the heap as it was. *)
Theorem request_from_string s init h :
  let r := Request_constructor env (InputString s) init h in
  (URL_format env s = "" →
     r = (h, inl (TypeError "Input must be string or another Request"))) ∧
  (∀ i, URL_format env s ≠ "" → init = Some i → truthy (init_body i) = true →
        methodOf init = "GET" ∨ methodOf init = "HEAD" →
        r = (h, inl (TypeError "Cannot include body with GET/HEAD request"))) ∧
  (∀ h' c, r = (h', inr c) →
     c = length (objects h) ∧
     ∃ oc redirect,
       objects h' !! c = Some oc ∧ _bodyUsed oc = false ∧
       fields oc = RequestFields (URL_format env s) (methodOf init) redirect 0 ∧
       (redirect = error_ ↔ init ≫= init_redirect = Some "error")).
Proof.
  intros r. subst r. rewrite Request_constructor_string. split; [|split].
  - intros ->. by rewrite bool_decide_true.
  - intros i Hu -> Hb Hm. rewrite bool_decide_false by done. rewrite Hb.
    by rewrite bool_decide_true.
  - intros h' c. case_bool_decide as Hu; [done|].
    destruct init as [i|].
    + destruct (truthy (init_body i)).
      * case_bool_decide as Hm; [done|]. intros H.
        destruct (Body_constructor_result env _ _ _ _ _ _ H) as (-> & oc & Hobj & Hused & Hf).
        split; [done|]. exists oc. eexists. split; [|split; [done|split; [exact Hf|]]].
        { rewrite Hobj. by apply list_lookup_middle. }
        simpl. case_bool_decide; split; congruence.
      * intros H.
        destruct (Body_constructor_result env _ _ _ _ _ _ H) as (-> & oc & Hobj & Hused & Hf).
        split; [done|]. exists oc. eexists. split; [|split; [done|split; [exact Hf|]]].
        { rewrite Hobj. by apply list_lookup_middle. }
        simpl. case_bool_decide; split; congruence.
    + intros H.
      destruct (Body_constructor_result env _ _ _ _ _ _ H) as (-> & oc & Hobj & Hused & Hf).
      split; [done|]. exists oc, follow. split; [|split; [done|split; [exact Hf|]]].
      { rewrite Hobj. by apply list_lookup_middle. }
      simpl. split; congruence.
Qed.

Lemma splitHead_no_sep sep s : JS.contains sep (JS.splitHead sep s) = false.
Proof.
  induction s as [|c s IH]; [done|]. simpl.
  destruct (Ascii.eqb c sep) eqn:Hc; [done|]. simpl.
  by rewrite Ascii.eqb_sym, Hc, IH.
Qed.

(** The status text a response is given: the one asked for, else the
    standard text of the status, else [Unknown]. *)
Local Abbreviation textOf i :=
  (match ri_statusText i with
   | Some "" | None =>
       match ri_status i ≫= STATUS_CODES env with
       | Some "" | None => "Unknown"
       | Some t => t
       end
   | Some t => t
   end).

Lemma Response_constructor_init init i h :
  Response_constructor env init (Some i) h
  = if outOfRange (ri_status i)
    then (h, inl (RangeError ("Status code " +:+ from_option pretty "undefined" (ri_status i)
                                +:+ " not in range")))
    else if negb (validStatusText (textOf i))
    then (h, inl (TypeError ("Status text " +:+ default "undefined" (ri_statusText i)
                               +:+ " not valid format")))
    else Body_constructor env (Headers.of_list (ri_headers i))
           (ResponseFields (URL_format env (match ri_url i with
                                            | Some "" | None => ""
                                            | Some u => u
                                            end))
              "default" (ri_status i) (textOf i)) init h.
Proof.
  assert ((if isTruthy (ri_statusText i) then default "" (ri_statusText i)
           else if isTruthy (ri_status i ≫= STATUS_CODES env)
                then default "" (ri_status i ≫= STATUS_CODES env) else "Unknown")
          = textOf i) as Htext.
  { destruct (ri_statusText i) as [[|]|]; try done;
      by destruct (ri_status i ≫= STATUS_CODES env) as [[|]|]. }
  unfold Response_constructor. cbv zeta. rewrite Htext. monad_unfold.
  destruct (outOfRange (ri_status i)); [done|].
  destruct (negb _); [done|].
  by destruct (ri_url i) as [[|]|].
Qed.

Lemma textOf_valid i :
  validStatusText (textOf i)
  = negb (JS.contains JS.LF (textOf i) || JS.contains JS.CR (textOf i)).
Proof.
  unfold validStatusText. rewrite negb_orb.
  rewrite (bool_decide_false (textOf i = "")); [done|].
  destruct (ri_statusText i) as [[|]|]; try done;
    by destruct (ri_status i ≫= STATUS_CODES env) as [[|]|].
Qed.

(** X14: the responses that can be constructed.  A status given below
    200 or above 599 is refused with a range error, and a status text that
    holds a line break with a type error, both leaving the heap as it was.
    An empty status text is not refused: it is replaced, like a missing one,
    by the standard text of the status or by [Unknown].  A response that is
    constructed is either the error response (no init: type [error], status
    0, empty text) or has the status of the init (none when the init names
    none, in which case no range is checked; between 200 and 599 when it
    names one) and a non-empty status text on one line; it is [ok] exactly
    for a status from 200 to 299, its body is unused, and its [url] has no
    fragment. *)
Theorem response_invariant init ri h :
  let r := Response_constructor env init ri h in
  (∀ i s, ri = Some i → ri_status i = Some s → (s < 200 ∨ s > 599)%Z →
     r = (h, inl (RangeError ("Status code " +:+ pretty s +:+ " not in range")))) ∧
  (∀ i, ri = Some i → (∀ s, ri_status i = Some s → (200 ≤ s ≤ 599)%Z) →
     JS.contains JS.LF (textOf i) || JS.contains JS.CR (textOf i) = true →
     r = (h, inl (TypeError ("Status text " +:+ default "undefined" (ri_statusText i)
                               +:+ " not valid format")))) ∧
  (∀ h' c, r = (h', inr c) →
     ∃ oc _url type_ status statusText,
       objects h' !! c = Some oc ∧ _bodyUsed oc = false ∧
       fields oc = ResponseFields _url type_ status statusText ∧
       JS.contains "#" (Response_url oc) = false ∧
       (ok oc = true ↔ ∃ s, status = Some s ∧ (200 ≤ s ≤ 299)%Z) ∧
       match ri with
       | None => type_ = "error" ∧ status = Some 0%Z ∧ statusText = ""
       | Some i =>
           type_ = "default" ∧ status = ri_status i ∧
           (∀ s, status = Some s → (200 ≤ s ≤ 599)%Z) ∧
           statusText = textOf i ∧ statusText ≠ "" ∧
           JS.contains JS.LF statusText = false ∧ JS.contains JS.CR statusText = false
       end).
Proof.
  assert (∀ oc _url type_ status statusText,
            fields oc = ResponseFields _url type_ status statusText →
            ok oc = true ↔ ∃ s, status = Some s ∧ (200 ≤ s ≤ 299)%Z) as Hok.
  { intros oc _url type_ status statusText Hf. unfold ok. rewrite Hf.
    destruct status as [s|].
    - rewrite bool_decide_eq_true. split; [by exists s|]. by intros (? & [= <-] & ?).
    - split; [done|]. by intros (? & ? & _). }
  intros r. subst r. split; [|split].
  - intros i s -> Hs Hr. rewrite Response_constructor_init, Hs. simpl.
    by rewrite bool_decide_true.
  - intros i -> Hr Hv. rewrite Response_constructor_init.
    assert (outOfRange (ri_status i) = false) as ->.
    { destruct (ri_status i) as [s|]; [|done]. simpl. apply bool_decide_eq_false.
      specialize (Hr s eq_refl). lia. }
    by rewrite textOf_valid, Hv.
  - intros h' c. destruct ri as [i|].
    + rewrite Response_constructor_init.
      destruct (outOfRange (ri_status i)) eqn:Hrange; [done|].
      rewrite textOf_valid.
      destruct (JS.contains JS.LF (textOf i) || JS.contains JS.CR (textOf i)) eqn:Hvalid;
        [done|]. simpl.
      intros H.
      destruct (Body_constructor_result env _ _ _ _ _ _ H) as (-> & oc & Hobj & Hused & Hf).
      exists oc. eexists _, _, _, _.
      split; [rewrite Hobj; by apply list_lookup_middle|].
      split; [done|]. split; [exact Hf|].
      split; [unfold Response_url; rewrite Hf; apply splitHead_no_sep|].
      split; [by eapply Hok|].
      split; [done|]. split; [done|]. split.
      { intros s Hs. rewrite Hs in Hrange. simpl in Hrange.
        apply bool_decide_eq_false in Hrange. lia. }
      split; [done|].
      apply orb_false_iff in Hvalid as [Hlf Hcr]. split; [|done].
      destruct (ri_statusText i) as [[|]|]; try done;
        by destruct (ri_status i ≫= STATUS_CODES env) as [[|]|].
    + unfold Response_constructor. intros H.
      destruct (Body_constructor_result env _ _ _ _ _ _ H) as (-> & oc & Hobj & Hused & Hf).
      exists oc. eexists _, _, _, _.
      split; [rewrite Hobj; by apply list_lookup_middle|].
      split; [done|]. split; [exact Hf|].
      split; [unfold Response_url; by rewrite Hf|].
      split; [by eapply Hok|]. done.
Qed.

(** X15: [Response.redirect] accepts the statuses 301, 302, 303, 307
    and 308 (302 when none is given) and refuses any other with a range
    error, leaving the heap as it was.  The response it makes has that
    status, no body, and exactly one [Location] header, holding the
    formatted URL. *)
Theorem response_redirect_location url status h :
  let st := default 302%Z status in
  let r := Response_redirect env url status h in
  (st ∉ redirectStatuses →
     r = (h, inl (RangeError ("Status code " +:+ pretty st +:+ " not valid redirect code")))) ∧
  (∀ h' c, r = (h', inr c) →
     st ∈ redirectStatuses ∧
     ∃ oc _url statusText,
       objects h' !! c = Some oc ∧
       fields oc = ResponseFields _url "default" (Some st) statusText ∧
       _stream oc = None ∧ _bodyUsed oc = false ∧ ok oc = false ∧
       Headers.getAll (headers oc) "Location" = [JS.replaceCRLF (URL_format env url)]).
Proof.
  intros st r. subst r. unfold Response_redirect. fold st. cbv zeta. split.
  - intros Hst. by rewrite bool_decide_false.
  - intros h' c. case_bool_decide as Hst; [|done].
    unfold mbind, mret, M_bind, M_ret. intros H.
    change (negb true) with false in H. cbv iota in H.
    destruct (Response_constructor env InitNull
                (Some (ResponseInit (Some st) (STATUS_CODES env st) None [])) h)
      as [h1 [e|c1]] eqn:Hc.
    { rewrite (bind_inl _ _ _ _ _ Hc) in H. done. }
    rewrite (bind_inr _ _ _ _ _ Hc) in H.
    rewrite Response_constructor_init in Hc. simpl in Hc.
    case_bool_decide; [done|]. destruct (negb _); [done|].
    unfold Body_constructor in Hc. monad_unfold_in Hc. simpl in Hc. simplify_eq.
    monad_unfold_in H. simpl in H. rewrite list_lookup_middle in H by done.
    simpl in H. simplify_eq. split; [done|].
    eexists _, _, _. split.
    { simpl. rewrite insert_app_r_alt by lia. rewrite Nat.sub_diag. simpl.
      by apply list_lookup_middle. }
    split; [reflexivity|]. split; [done|]. split; [done|]. split.
    { unfold ok. simpl. apply bool_decide_eq_false. intros [_ Hle].
      unfold redirectStatuses in Hst. rewrite !elem_of_cons, elem_of_nil in Hst. lia. }
    simpl. apply getAll_set_same.
Qed.

End RequestResponseFacts.

(** Two inits the constructor accepts: one with an empty status text,
    which gets the standard text of its status, and one without a status,
    which gets none and the text [Unknown]. *)
Example response_init_defaults :
  let made ri :=
    Fetch.Response_constructor Sample.fetchEnv Fetch.InitNull (Some ri) Fetch.emptyHeap in
  (Fetch.fields <$> Fetch.objects (made (Fetch.ResponseInit (Some 200%Z) (Some "") None [])).1
   = [Fetch.ResponseFields "" "default" (Some 200%Z) "OK"]) ∧
  (Fetch.fields <$> Fetch.objects (made (Fetch.ResponseInit None None None [])).1
   = [Fetch.ResponseFields "" "default" None "Unknown"]) ∧
  (Fetch.ok <$> Fetch.objects (made (Fetch.ResponseInit None None None [])).1 = [false]).
Proof. by vm_compute. Qed.

Lemma response_redirect_location_witness :
  ∃ oc,
    Fetch.objects (Fetch.Response_redirect Sample.fetchEnv "http://example.test/b" None
                     Fetch.emptyHeap).1 !! 0 = Some oc ∧
    Headers.getAll (Fetch.headers oc) "Location" = ["http://example.test/b"].
Proof.
  destruct (response_redirect_location Sample.fetchEnv "http://example.test/b" None
              Fetch.emptyHeap) as [_ H].
  destruct (H _ 0 eq_refl) as (_ & oc & u & t & Ho & _ & _ & _ & _ & Hl).
  by exists oc.
Defined.

(** ** The asynchronous request engine: the calls around a request *)

Section XHRCalls.
Import XHR.
Implicit Types (x : xhr) (q : request) (r : ref).

Lemma update_request_spec x r q f :
  requests x !! r = Some q →
  requests (update_request x r f) = <[r := f q]> (requests x) ∧
  effects (update_request x r f) = effects x ∧
  state (update_request x r f) = state x ∧
  _pending (update_request x r f) = _pending x ∧
  _cors (update_request x r f) = _cors x ∧
  _response (update_request x r f) = _response x ∧
  _error (update_request x r f) = _error x ∧
  loc (update_request x r f) = loc x ∧
  x_timeout (update_request x r f) = x_timeout x.
Proof. intros Hq. unfold update_request. rewrite Hq. by destruct x. Qed.

(** The three ways [abort] returns. *)
Lemma abort_cases x x' :
  abort x = (x', inr tt) →
  (x' = set_state x UNSENT ∧
   (state x = UNSENT ∨
    ∃ r q, state x = OPENED ∧ _pending x = Some r ∧ requests x !! r = Some q ∧
           sent q = false)) ∨
  (∃ r q, state x ≠ UNSENT ∧ _pending x = Some r ∧ requests x !! r = Some q ∧
          (state x = OPENED → sent q = true) ∧
          x' = update_request x r mark_aborted).
Proof.
  unfold abort. case_bool_decide as Hs.
  - intros [= <-]. left. split; [done|by left].
  - destruct (_pending x) as [r|] eqn:Hp; simpl; [|done].
    destruct (requests x !! r) as [q|] eqn:Hq; simpl; [|done].
    case_bool_decide as Ho; simpl.
    + destruct (sent q) eqn:Hsent; simpl.
      * intros [= <-]. right. exists r, q. done.
      * intros [= <-]. left. split; [done|]. right. by exists r, q.
    + intros [= <-]. right. exists r, q. done.
Qed.

(** [abort] fires no event and creates no request. *)
Lemma abort_quiet x :
  effects (abort x).1 = effects x ∧ length (requests (abort x).1) = length (requests x) ∧
  _cors (abort x).1 = _cors x ∧ x_timeout (abort x).1 = x_timeout x.
Proof.
  unfold abort. case_bool_decide; [by destruct x|].
  destruct (_pending x) as [r|] eqn:Hp; simpl; [|done].
  destruct (requests x !! r) as [q|] eqn:Hq; simpl; [|done].
  destruct (_ && _); simpl; [by destruct x|].
  destruct (update_request_spec x r q mark_aborted Hq) as (-> & -> & _ & _ & -> & _ & _ & _ & ->).
  by rewrite length_insert.
Qed.

(** X16: [abort] is idempotent and silent: a second [abort] changes
    nothing more, and no call of [abort] fires an event.  Before [send]
    (the object is UNSENT, or OPENED with a request not yet sent) it puts the
    object in the state UNSENT and leaves every request as it was; after
    [send] it keeps the state and the pending request and only sets the
    [aborted] flag of that request, whose completion will then take the
    abort path. *)
Theorem abort_idempotent x x' :
  abort x = (x', inr tt) →
  abort x' = (x', inr tt) ∧ effects x' = effects x ∧
  _response x' = _response x ∧ _error x' = _error x ∧
  ((state x = UNSENT ∨
    ∃ r q, state x = OPENED ∧ _pending x = Some r ∧ requests x !! r = Some q ∧
           sent q = false) →
   state x' = UNSENT ∧ _pending x' = _pending x ∧ requests x' = requests x) ∧
  (∀ r q, state x ≠ UNSENT → _pending x = Some r → requests x !! r = Some q →
          (state x = OPENED → sent q = true) →
     state x' = state x ∧ _pending x' = Some r ∧
     requests x'
     = <[r := Request (method q) (headers q) (url q) (body q) (timeout q) (sent q) true]>
         (requests x)).
Proof.
  intros H. pose proof (abort_quiet x) as (He & _). rewrite H in He. simpl in He.
  split; [|split; [done|]].
  - destruct (abort_cases x x' H) as [[-> _]|(r & q & Hs & Hp & Hq & Hsent & ->)].
    + unfold abort. rewrite bool_decide_true by by destruct x. by destruct x.
    + destruct (update_request_spec x r q mark_aborted Hq)
        as (Hr & _ & Hst & Hpe & _).
      assert (r < length (requests x)) as Hlt by by eapply lookup_lt_Some.
      unfold abort. rewrite Hst, Hpe, Hp. rewrite bool_decide_false by done. simpl.
      rewrite Hr, list_lookup_insert_eq by done. simpl.
      assert (bool_decide (state x = OPENED) && negb (sent q) = false) as ->.
      { case_bool_decide; [|done]. by rewrite Hsent. }
      unfold update_request at 1. rewrite Hr, list_lookup_insert_eq by done.
      unfold update_request. rewrite Hq. destruct x. simpl.
      by rewrite list_insert_insert_eq.
  - destruct (abort_cases x x' H) as [[-> Hcase]|(r & q & Hs & Hp & Hq & Hsent & ->)].
    + split; [by destruct x|]. split; [by destruct x|]. split.
      * intros _. by destruct x.
      * intros r q Hs Hp Hq Hsent.
        destruct Hcase as [?|(r' & q' & Ho & Hp' & Hq' & Hn)]; [done|].
        rewrite Hp in Hp'. injection Hp' as <-. rewrite Hq in Hq'. injection Hq' as <-.
        rewrite Hsent in Hn by done. done.
    + destruct (update_request_spec x r q mark_aborted Hq)
        as (Hr & _ & Hst & Hpe & _ & Hre & Her & _).
      split; [done|]. split; [done|]. split.
      * intros [?|(r' & q' & Ho & Hp' & Hq' & Hn)]; [done|].
        rewrite Hp in Hp'. injection Hp' as <-. rewrite Hq in Hq'. injection Hq' as <-.
        rewrite Hsent in Hn by done. done.
      * intros r' q' _ Hp' Hq' _.
        rewrite Hp in Hp'. injection Hp' as <-. rewrite Hq in Hq'. injection Hq' as <-.
        rewrite Hst, Hpe, Hr. done.
Qed.

(** The origin [open] compares with the document's host. *)
Local Abbreviation targetHost env x url0 :=
  (let u := URL_parse_resolve env (href (loc x)) url0 in
   let port := if bool_decide ((u_protocol u = "https:" ∧ u_port u = "443") ∨
                               (u_protocol u = "http:" ∧ u_port u = "80"))
               then "" else u_port u in
   let hostname_ := if bool_decide (u_hostname u = "") then hostname (loc x) else u_hostname u in
   if bool_decide (port = "") then hostname_ else hostname_ +:+ ":" +:+ port).

(** X17: what a successful [open] leaves: the state OPENED, announced by
    one [readystatechange] event and nothing else; no response and no
    error from an earlier request; a new pending request with the method in
    upper case, one of the six supported, neither sent nor aborted, without
    a body, and carrying an [origin] header exactly when the target host
    differs from the document's.  The cross-origin mark, once set, stays:
    an [open] on the document's own host does not clear it. *)
Theorem open_success env x method0 url0 useAsync user password x' :
  open env x method0 url0 useAsync user password = (x', inr tt) →
  state x' = OPENED ∧
  effects x' = effects x ++ [Fire "readystatechange" OPENED None] ∧
  _response x' = None ∧ _error x' = None ∧
  _pending x' = Some (length (requests x)) ∧
  (∃ q, requests x' !! length (requests x) = Some q ∧
        method q = JS.toUpperCase method0 ∧ isSupportedMethod (method q) = true ∧
        sent q = false ∧ aborted q = false ∧ body q = None ∧ url q = _url x' ∧
        headers q = if bool_decide (targetHost env x url0 ≠ host (loc x))
                    then [("origin", protocol (loc x) +:+ "//" +:+ host (loc x))]
                    else []) ∧
  _cors x' = if bool_decide (targetHost env x url0 ≠ host (loc x))
             then Some (protocol (loc x) +:+ "//" +:+ host (loc x))
             else _cors x.
Proof.
  intros H. cbv zeta.
  set (u := URL_parse_resolve env (href (loc x)) url0).
  set (port := if bool_decide ((u_protocol u = "https:" ∧ u_port u = "443") ∨
                               (u_protocol u = "http:" ∧ u_port u = "80"))
               then "" else u_port u).
  set (hostname_ := if bool_decide (u_hostname u = "") then hostname (loc x) else u_hostname u).
  set (host_ := if bool_decide (port = "") then hostname_ else hostname_ +:+ ":" +:+ port).
  unfold open in H.
  destruct (bool_decide (useAsync = Some false)); [done|].
  pose proof (abort_loc x) as Hloc.
  pose proof (abort_quiet x) as (Heff & Hlen & Hcors & _).
  destruct (abort x) as [xa [e|[]]]; [done|]. simpl in Hloc, Heff, Hlen, Hcors.
  destruct (isForbiddenMethod _); [done|].
  destruct (isSupportedMethod _) eqn:Hsup; [|done].
  cbv zeta in H. rewrite !Hloc in H.
  fold u in H. fold port in H. fold hostname_ in H. fold host_ in H.
  destruct (isHTTP _); [|done].
  simpl negb in H. cbv iota in H.
  rewrite <- Heff, <- Hlen, <- Hcors.
  destruct (bool_decide (host_ ≠ host (loc x))); injection H as <-; destruct xa; simpl in *.
  all: split; [done|]; split; [done|]; split; [done|]; split; [done|]; split; [done|].
  all: split; [|done].
  all: eexists; split; [by apply list_lookup_middle|]; done.
Qed.

(** X18: what [open] refuses, on an object in the state UNSENT: a
    synchronous request and a URL that is not http(s) with
    NOT_SUPPORTED_ERR, the methods CONNECT, TRACE and TRACK with
    SECURITY_ERR, any method outside the six supported with SYNTAX_ERR, in
    whatever case the method is written.  A refused [open] changes nothing
    and fires nothing. *)
Theorem open_refusals env x method0 url0 useAsync user password :
  state x = UNSENT →
  let r := open env x method0 url0 useAsync user password in
  let m := JS.toUpperCase method0 in
  (useAsync = Some false →
     r = (x, inl (Dom (mkDOMException NOT_SUPPORTED_ERR
                         "Zombie does not support synchronous XHR requests")))) ∧
  (useAsync ≠ Some false → isForbiddenMethod m = true →
     r = (x, inl (Dom (mkDOMException SECURITY_ERR "Unsupported HTTP method")))) ∧
  (useAsync ≠ Some false → isForbiddenMethod m = false → isSupportedMethod m = false →
     r = (x, inl (Dom (mkDOMException SYNTAX_ERR "Unsupported HTTP method")))) ∧
  (useAsync ≠ Some false → isSupportedMethod m = true →
   isHTTP (u_protocol (URL_parse_resolve env (href (loc x)) url0)) = false →
     r = (x, inl (Dom (mkDOMException NOT_SUPPORTED_ERR "Only HTTP/S protocol supported")))).
Proof.
  intros Hs r m. subst r m.
  assert (abort x = (x, inr tt)) as Ha.
  { unfold abort. rewrite bool_decide_true by done. by destruct x; simpl in *; subst. }
  unfold open. rewrite Ha. split; [|split; [|split]].
  - intros ->. by rewrite bool_decide_true.
  - intros Hu Hf. rewrite bool_decide_false by done. by rewrite Hf.
  - intros Hu Hf Hsup. rewrite bool_decide_false by done. by rewrite Hf, Hsup.
  - intros Hu Hsup Hp. rewrite bool_decide_false by done.
    assert (isForbiddenMethod (JS.toUpperCase method0) = false) as ->.
    { unfold isSupportedMethod, isForbiddenMethod in *.
      apply bool_decide_eq_true in Hsup. apply bool_decide_eq_false.
      intros [H|[H|H]]; rewrite H in Hsup; clear -Hsup;
        destruct Hsup as [?|[?|[?|[?|[?|?]]]]]; discriminate. }
    rewrite Hsup. cbv zeta. by rewrite Hp.
Qed.

(** X19: [open] aborts the request in flight before it looks at its own
    arguments: on an object whose pending request was sent, any
    asynchronous [open], accepted or refused, leaves that request marked
    aborted. *)
Theorem open_aborts_pending env x r q method0 url0 useAsync user password :
  _pending x = Some r → requests x !! r = Some q → sent q = true → state x = OPENED →
  useAsync ≠ Some false →
  let x' := (open env x method0 url0 useAsync user password).1 in
  aborted <$> requests x' !! r = Some true.
Proof.
  intros Hp Hq Hsent Hs Hu x'. subst x'.
  assert (r < length (requests x)) as Hlt by by eapply lookup_lt_Some.
  assert (abort x = (update_request x r mark_aborted, inr tt)) as Ha.
  { unfold abort. rewrite Hs, Hp. simpl. rewrite Hq, Hsent. done. }
  destruct (update_request_spec x r q mark_aborted Hq) as (Hr & _).
  assert (aborted <$> requests (update_request x r mark_aborted) !! r = Some true) as Hab.
  { by rewrite Hr, list_lookup_insert_eq. }
  unfold open. rewrite bool_decide_false by done. rewrite Ha.
  destruct (isForbiddenMethod _); [done|].
  destruct (isSupportedMethod _); [|done].
  cbv zeta. destruct (isHTTP _); [|done]. simpl negb. cbv iota.
  set (xa := update_request x r mark_aborted) in *.
  assert (r < length (requests xa)) as Hlt'.
  { subst xa. by rewrite Hr, length_insert. }
  destruct (bool_decide (_ ≠ host (loc xa))); destruct xa; simpl in *;
    by rewrite lookup_app_l.
Qed.

Lemma getProp_setProp_same (o : JS.object) k v : JS.getProp (JS.setProp o k v) k = Some v.
Proof. rewrite getProp_setProp. by rewrite bool_decide_true. Qed.

Lemma getProp_setProp_other (o : JS.object) k k' v :
  k ≠ k' → JS.getProp (JS.setProp o k v) k' = JS.getProp o k'.
Proof. intros H. rewrite getProp_setProp. by rewrite bool_decide_false. Qed.

(** X20: request headers.  [setRequestHeader] stores the value under the
    lower-case name, replacing an earlier value of that name in any case
    and touching no other header; the one name it stores nothing under is
    [__proto__], which the header object, an object literal, hands to the
    inherited setter: the headers stay as they were.  [send] then issues the
    request once, after one [loadstart] event, with the body given, the
    timeout of the object, and the content type [text/plain] unless a
    non-empty one was set; the state stays OPENED. *)
Theorem request_headers_and_send x r q name value data :
  state x = OPENED → _pending x = Some r → requests x !! r = Some q →
  let x1 := (setRequestHeader x name value).1 in
  let x2 := (send x1 data).1 in
  (setRequestHeader x name value).2 = inr tt ∧ (send x1 data).2 = inr tt ∧
  effects x1 = effects x ∧
  effects x2 = effects x ++ [Fire "loadstart" OPENED None; Http r] ∧
  state x2 = OPENED ∧ _pending x2 = Some r ∧
  ∃ q1 q2,
    requests x1 !! r = Some q1 ∧ requests x2 !! r = Some q2 ∧
    (JS.toLowerCase name ≠ "__proto__" →
       JS.getProp (headers q1) (JS.toLowerCase name) = Some value) ∧
    (JS.toLowerCase name = "__proto__" → headers q1 = headers q) ∧
    (∀ k, k ≠ JS.toLowerCase name → JS.getProp (headers q1) k = JS.getProp (headers q) k) ∧
    JS.getProp (headers q2) "content-type"
    = Some (match JS.getProp (headers q1) "content-type" with
            | Some "" | None => "text/plain"
            | Some v => v
            end) ∧
    (∀ k, k ≠ "content-type" → JS.getProp (headers q2) k = JS.getProp (headers q1) k) ∧
    body q2 = data ∧ timeout q2 = x_timeout x ∧ sent q2 = true ∧
    aborted q2 = aborted q ∧ method q2 = method q ∧ url q2 = url q.
Proof.
  intros Hs Hp Hq x1 x2.
  assert (r < length (requests x)) as Hlt by by eapply lookup_lt_Some.
  set (f := λ q : request,
         Request (method q) (JS.assign (headers q) (JS.toLowerCase name) value)
                 (url q) (body q) (timeout q) (sent q) (aborted q)).
  assert (setRequestHeader x name value = (update_request x r f, inr tt)) as H1.
  { unfold setRequestHeader. rewrite bool_decide_false by (intros HH; by apply HH).
    by rewrite Hp. }
  destruct (update_request_spec x r q f Hq)
    as (Hr1 & He1 & Hs1 & Hp1 & _ & _ & _ & _ & Ht1).
  subst x2 x1. rewrite H1. cbn [fst snd].
  set (x1 := update_request x r f) in *.
  assert (requests x1 !! r = Some (f q)) as Hq1.
  { by rewrite Hr1, list_lookup_insert_eq. }
  unfold send. rewrite bool_decide_false by (rewrite Hs1, Hs; intros HH; by apply HH).
  rewrite Hp1, Hp. cbv zeta. cbn [fst snd].
  set (xa := _fire x1 "loadstart" None).
  set (g := λ q0 : request,
         Request (method q0)
           match JS.getProp (headers q0) "content-type" with
           | Some "" | None => JS.setProp (headers q0) "content-type" "text/plain"
           | Some _ => headers q0
           end (url q0) data (x_timeout xa) (sent q0) (aborted q0)).
  assert (requests xa = requests x1 ∧ effects xa = effects x1 ++ [Fire "loadstart" OPENED None]
          ∧ state xa = OPENED ∧ _pending xa = Some r ∧ x_timeout xa = x_timeout x) as
    (Hra & Hea & Hsa & Hpa & Hta).
  { subst xa. unfold _fire, emit. simpl. rewrite Hs1, Hs, Hp1, Hp, Ht1. done. }
  assert (requests xa !! r = Some (f q)) as Hqa by by rewrite Hra.
  destruct (update_request_spec xa r (f q) g Hqa)
    as (Hrb & Heb & Hsb & Hpb & _).
  set (xb := update_request xa r g) in *.
  set (xc := emit xb (Http r)).
  assert (requests xc = requests xb ∧ effects xc = effects xb ++ [Http r]
          ∧ state xc = state xb ∧ _pending xc = _pending xb) as (Hrc & Hec & Hsc & Hpc).
  { subst xc. by unfold emit. }
  assert (r < length (requests xa)) as Hlta by (rewrite Hra, Hr1, length_insert; done).
  assert (requests xc !! r = Some (g (f q))) as Hqc.
  { by rewrite Hrc, Hrb, list_lookup_insert_eq. }
  destruct (update_request_spec xc r (g (f q)) mark_sent Hqc)
    as (Hrd & Hed & Hsd & Hpd & _).
  split; [done|]. split; [done|]. split; [done|].
  split; [by rewrite Hed, Hec, Heb, Hea, He1, <- app_assoc|].
  split; [by rewrite Hsd, Hsc, Hsb|]. split; [by rewrite Hpd, Hpc, Hpb|].
  exists (f q), (mark_sent (g (f q))).
  split; [done|]. split.
  { rewrite Hrd. apply list_lookup_insert_eq.
    by rewrite Hrc, Hrb, length_insert. }
  split.
  { intros Hn. cbn [f headers]. unfold JS.assign. rewrite bool_decide_false by done.
    apply getProp_setProp_same. }
  split.
  { intros Hn. cbn [f headers]. unfold JS.assign. by rewrite bool_decide_true. }
  split.
  { intros k Hk. cbn [f headers]. unfold JS.assign. case_bool_decide; [done|].
    by apply getProp_setProp_other. }
  change (headers (mark_sent (g (f q))))
    with (match JS.getProp (headers (f q)) "content-type" with
          | Some "" | None => JS.setProp (headers (f q)) "content-type" "text/plain"
          | Some _ => headers (f q)
          end).
  generalize (headers (f q)). intros hh.
  split.
  { destruct (JS.getProp hh "content-type") as [[|]|] eqn:Hct;
      rewrite ?getProp_setProp_same, ?Hct; done. }
  split.
  { intros k Hk. destruct (JS.getProp hh "content-type") as [[|]|] eqn:Hct;
      rewrite ?getProp_setProp_other by done; done. }
  cbn [body timeout sent aborted method url mark_sent]. subst g f. cbn beta.
  cbn [body timeout sent aborted method url]. by rewrite Hta.
Qed.

Ltac xhr_eval :=
  lazy beta iota zeta delta
    [completeAborted completeError completeRejected completeLoaded
     _stateChanged _fire raise emit set_state set_error set_pending set_response
     loc state _pending _cors _url _response _error x_timeout requests effects].

Lemma completeAborted_fields x :
  state (completeAborted x) = DONE ∧ _pending (completeAborted x) = _pending x ∧
  _response (completeAborted x) = _response x ∧
  _error (completeAborted x) = Some abortError ∧
  requests (completeAborted x) = requests x.
Proof. destruct x. by xhr_eval. Qed.

Lemma completeError_fields x error :
  state (completeError x error) = DONE ∧ _pending (completeError x error) = _pending x ∧
  _response (completeError x error) = _response x ∧
  _error (completeError x error)
  = Some (if bool_decide (e_code error = "ETIMEDOUT")
          then mkDOMException TIMEOUT_ERR "The request timed out"
          else mkDOMException NETWORK_ERR (e_message error)) ∧
  requests (completeError x error) = requests x.
Proof.
  destruct x. unfold completeError.
  destruct (bool_decide (e_code error = "ETIMEDOUT")); by xhr_eval.
Qed.

Lemma completeRejected_fields x :
  state (completeRejected x) = DONE ∧ _pending (completeRejected x) = _pending x ∧
  _response (completeRejected x) = _response x ∧
  _error (completeRejected x) = Some corsError ∧
  requests (completeRejected x) = requests x.
Proof. destruct x. by xhr_eval. Qed.

Lemma completeLoaded_fields x response :
  state (completeLoaded x response) = DONE ∧
  _pending (completeLoaded x response) = _pending x ∧
  _response (completeLoaded x response) = Some response ∧
  _error (completeLoaded x response) = _error x ∧
  requests (completeLoaded x response) = requests x.
Proof. destruct x. by xhr_eval. Qed.

(** The object after the completion callback, on whichever path. *)
Lemma complete_fields x r outcome :
  let x' := complete x r outcome in
  state x' = DONE ∧
  _pending x' = (if bool_decide (_pending x = Some r) then None else _pending x) ∧
  requests x' = requests x ∧
  (_response x' = _response x ∧ is_Some (_error x') ∨
   ∃ response, outcome = inr response ∧ _response x' = Some response ∧ _error x' = _error x).
Proof.
  unfold complete. cbv zeta.
  set (x0 := if bool_decide (_pending x = Some r) then set_pending x None else x).
  assert (requests x0 = requests x ∧ _response x0 = _response x ∧ _error x0 = _error x ∧
          _cors x0 = _cors x ∧
          _pending x0 = if bool_decide (_pending x = Some r) then None else _pending x)
    as (Hr & Hre & Her & Hco & Hp).
  { subst x0. by case_bool_decide. }
  destruct (match requests x0 !! r with Some q => aborted q | None => false end).
  { destruct (completeAborted_fields x0) as (-> & -> & -> & -> & ->).
    rewrite Hp, Hr, Hre. split; [done|]. split; [done|]. split; [done|]. left. by eauto. }
  destruct outcome as [error|response].
  { destruct (completeError_fields x0 error) as (-> & -> & -> & -> & ->).
    rewrite Hp, Hr, Hre. split; [done|]. split; [done|]. split; [done|]. left. by eauto. }
  destruct (_cors x0) as [cors|].
  - destruct (negb _).
    + destruct (completeRejected_fields x0) as (-> & -> & -> & -> & ->).
      rewrite Hp, Hr, Hre. split; [done|]. split; [done|]. split; [done|]. left. by eauto.
    + destruct (completeLoaded_fields x0 response) as (-> & -> & -> & -> & ->).
      rewrite Hp, Hr, Her. split; [done|]. split; [done|]. split; [done|]. right. by eauto.
  - destruct (completeLoaded_fields x0 response) as (-> & -> & -> & -> & ->).
    rewrite Hp, Hr, Her. split; [done|]. split; [done|]. split; [done|]. right. by eauto.
Qed.

(** X21: an object whose request has completed, on whichever path, is in
    the state DONE with no pending request, and is not usable again:
    [send] and [setRequestHeader] are refused with INVALID_STATE_ERR, and
    [open], which starts by aborting the pending request, fails with a
    type error on the request that is no longer there. *)
Theorem completed_object_is_final env x r outcome :
  _pending x = Some r →
  let x' := complete x r outcome in
  state x' = DONE ∧ _pending x' = None ∧
  (∀ data, send x' data = (x', inl (Dom (mkDOMException INVALID_STATE_ERR "Invalid state")))) ∧
  (∀ name value,
     setRequestHeader x' name value
     = (x', inl (Dom (mkDOMException INVALID_STATE_ERR "Invalid state")))) ∧
  (∃ msg, abort x' = (x', inl (TypeError msg))) ∧
  (∀ method0 url0 user password,
     ∃ msg, open env x' method0 url0 None user password = (x', inl (TypeError msg))).
Proof.
  intros Hp x'. destruct (complete_fields x r outcome) as (Hs & Hp' & _).
  fold x' in Hs, Hp'. rewrite bool_decide_true in Hp' by done.
  assert (abort x' = (x', inl (TypeError "Cannot read property of null"))) as Ha.
  { unfold abort. rewrite Hs, Hp'. by rewrite bool_decide_false. }
  split; [done|]. split; [done|]. split; [|split; [|split]].
  - intros data. unfold send. rewrite Hs. by rewrite bool_decide_true.
  - intros name value. unfold setRequestHeader. rewrite Hs. by rewrite bool_decide_true.
  - by eexists.
  - intros method0 url0 user password. eexists. unfold open.
    rewrite bool_decide_false by done. by rewrite Ha.
Qed.

(** X22: what the getters answer after a completion that started without
    a response.  After a response that was accepted: its status code, its
    status text, its body, and its headers under any casing of their
    lower-case names.  After any other completion (abort, error, timeout,
    refused origin): status 0, an empty status text, and no text, headers
    or header list. *)
Theorem getters_after_completion x r outcome :
  _response x = None →
  let x' := complete x r outcome in
  (∀ response, _response x' = Some response →
     outcome = inr response ∧
     status x' = Some (statusCode response) ∧
     statusTextOf x' = Some (statusText response) ∧
     responseText x' = Some (r_body response) ∧
     ∀ name v, JS.getProp (r_headers response) (JS.toLowerCase name) = Some v → v ≠ "" →
               getResponseHeader x' name = Some v) ∧
  (_response x' = None →
     status x' = Some 0 ∧ statusTextOf x' = Some "" ∧ responseText x' = None ∧
     getAllResponseHeaders x' = None ∧ ∀ name, getResponseHeader x' name = None).
Proof.
  intros Hnone x'. destruct (complete_fields x r outcome) as (Hs & _ & _ & Hcase).
  fold x' in Hs, Hcase. split.
  - intros response Hresp.
    destruct Hcase as [[Hsame _]|(response' & -> & Hr' & _)]; [congruence|].
    assert (response' = response) as -> by congruence.
    unfold status, statusTextOf, responseText, getResponseHeader.
    rewrite Hresp, Hs. split; [done|]. split; [done|]. split; [done|].
    split; [done|]. intros name v -> Hv. by destruct v.
  - intros Hresp. destruct Hcase as [[_ [e He]]|(response' & _ & Hr' & _)]; [|congruence].
    unfold status, statusTextOf, responseText, getResponseHeader, getAllResponseHeaders.
    by rewrite Hresp, He.
Qed.

End XHRCalls.

(** The theorem at a request aborted before [send], and at one aborted
    after it. *)
Lemma abort_idempotent_witness :
  let x1 := (XHR.open Sample.xhrEnv (XHR.new Sample.location) "get" "/data" None "" "").1 in
  let early := (XHR.abort x1).1 in
  let x2 := (XHR.send x1 None).1 in
  let x3 := (XHR.abort x2).1 in
  (XHR.abort early = (early, inr tt) ∧ XHR.state early = XHR.UNSENT ∧
   XHR.requests early = XHR.requests x1) ∧
  (XHR.abort x3 = (x3, inr tt) ∧ XHR.effects x3 = XHR.effects x2 ∧
   XHR.state x3 = XHR.OPENED ∧
   XHR.requests x3
   = [XHR.Request "GET" [("content-type", "text/plain")] "http://example.test/data"
        None 0 true true]).
Proof.
  intros x1 early x2 x3. split.
  - destruct (abort_idempotent x1 early) as (H1 & _ & _ & _ & Hearly & _);
      [vm_compute; reflexivity|].
    destruct Hearly as (Hs & _ & Hr).
    { right. eexists 0, _. vm_compute. by repeat split. }
    split; [exact H1|split; [exact Hs|exact Hr]].
  - destruct (abort_idempotent x2 x3) as (H1 & H2 & _ & _ & _ & Hlate);
      [vm_compute; reflexivity|].
    destruct (Hlate 0 (XHR.Request "GET" [("content-type", "text/plain")]
                         "http://example.test/data" None 0 true false))
      as (Hs & _ & Hr);
      [vm_compute; discriminate|vm_compute; reflexivity|vm_compute; reflexivity|done|].
    split; [exact H1|]. split; [exact H2|]. split.
    + rewrite Hs. vm_compute. reflexivity.
    + rewrite Hr. vm_compute. reflexivity.
Defined.

(** The theorem at an object opened on another host and then, before
    any [send], on the document's own: the second request carries no
    [origin] header, and the mark of the first is still there. *)
Lemma open_success_witness :
  let x1 := (XHR.open Sample.xhrEnv (XHR.new Sample.location) "get"
               "http://other.test/data" None "" "").1 in
  let x2 := (XHR.open Sample.xhrEnv x1 "post" "/data" None "" "").1 in
  XHR.state x2 = XHR.OPENED ∧
  XHR._pending x2 = Some 1 ∧
  XHR._cors x2 = Some "http://example.test".
Proof.
  intros x1 x2.
  destruct (open_success Sample.xhrEnv x1 "post" "/data" None "" "" x2)
    as (Hs & _ & _ & _ & Hp & _ & Hc); [vm_compute; reflexivity|].
  split; [exact Hs|]. split; [exact Hp|]. exact Hc.
Defined.

(** The theorem at a new object: a TRACE request, a PATCH request and a
    [file:] URL. *)
Lemma open_refusals_witness :
  let x := XHR.new Sample.location in
  XHR.open Sample.xhrEnv x "trace" "/data" None "" ""
  = (x, inl (XHR.Dom (XHR.mkDOMException XHR.SECURITY_ERR "Unsupported HTTP method"))) ∧
  XHR.open Sample.xhrEnv x "patch" "/data" None "" ""
  = (x, inl (XHR.Dom (XHR.mkDOMException XHR.SYNTAX_ERR "Unsupported HTTP method"))) ∧
  XHR.open Sample.xhrEnv x "get" "file:///srv/index.html" None "" ""
  = (x, inl (XHR.Dom (XHR.mkDOMException XHR.NOT_SUPPORTED_ERR
                        "Only HTTP/S protocol supported"))).
Proof.
  intros x. split; [|split].
  - by apply (open_refusals Sample.xhrEnv x "trace" "/data" None "" "" eq_refl).
  - by apply (open_refusals Sample.xhrEnv x "patch" "/data" None "" "" eq_refl).
  - by apply (open_refusals Sample.xhrEnv x "get" "file:///srv/index.html" None "" "" eq_refl).
Defined.

(** The theorem at a request in flight and an [open] with a method that
    is refused. *)
Lemma open_aborts_pending_witness :
  let x1 := (XHR.open Sample.xhrEnv (XHR.new Sample.location) "get" "/data" None "" "").1 in
  let x2 := (XHR.send x1 None).1 in
  let tried := XHR.open Sample.xhrEnv x2 "trace" "/other" None "" "" in
  XHR.aborted <$> XHR.requests tried.1 !! 0 = Some true.
Proof.
  intros x1 x2 tried.
  eapply (open_aborts_pending Sample.xhrEnv x2 0 _ "trace" "/other" None "" "");
    [vm_compute; reflexivity|vm_compute; reflexivity|vm_compute; reflexivity|vm_compute; reflexivity|discriminate].
Defined.

(** The theorem at a request given a content type in upper case, and at
    one given the name [__proto__]. *)
Lemma request_headers_and_send_witness :
  let x := (XHR.open Sample.xhrEnv (XHR.new Sample.location) "post" "/data" None "" "").1 in
  let x1 := (XHR.setRequestHeader x "Content-Type" "application/json").1 in
  let x2 := (XHR.send x1 (Some "{}")).1 in
  let y1 := (XHR.setRequestHeader x "__Proto__" "x").1 in
  XHR.effects x2
  = XHR.effects x ++ [XHR.Fire "loadstart" XHR.OPENED None; XHR.Http 0] ∧
  XHR.state x2 = XHR.OPENED ∧
  (∃ q1, XHR.requests x1 !! 0 = Some q1 ∧
         JS.getProp (XHR.headers q1) "content-type" = Some "application/json") ∧
  (∃ q1, XHR.requests y1 !! 0 = Some q1 ∧ XHR.headers q1 = []).
Proof.
  intros x x1 x2 y1.
  destruct (request_headers_and_send x 0 (XHR.Request "POST" [] "http://example.test/data"
                                            None 0 false false)
              "Content-Type" "application/json" (Some "{}"))
    as (_ & _ & _ & He & Hs & _ & q1 & q2 & Hq1 & _ & Hstored & _);
    [vm_compute; reflexivity|vm_compute; reflexivity|vm_compute; reflexivity|].
  destruct (request_headers_and_send x 0 (XHR.Request "POST" [] "http://example.test/data"
                                            None 0 false false)
              "__Proto__" "x" None)
    as (_ & _ & _ & _ & _ & _ & p1 & p2 & Hp1 & _ & _ & Hproto & _);
    [vm_compute; reflexivity|vm_compute; reflexivity|vm_compute; reflexivity|].
  split; [exact He|]. split; [exact Hs|]. split.
  - exists q1. split; [exact Hq1|]. apply Hstored. vm_compute. discriminate.
  - exists p1. split; [exact Hp1|]. apply Hproto. vm_compute. reflexivity.
Defined.

(** The theorem at a request answered by the server. *)
Lemma completed_object_is_final_witness :
  let x1 := (XHR.open Sample.xhrEnv (XHR.new Sample.location) "get" "/data" None "" "").1 in
  let x2 := (XHR.send x1 None).1 in
  let x3 := XHR.complete x2 0 (inr (XHR.Response 200 "OK" [] "hi")) in
  XHR.state x3 = XHR.DONE ∧
  ∃ msg, XHR.open Sample.xhrEnv x3 "get" "/data" None "" "" = (x3, inl (XHR.TypeError msg)).
Proof.
  intros x1 x2 x3.
  destruct (completed_object_is_final Sample.xhrEnv x2 0 (inr (XHR.Response 200 "OK" [] "hi")))
    as (Hs & _ & _ & _ & _ & Ho); [vm_compute; reflexivity|].
  split; [exact Hs|]. apply Ho.
Defined.

(** The theorem at a request answered by the server, and at one that
    fails on the network. *)
Lemma getters_after_completion_witness :
  let x1 := (XHR.open Sample.xhrEnv (XHR.new Sample.location) "get" "/data" None "" "").1 in
  let x2 := (XHR.send x1 None).1 in
  let answer := XHR.Response 200 "OK" [("content-type", "text/plain")] "hi" in
  XHR.getResponseHeader (XHR.complete x2 0 (inr answer)) "Content-Type" = Some "text/plain" ∧
  XHR.status (XHR.complete x2 0 (inl (XHR.NetError "ECONNREFUSED" "refused"))) = Some 0.
Proof.
  intros x1 x2 answer. split.
  - destruct (getters_after_completion x2 0 (inr answer)) as [H _]; [vm_compute; reflexivity|].
    destruct (H answer) as (_ & _ & _ & _ & Hh); [vm_compute; reflexivity|].
    apply Hh; [vm_compute; reflexivity|discriminate].
  - destruct (getters_after_completion x2 0 (inl (XHR.NetError "ECONNREFUSED" "refused")))
      as [_ H]; [vm_compute; reflexivity|].
    destruct H as (Hst & _); [vm_compute; reflexivity|]. exact Hst.
Defined.

(** ** The resource pipeline: the handlers one by one *)

Section HandlerFacts.
Import Resources.
Context (env : Env) (b : browser).

(** X23: [handleResponse] hands the [Set-Cookie] values of every
    response to an http(s) request to the cookie store, once, before it
    decides anything else: also for a response it then follows as a
    redirect, and for one it refuses as one redirect too many.  For a
    request of another scheme the store is not called.  Nothing else in the
    world changes but the redirect event. *)
Theorem handleResponse_stores_cookies w req res :
  let u := URL_parse env (url req) in
  let w' := (handleResponse env b w req res).1 in
  cookieUpdates w'
  = cookieUpdates w ++
    (if isHTTP (protocol u)
     then [(Headers.getAll (Headers.of_list (res_headers res)) "Set-Cookie",
            hostname u, pathname u)]
     else []) ∧
  history w' = history w ∧ fsOps w' = fsOps w ∧ logged w' = logged w ∧
  (emitted w' = emitted w ∨
   ∃ res' rr, (handleResponse env b w req res).2 = ResResubmit rr ∧
              emitted w' = emitted w ++ [EvRedirect req res' rr]).
Proof.
  intros u w'. subst w' u.
  destruct (isHTTP (protocol (URL_parse env (url req)))) eqn:Hhttp.
  2:{ rewrite handleResponse_not_http by done. simpl. rewrite app_nil_r. split_and!; auto. }
  destruct (decide (redirectUrl env req (withHeaders res) = "")) as [Hno|Hyes].
  { rewrite handleResponse_no_redirect by done. destruct w; simpl. split_and!; auto. }
  destruct (decide (maxRedirects b < S (redirects req))%nat) as [Hmax|Hmax].
  { rewrite handleResponse_too_many by done. destruct w; simpl. split_and!; auto. }
  destruct (handleResponse_follow env b w req res Hhttp Hyes)
    as (rr & res' & -> & _); [lia|].
  destruct w; simpl. split; [done|]. split; [done|]. split; [done|]. split; [done|].
  right. by exists res', rr.
Qed.

(** X24: the request that follows a redirect.  Its headers are those of
    the redirected request with [Referer] set to the URL of that request
    and without [Content-Type], [Content-Length] and
    [Content-Transfer-Encoding]; every other header is carried over.  It
    has no body, no parameters and no multipart, and keeps the time, the
    timeout and the certificate checking of the redirected request. *)
Theorem redirect_request_headers w req res rr :
  (handleResponse env b w req res).2 = ResResubmit rr →
  Headers.getAll (headers rr) "Referer" = [JS.replaceCRLF (url req)] ∧
  Headers.has (headers rr) "Content-Type" = false ∧
  Headers.has (headers rr) "Content-Length" = false ∧
  Headers.has (headers rr) "Content-Transfer-Encoding" = false ∧
  (∀ n, JS.toLowerCase n ≠ "referer" → JS.toLowerCase n ≠ "content-type" →
        JS.toLowerCase n ≠ "content-length" →
        JS.toLowerCase n ≠ "content-transfer-encoding" →
        Headers.getAll (headers rr) n = Headers.getAll (Headers.of_list (headers req)) n) ∧
  req_body rr = NoBody ∧ req_params rr = None ∧ multipart rr = None ∧
  time rr = time req ∧ timeout rr = timeout req ∧ strictSSL rr = strictSSL req.
Proof.
  unfold handleResponse. cbv zeta.
  destruct (negb (isHTTP _)); [done|].
  destruct (negb (bool_decide _)); [|done].
  destruct (bool_decide (maxRedirects b < _)%nat); [done|].
  simpl. intros [= <-]. cbn [headers req_body req_params multipart time timeout strictSSL].
  split.
  { rewrite !getAll_delete_other by done. apply getAll_set_same. }
  split.
  { rewrite !has_delete_other by done. apply has_delete. }
  split.
  { rewrite has_delete_other by done. apply has_delete. }
  split; [apply has_delete|].
  split; [|done].
  intros n H1 H2 H3 H4. rewrite !getAll_delete_other by done.
  by apply getAll_set_other.
Qed.

(** X25: the headers [mergeHeaders] leaves in the request.  [Host] has
    one value, the host of the request URL, whatever was given.  A header of
    the request comes before the browser's header of the same name, so it
    is the one [get] answers with; [User-Agent] is the browser's user agent
    only when neither gave one.  [authorization] is set exactly when the
    authenticate listeners gave both a user name and a password.  The
    handler always passes on, and changes nothing else in the request. *)
Theorem mergeHeaders_result w req :
  let host := host (URL_parse env (url req)) in
  let given := Headers.appendAll (headers req) (b_headers b) in
  ∃ w' hs,
    mergeHeaders env b w req = (w', set_headers req hs, ReqNext) ∧
    Headers.getAll hs "Host" = [JS.replaceCRLF host] ∧
    Headers.get hs "User-Agent"
    = Some (default (JS.replaceCRLF (userAgent b)) (Headers.get given "User-Agent")) ∧
    (∀ n, Headers.has (headers req) n = true → JS.toLowerCase n ≠ "host" →
          JS.toLowerCase n ≠ "authorization" →
          Headers.get hs n = Headers.get (headers req) n) ∧
    match authenticate env host with
    | Some (username, password) =>
        if bool_decide (username ≠ "" ∧ password ≠ "") then
          Headers.getAll hs "authorization"
          = [JS.replaceCRLF ("Basic " +:+ base64 env (username +:+ ":" +:+ password))] ∧
          logged w' = logged w ++ ["Authenticating as " +:+ username +:+ ":" +:+ password]
        else Headers.getAll hs "authorization" = Headers.getAll given "authorization" ∧
             logged w' = logged w
    | None =>
        Headers.getAll hs "authorization" = Headers.getAll given "authorization" ∧
        logged w' = logged w
    end.
Proof.
  intros host given.
  set (h1 := if negb (Headers.has given "User-Agent")
             then Headers.set given "User-Agent" (userAgent b) else given).
  set (h2 := Headers.set h1 "Host" host).
  assert (Headers.get h1 "User-Agent"
          = Some (default (JS.replaceCRLF (userAgent b)) (Headers.get given "User-Agent")))
    as Hua.
  { subst h1. destruct (Headers.has given "User-Agent") eqn:Hhas; simpl.
    - destruct (get_has _ _ Hhas) as [v ->]. done.
    - rewrite get_set_same. apply get_none_iff in Hhas. by rewrite Hhas. }
  assert (∀ n, Headers.has (headers req) n = true →
               Headers.get h1 n = Headers.get (headers req) n) as Hown.
  { intros n Hn. destruct (get_has _ _ Hn) as [v Hv].
    assert (Headers.get given n = Some v) as Hg.
    { subst given. by rewrite appendAll_app, get_app, Hv. }
    subst h1. destruct (Headers.has given "User-Agent") eqn:Hhas; simpl; [congruence|].
    destruct (decide (JS.toLowerCase n = "user-agent")) as [Heq|Hne].
    - apply get_none_iff in Hhas. unfold Headers.get in Hhas, Hg.
      change (JS.toLowerCase "User-Agent") with "user-agent" in Hhas.
      rewrite Heq in Hg. congruence.
    - rewrite get_set_other by done. congruence. }
  assert (Headers.getAll h2 "Host" = [JS.replaceCRLF host]) as Hhost
    by apply getAll_set_same.
  assert (Headers.get h2 "User-Agent" = Headers.get h1 "User-Agent") as Hua2
    by by apply get_set_other.
  assert (∀ n, JS.toLowerCase n ≠ "host" → Headers.get h2 n = Headers.get h1 n) as Hframe
    by (intros n Hn; by apply get_set_other).
  assert (Headers.getAll h2 "authorization" = Headers.getAll given "authorization") as Hauth.
  { subst h2 h1. rewrite getAll_set_other by done.
    destruct (negb _); [|done]. by rewrite getAll_set_other. }
  unfold mergeHeaders. cbv zeta. fold given. fold h1. fold host. fold h2.
  destruct (authenticate env host) as [[username password]|].
  - destruct (decide (username ≠ "" ∧ password ≠ "")) as [[Hu Hp]|Hno].
    + rewrite (bool_decide_false (username = "")), (bool_decide_false (password = "")) by done.
      rewrite bool_decide_true by done. simpl.
      eexists _, _. split; [reflexivity|].
      split; [by rewrite getAll_set_other|].
      split; [by rewrite get_set_other, Hua2|].
      split; [|split; [apply getAll_set_same|by destruct w]].
      intros n Hn H1 H2. rewrite get_set_other, Hframe by done. by apply Hown.
    + rewrite (bool_decide_false (_ ∧ _)) by done.
      assert (negb (bool_decide (username = "")) && negb (bool_decide (password = "")) = false)
        as ->.
      { do 2 case_bool_decide; try done. destruct Hno. done. }
      eexists _, _. split; [reflexivity|].
      split; [done|]. split; [by rewrite Hua2|].
      split; [|split; [done|by destruct w]].
      intros n Hn H1 H2. rewrite Hframe by done. by apply Hown.
  - eexists _, _. split; [reflexivity|].
    split; [done|]. split; [by rewrite Hua2|].
    split; [|split; [done|by destruct w]].
    intros n Hn H1 H2. rewrite Hframe by done. by apply Hown.
Qed.

(** X26: the body [createBody] gives a POST or PUT request that has none
    and names no content type: the content type becomes
    [application/x-www-form-urlencoded], the body the query string of the
    parameters (of no parameters when there are none), and [content-length]
    its length.  A request that already has a body keeps it, and gets no
    [content-length]; a request of another method is passed on as it is. *)
Theorem createBody_form_default w req :
  let form := "application/x-www-form-urlencoded" in
  let query := QS_stringify env (default [] (req_params req)) in
  (method req ≠ "POST" → method req ≠ "PUT" → createBody env b w req = (w, req, ReqNext)) ∧
  (method req = "POST" ∨ method req = "PUT" →
   Headers.get (headers req) "content-type" = None ∨
   Headers.get (headers req) "content-type" = Some "" →
   ∃ req',
     createBody env b w req = (w, req', ReqNext) ∧
     url req' = url req ∧ method req' = method req ∧
     Headers.get (headers req') "content-type" = Some form ∧
     (bodyTruthy (req_body req) = false →
        req_body req' = Text query ∧
        Headers.getAll (headers req') "content-length"
        = [JS.replaceCRLF (pretty (String.length query))]) ∧
     (bodyTruthy (req_body req) = true →
        req_body req' = req_body req ∧
        Headers.getAll (headers req') "content-length"
        = Headers.getAll (headers req) "content-length")).
Proof.
  intros form query. split.
  - intros H1 H2. by apply createBody_other_method.
  - intros Hm Hct. unfold createBody. rewrite bool_decide_false by (intros [? ?]; by destruct Hm).
    cbv zeta.
    assert (match Headers.get (headers req) "content-type" with
            | Some "" | None => "application/x-www-form-urlencoded"
            | Some ct => ct
            end = form) as -> by (by destruct Hct as [-> | ->]).
    assert (set_headers (set_headers req (Headers.set (headers req) "content-type" form))
              = set_headers req) as Hss by (by destruct req).
    assert (Headers.get (headers (set_headers req (Headers.set (headers req) "content-type" form)))
              "content-type" = Some form) as Hget.
    { destruct req. simpl. apply get_set_same. }
    assert (Headers.get (Headers.set (headers req) "content-type" form) "content-type"
            = Some form) as Hget' by apply get_set_same.
    destruct req as [m u hs ps bd mp tm to ss la rd er]. simpl in *.
    rewrite Hget'. simpl.
    destruct (bodyTruthy bd) eqn:Hb.
    + eexists. split; [reflexivity|]. simpl. split; [done|]. split; [done|].
      split; [done|]. split; [done|]. intros _. split; [done|].
      by rewrite getAll_set_other.
    + eexists. split; [reflexivity|]. simpl. split; [done|]. split; [done|].
      split; [by rewrite get_set_other|]. split; [|done].
      intros _. split; [done|]. apply getAll_set_same.
Qed.

(** The headers [mergeHeaders] does not decide are the given ones. *)
Lemma mergeHeaders_frame w req :
  let given := Headers.appendAll (headers req) (b_headers b) in
  ∃ w' hs,
    mergeHeaders env b w req = (w', set_headers req hs, ReqNext) ∧
    (∀ n, JS.toLowerCase n ≠ "user-agent" → JS.toLowerCase n ≠ "host" →
          JS.toLowerCase n ≠ "authorization" → Headers.get hs n = Headers.get given n) ∧
    history w' = history w ∧ cookieUpdates w' = cookieUpdates w ∧ fsOps w' = fsOps w ∧
    ticks w' = ticks w ∧
    emitted w' = emitted w ++ [EvAuthenticate (host (URL_parse env (url req)))].
Proof.
  intros given. unfold mergeHeaders. cbv zeta. fold given.
  set (h1 := if negb (Headers.has given "User-Agent")
             then Headers.set given "User-Agent" (userAgent b) else given).
  assert (∀ n, JS.toLowerCase n ≠ "user-agent" → Headers.get h1 n = Headers.get given n) as H1.
  { intros n Hn. subst h1. destruct (negb _); [|done]. by apply get_set_other. }
  destruct (authenticate env _) as [[username password]|];
    [destruct (_ && _)|]; eexists _, _; (split; [reflexivity|]);
    (split; [|by destruct w]); intros n Ha Hb Hc;
    rewrite ?get_set_other by done; by apply H1.
Qed.

Lemma createBody_unsupported w req c :
  method req = "POST" ∨ method req = "PUT" →
  bodyTruthy (req_body req) = false →
  Headers.get (headers req) "content-type" = Some c → c ≠ "" →
  let mime := JS.splitHead ";" (JS.replaceCRLF c) in
  mime ≠ "application/x-www-form-urlencoded" → mime ≠ "multipart/form-data" →
  mime ≠ "text/plain" →
  ∃ req', createBody env b w req
          = (w, req', ReqFail (Error ("Unsupported content type " +:+ mime))).
Proof.
  intros Hm Hb Hct Hc mime H1 H2 H3. unfold createBody.
  rewrite bool_decide_false by (intros [? ?]; by destruct Hm).
  cbv zeta. rewrite Hct.
  assert (match c with "" => "application/x-www-form-urlencoded" | _ => c end = c) as ->
    by by destruct c.
  destruct req as [m u hs ps bd mp tm to ss la rd er]. simpl in *.
  rewrite get_set_same. simpl. fold mime. rewrite Hb.
  rewrite !bool_decide_false by done. by eexists.
Qed.

End HandlerFacts.

(** ** The resource pipeline: redirect chains *)

Section RedirectChains.
Import Resources.
Context (env : Env) (b : browser).




End RedirectChains.


(** The same chain against the sample server, run: three requests are
    made, two redirects are followed, and the resource holds the error. *)
Example loop_with_maximum_two :
  let finished :=
    Resources.request Sample.env (Sample.browser 2) Resources.pipeline 10 Sample.world
      "get" "http://example.test/loop" Resources.noOptions in
  finished.2 = Resources.Done (inl (Resources.Error "More than 2 redirects, giving up")) ∧
  Resources.countRedirects (Resources.emitted finished.1) = 2 ∧
  Resources.r_error <$> Resources.history finished.1
  = [Some (Resources.Error "More than 2 redirects, giving up")].
Proof. vm_compute. done. Qed.

(** ** The resource pipeline: whole fetches *)

Section WholeFetches.
Import Resources.
Context (env : Env) (b : browser).

Lemma syncRequest_frame w index req :
  cookieUpdates (syncRequest w index req) = cookieUpdates w ∧
  fsOps (syncRequest w index req) = fsOps w ∧
  emitted (syncRequest w index req) = emitted w ∧
  ticks (syncRequest w index req) = ticks w.
Proof. unfold syncRequest. destruct (history w !! index); by destruct w. Qed.

Lemma request_callback_frame w index req outcome :
  cookieUpdates (request_callback env w index req outcome).1 = cookieUpdates w ∧
  fsOps (request_callback env w index req outcome).1 = fsOps w.
Proof.
  unfold request_callback. destruct (history w !! index); [|done].
  destruct outcome; by destruct w.
Qed.

Lemma request_callback_error w index req e :
  emitted (request_callback env w index req (inl e)).1 = emitted w ∧
  (request_callback env w index req (inl e)).2 = inl e.
Proof. unfold request_callback. destruct (history w !! index); by destruct w. Qed.

(** What the callback of [request] makes of a response. *)
Lemma request_callback_response w index req res rec :
  history w !! index = Some rec →
  ∃ w' res',
    request_callback env w index req (inr res) = (w', inr res') ∧
    statusCode res' = (if bool_decide (statusCode res = 0) then 200 else statusCode res) ∧
    statusText res' = match STATUS_CODES env (statusCode res') with
                      | Some "" | None => "Unknown"
                      | Some t => t
                      end ∧
    res_url res' = res_url res ∧ res_headers res' = res_headers res ∧
    res_body res' = res_body res ∧ res_redirects res' = res_redirects res ∧
    res_time res' = Date_now env (ticks w) ∧
    emitted w' = emitted w ++ [EvResponse req res'] ∧
    history w' = <[index := Resource (r_request rec) (r_target rec) (r_error rec) (Some res')]>
                   (history w).
Proof.
  intros Hrec. unfold request_callback. rewrite Hrec. cbv zeta.
  eexists _, _. split; [reflexivity|]. by destruct w.
Qed.

(** X27: a POST or PUT without a body whose content type is none of
    [application/x-www-form-urlencoded], [multipart/form-data] and
    [text/plain] is never sent: the fetch fails in [createBody] with
    [Unsupported content type], the error is recorded on the resource, and
    nothing was asked of the network, the file system or the cookie store. *)
Theorem unsupported_content_type_fails fuel w method0 url0 options c :
  JS.toUpperCase method0 = "POST" ∨ JS.toUpperCase method0 = "PUT" →
  bodyTruthy (o_body options) = false →
  Headers.get (Headers.appendAll (Headers.of_list (o_headers options)) (b_headers b))
    "content-type" = Some c →
  c ≠ "" →
  let mime := JS.splitHead ";" (JS.replaceCRLF c) in
  mime ≠ "application/x-www-form-urlencoded" → mime ≠ "multipart/form-data" →
  mime ≠ "text/plain" →
  let finished := request env b pipeline (S fuel) w method0 url0 options in
  let failure := Error ("Unsupported content type " +:+ mime) in
  finished.2 = Done (inl failure) ∧
  (∃ record, history finished.1 = history w ++ [record] ∧
             r_error record = Some failure ∧ r_response record = None) ∧
  (∃ req host, emitted finished.1 = emitted w ++ [EvRequest req; EvAuthenticate host]) ∧
  cookieUpdates finished.1 = cookieUpdates w ∧ fsOps finished.1 = fsOps w.
Proof.
  intros Hm Hb Hct Hc mime H1 H2 H3 finished failure.
  destruct (request_start_spec env b w method0 url0 options) as (Hh0 & He0 & Hr0).
  subst finished. unfold request.
  assert (let started := request_start env b w method0 url0 options in
          method started.2 = JS.toUpperCase method0 ∧
          headers started.2 = Headers.of_list (o_headers options) ∧
          req_body started.2 = o_body options ∧
          cookieUpdates started.1 = cookieUpdates w ∧ fsOps started.1 = fsOps w)
    as (Hmeth & Hhs & Hbody & Hck0 & Hfs0) by by destruct w.
  destruct (request_start env b w method0 url0 options) as [w0 req0].
  simpl in Hh0, He0, Hr0, Hmeth, Hhs, Hbody, Hck0, Hfs0. cbv beta iota.
  rewrite runPipeline_S. unfold defaultHandlersInOrder.
  rewrite nextRequestHandler_cons, normalizeURL_spec. cbv beta iota.
  set (req1 := set_url req0 (normalizedURL env b req0)).
  assert (method req1 = method req0 ∧ headers req1 = headers req0 ∧
          req_body req1 = req_body req0) as (Hm1 & Hh1 & Hb1) by by destruct req0.
  destruct (mergeHeaders_frame env b w0 req1) as (w2 & hs & Hmerge & Hframe & Hhist2 & Hck2 & Hfs2 & _ & He2).
  rewrite nextRequestHandler_cons, Hmerge. cbv beta iota.
  set (req2 := set_headers req1 hs).
  assert (method req2 = method req1 ∧ headers req2 = hs ∧ req_body req2 = req_body req1)
    as (Hm2 & Hh2 & Hb2) by by destruct req1.
  destruct (createBody_unsupported env b w2 req2 c) as [req3 Hcreate];
    [congruence|congruence| |done|done|done|done|].
  { rewrite Hh2, Hframe by done. by rewrite Hh1, Hhs. }
  rewrite nextRequestHandler_cons, Hcreate. cbv beta iota.
  rewrite Hh0 in Hhist2.
  destruct (syncRequest_spec w2 (history w) _ req3 Hhist2) as [Hsh Hse]. simpl in Hsh.
  destruct (request_callback_spec env _ (history w) _ req3 (inl failure) Hsh)
    as (rec' & evs' & Hh3 & _ & _ & He3 & _ & Herr & Hok).
  destruct (syncRequest_frame w2 (length (history w)) req3) as (Hck2' & Hfs2' & Hem2' & _).
  destruct (request_callback_frame (syncRequest w2 (length (history w)) req3)
              (length (history w)) req3 (inl failure)) as (Hck3 & Hfs3).
  destruct (request_callback_error (syncRequest w2 (length (history w)) req3)
              (length (history w)) req3 failure) as (Hem3 & _).
  unfold failure, mime in *.
  destruct (request_callback env _ _ req3 (inl _)) as [w3 r3]. simpl in *.
  destruct r3 as [e|res].
  2:{ destruct (Hok res eq_refl) as (_ & _ & res0 & Hbad & _). discriminate Hbad. }
  destruct (Herr e eq_refl) as ([= <-] & Herror & Hresp).
  split; [done|]. split; [by exists rec'|].
  split; [|split; congruence].
  eexists _, _. rewrite Hem3, Hem2', He2, He0. by rewrite <- app_assoc.
Qed.

(** The response stage for a request that is not http(s) and a response
    without headers: the response comes out as it went in. *)
Lemma response_stage_plain resubmit w req res :
  isHTTP (protocol (URL_parse env (url req))) = false →
  res_headers res = [] →
  (∀ bytes, res_body res ≠ Text bytes) →
  nextResponseHandler env b resubmit w req res [handleResponse; decompressBody; decodeBody]
  = (w, Done (inr res)).
Proof.
  intros Hp Hh Hb. destruct res as [ru sc st hs bd rd tm]. simpl in Hh. subst hs.
  cbn [nextResponseHandler]. rewrite handleResponse_not_http by done.
  unfold withHeaders. simpl.
  destruct bd as [|t|bytes]; simpl; [done|by destruct (Hb t)|done].
Qed.

Lemma fs_fsOps w o : fsOps (fs w o) = fsOps w ++ [o].
Proof. done. Qed.

Lemma fs_cookieUpdates w o : cookieUpdates (fs w o) = cookieUpdates w.
Proof. done. Qed.

(** The calls of a file request on the file system. *)
Lemma makeHTTPRequest_file w req decoded :
  protocol (URL_parse env (url req)) = "file:" → method req = "GET" →
  decodeURI env (pathname (URL_parse env (url req))) = Some decoded →
  let filename := Path_normalize env decoded in
  makeHTTPRequest env b w req
  = if File_exists env filename then
      match File_readFile env filename with
      | inl error => (fs (fs w (FsExists filename)) (FsReadFile filename),
                      set_error req (Some error), ReqFail error)
      | inr buffer => (fs (fs w (FsExists filename)) (FsReadFile filename), req,
                       ReqRespond (bodyOnly buffer))
      end
    else (fs w (FsExists filename), req, ReqRespond (statusOnly 404)).
Proof.
  intros Hp Hm Hd filename. unfold makeHTTPRequest. cbv zeta.
  rewrite Hp, Hm, Hd. rewrite bool_decide_true by done.
  by rewrite (bool_decide_false ("GET" ≠ "GET")) by (intros H; by apply H).
Qed.

(** A GET of a [file:] URL whose path [decodeURI] accepts, through the
    whole default pipeline. *)
Lemma file_fetch_decoded fuel w method0 url0 options decoded :
  JS.toUpperCase method0 = "GET" →
  let u := normalizedURL env b (request_start env b w method0 url0 options).2 in
  protocol (URL_parse env u) = "file:" →
  decodeURI env (pathname (URL_parse env u)) = Some decoded →
  let filename := Path_normalize env decoded in
  let finished := request env b pipeline (S fuel) w method0 url0 options in
  cookieUpdates finished.1 = cookieUpdates w ∧
  (File_exists env filename = false →
     fsOps finished.1 = fsOps w ++ [FsExists filename] ∧
     ∃ res, finished.2 = Done (inr res) ∧ statusCode res = 404 ∧ res_body res = NoBody ∧
            res_url res = u ∧ res_redirects res = 0) ∧
  (File_exists env filename = true →
     fsOps finished.1 = fsOps w ++ [FsExists filename; FsReadFile filename] ∧
     (∀ bytes, File_readFile env filename = inr bytes →
        ∃ res, finished.2 = Done (inr res) ∧ statusCode res = 200 ∧
               res_body res = Buffer bytes ∧ res_url res = u ∧ res_redirects res = 0) ∧
     (∀ e, File_readFile env filename = inl e → finished.2 = Done (inl e))).
Proof.
  intros Hm u Hp Hd filename finished. subst finished u filename. unfold request.
  destruct (request_start_spec env b w method0 url0 options) as (Hh0 & _ & _).
  assert (let started := request_start env b w method0 url0 options in
          method started.2 = JS.toUpperCase method0 ∧
          cookieUpdates started.1 = cookieUpdates w ∧ fsOps started.1 = fsOps w)
    as (Hmeth & Hck0 & Hfs0) by by destruct w.
  destruct (request_start env b w method0 url0 options) as [w0 req0].
  simpl in Hmeth, Hck0, Hfs0, Hp, Hd, Hh0. cbv beta iota.
  rewrite runPipeline_S. unfold defaultHandlersInOrder.
  rewrite nextRequestHandler_cons, normalizeURL_spec. cbv beta iota.
  set (req1 := set_url req0 (normalizedURL env b req0)).
  assert (method req1 = method req0 ∧ url req1 = normalizedURL env b req0)
    as (Hm1 & Hu1) by by destruct req0.
  destruct (mergeHeaders_frame env b w0 req1) as (w2 & hs & Hmerge & _ & Hh2 & Hck2 & Hfs2 & _).
  rewrite nextRequestHandler_cons, Hmerge. cbv beta iota.
  set (req2 := set_headers req1 hs).
  assert (method req2 = "GET" ∧ url req2 = normalizedURL env b req0)
    as (Hm2 & Hu2) by (destruct req1; simpl in *; split; congruence).
  rewrite nextRequestHandler_cons.
  rewrite createBody_other_method by (rewrite Hm2; done). cbv beta iota.
  rewrite nextRequestHandler_cons.
  rewrite (makeHTTPRequest_file w2 req2 decoded) by (rewrite ?Hu2; done).
  cbv zeta.
  set (filename := Path_normalize env decoded).
  set (index := length (history w)).
  assert (isHTTP (protocol (URL_parse env (url req2))) = false) as Hnot.
  { rewrite Hu2, Hp. done. }
  assert (∀ w3 rq, history w3 = history w2 →
            ∃ rec, history (syncRequest w3 index rq) !! index = Some rec) as Hrec.
  { intros w3 rq Hh3. rewrite Hh2, Hh0 in Hh3.
    destruct (syncRequest_spec w3 (history w) _ rq Hh3) as [Hsh _].
    eexists. subst index. rewrite Hsh. apply lookup_last. }
  assert (∀ w3 res,
            history w3 = history w2 → res_url res = "" → res_redirects res = 0 →
            ∃ res', (request_callback env (syncRequest w3 index req2) index req2
                       (inr (set_res_url res (url req2)))).2 = inr res' ∧
                    statusCode res'
                    = (if bool_decide (statusCode res = 0) then 200 else statusCode res) ∧
                    res_body res' = res_body res ∧
                    res_url res' = normalizedURL env b req0 ∧ res_redirects res' = 0 ∧
                    cookieUpdates (request_callback env (syncRequest w3 index req2) index req2
                                     (inr (set_res_url res (url req2)))).1 = cookieUpdates w3 ∧
                    fsOps (request_callback env (syncRequest w3 index req2) index req2
                             (inr (set_res_url res (url req2)))).1 = fsOps w3) as Hdone.
  { intros w3 res Hh3 Hu3 Hr3. destruct (Hrec w3 req2 Hh3) as [rec Hlook].
    destruct (request_callback_response (syncRequest w3 index req2) index req2
                (set_res_url res (url req2)) rec Hlook)
      as (w' & res' & Heq & Hsc & _ & Hurl & _ & Hbd & Hrd & _).
    destruct (request_callback_frame (syncRequest w3 index req2) index req2
                (inr (set_res_url res (url req2)))) as (Hck4 & Hfs4).
    destruct (syncRequest_frame w3 index req2) as (Hck3 & Hfs3 & _).
    rewrite Hck4, Hfs4, Hck3, Hfs3, Heq. exists res'.
    destruct res; simpl in *. split_and!; congruence. }
  destruct (File_exists env filename) eqn:Hex.
  - destruct (File_readFile env filename) as [e|bytes] eqn:Hread; cbv beta iota zeta.
    + set (w3 := fs (fs w2 (FsExists filename)) (FsReadFile filename)).
      destruct (syncRequest_frame w3 index (set_error req2 (Some e))) as (Hck3 & Hfs3 & _).
      destruct (request_callback_frame (syncRequest w3 index (set_error req2 (Some e)))
                  index (set_error req2 (Some e)) (inl e)) as (Hck4 & Hfs4).
      destruct (request_callback_error (syncRequest w3 index (set_error req2 (Some e)))
                  index (set_error req2 (Some e)) e) as (_ & Hres).
      destruct (request_callback env _ _ _ (inl e)) as [w5 r5]. cbn [fst snd] in Hck4, Hfs4, Hres.
      cbn [fst snd]. subst w3.
      split; [by rewrite Hck4, Hck3, !fs_cookieUpdates, Hck2, Hck0|].
      split; [done|]. intros _.
      split; [by rewrite Hfs4, Hfs3, !fs_fsOps, Hfs2, Hfs0, <- app_assoc|].
      split; [done|]. intros e' [= <-]. by rewrite Hres.
    + rewrite bool_decide_true by done.
      change (responseHandlersOf _) with [handleResponse; decompressBody; decodeBody].
      rewrite response_stage_plain by done.
      destruct (Hdone (fs (fs w2 (FsExists filename)) (FsReadFile filename)) (bodyOnly bytes))
        as (res' & Hres & Hsc & Hbd & Hurl & Hrd & Hck4 & Hfs4); [done|done|done|].
      destruct (request_callback env _ _ _ _) as [w5 r5]. cbn [fst snd] in Hres, Hck4, Hfs4.
      cbn [fst snd]. subst r5.
      split; [by rewrite Hck4, !fs_cookieUpdates, Hck2, Hck0|].
      split; [done|]. intros _.
      split; [by rewrite Hfs4, !fs_fsOps, Hfs2, Hfs0, <- app_assoc|].
      split; [|done]. intros bytes' [= <-]. by exists res'.
  - cbv beta iota zeta. rewrite bool_decide_true by done.
    change (responseHandlersOf _) with [handleResponse; decompressBody; decodeBody].
    rewrite response_stage_plain by done.
    destruct (Hdone (fs w2 (FsExists filename)) (statusOnly 404))
      as (res' & Hres & Hsc & Hbd & Hurl & Hrd & Hck4 & Hfs4); [done|done|done|].
    destruct (request_callback env _ _ _ _) as [w5 r5]. cbn [fst snd] in Hres, Hck4, Hfs4.
    cbn [fst snd]. subst r5.
    split; [by rewrite Hck4, !fs_cookieUpdates, Hck2, Hck0|].
    split; [|done]. intros _.
    split; [by rewrite Hfs4, !fs_fsOps, Hfs2, Hfs0|].
    by exists res'.
Qed.

(** A GET of a [file:] URL whose path [decodeURI] refuses. *)
Lemma file_fetch_malformed fuel w method0 url0 options :
  JS.toUpperCase method0 = "GET" →
  let u := normalizedURL env b (request_start env b w method0 url0 options).2 in
  protocol (URL_parse env u) = "file:" →
  decodeURI env (pathname (URL_parse env u)) = None →
  let finished := request env b pipeline (S fuel) w method0 url0 options in
  finished.2 = Done (inl (URIError "URI malformed")) ∧
  cookieUpdates finished.1 = cookieUpdates w ∧ fsOps finished.1 = fsOps w.
Proof.
  intros Hm u Hp Hd finished. subst finished u. unfold request.
  destruct (request_start_spec env b w method0 url0 options) as (Hh0 & _ & _).
  assert (let started := request_start env b w method0 url0 options in
          method started.2 = JS.toUpperCase method0 ∧
          cookieUpdates started.1 = cookieUpdates w ∧ fsOps started.1 = fsOps w)
    as (Hmeth & Hck0 & Hfs0) by by destruct w.
  destruct (request_start env b w method0 url0 options) as [w0 req0].
  simpl in Hmeth, Hck0, Hfs0, Hp, Hd, Hh0. cbv beta iota.
  rewrite runPipeline_S. unfold defaultHandlersInOrder.
  rewrite nextRequestHandler_cons, normalizeURL_spec. cbv beta iota.
  set (req1 := set_url req0 (normalizedURL env b req0)).
  assert (method req1 = method req0 ∧ url req1 = normalizedURL env b req0)
    as (Hm1 & Hu1) by by destruct req0.
  destruct (mergeHeaders_frame env b w0 req1) as (w2 & hs & Hmerge & _ & Hh2 & Hck2 & Hfs2 & _).
  rewrite nextRequestHandler_cons, Hmerge. cbv beta iota.
  set (req2 := set_headers req1 hs).
  assert (method req2 = "GET" ∧ url req2 = normalizedURL env b req0)
    as (Hm2 & Hu2) by (destruct req1; simpl in *; split; congruence).
  rewrite nextRequestHandler_cons.
  rewrite createBody_other_method by (rewrite Hm2; done). cbv beta iota.
  rewrite nextRequestHandler_cons.
  assert (makeHTTPRequest env b w2 req2 = (w2, req2, ReqFail (URIError "URI malformed")))
    as ->.
  { unfold makeHTTPRequest. cbv zeta. rewrite Hu2, Hp, Hm2, Hd.
    rewrite bool_decide_true by done.
    by rewrite (bool_decide_false ("GET" ≠ "GET")) by (intros H; by apply H). }
  cbv beta iota.
  set (index := length (history w)).
  destruct (syncRequest_frame w2 index req2) as (Hck3 & Hfs3 & _).
  destruct (request_callback_frame (syncRequest w2 index req2) index req2
              (inl (URIError "URI malformed"))) as (Hck4 & Hfs4).
  destruct (request_callback_error (syncRequest w2 index req2) index req2
              (URIError "URI malformed")) as (_ & Hres).
  destruct (request_callback env _ _ _ (inl _)) as [w5 r5]. cbn [fst snd] in *.
  split; [by rewrite Hres|]. split; congruence.
Qed.

(** X28: a GET of a [file:] URL through the whole default pipeline.  The
    cookie store is not called.  When [decodeURI] refuses the path (a
    malformed escape), the fetch fails with the URI error and the file
    system is not asked anything.  Otherwise the file system is asked
    whether the decoded path exists and, if so, for its content, and for
    nothing else: a path that does not exist gives a response with status
    404; a file that is read gives a response with status 200 (the default
    for a response without one) whose body is the bytes of the file,
    undecoded; a failed read is the error of the fetch.  The response has
    the URL of the request as resolved and a redirect count of 0. *)
Theorem file_fetch fuel w method0 url0 options :
  JS.toUpperCase method0 = "GET" →
  let u := normalizedURL env b (request_start env b w method0 url0 options).2 in
  protocol (URL_parse env u) = "file:" →
  let finished := request env b pipeline (S fuel) w method0 url0 options in
  cookieUpdates finished.1 = cookieUpdates w ∧
  (decodeURI env (pathname (URL_parse env u)) = None →
     finished.2 = Done (inl (URIError "URI malformed")) ∧ fsOps finished.1 = fsOps w) ∧
  (∀ decoded,
     decodeURI env (pathname (URL_parse env u)) = Some decoded →
     let filename := Path_normalize env decoded in
     (File_exists env filename = false →
        fsOps finished.1 = fsOps w ++ [FsExists filename] ∧
        ∃ res, finished.2 = Done (inr res) ∧ statusCode res = 404 ∧ res_body res = NoBody ∧
               res_url res = u ∧ res_redirects res = 0) ∧
     (File_exists env filename = true →
        fsOps finished.1 = fsOps w ++ [FsExists filename; FsReadFile filename] ∧
        (∀ bytes, File_readFile env filename = inr bytes →
           ∃ res, finished.2 = Done (inr res) ∧ statusCode res = 200 ∧
                  res_body res = Buffer bytes ∧ res_url res = u ∧ res_redirects res = 0) ∧
        (∀ e, File_readFile env filename = inl e → finished.2 = Done (inl e)))).
Proof.
  intros Hm u Hp finished.
  destruct (decodeURI env (pathname (URL_parse env u))) as [decoded|] eqn:Hd.
  - destruct (file_fetch_decoded fuel w method0 url0 options decoded Hm Hp Hd)
      as (Hck & Hmissing & Hthere).
    split; [exact Hck|]. split; [done|].
    intros decoded' [= <-] filename. split; [exact Hmissing|exact Hthere].
  - destruct (file_fetch_malformed fuel w method0 url0 options Hm Hp Hd)
      as (Hres & Hck & Hfs).
    split; [exact Hck|]. split; [by intros _|]. intros decoded' Hbad. discriminate Hbad.
Qed.

(** X29: the response a fetch through the default pipeline resolves
    with.  Its status code is never 0 (a response without one gets 200);
    its status text is the standard text of that code, or [Unknown], never
    empty and never the text a handler or server gave; it is the response
    held by the resource; and the [response] event that announces it is the
    last event of the fetch. *)
Theorem response_defaults fuel w method0 url0 options res :
  let finished := request env b pipeline fuel w method0 url0 options in
  finished.2 = Done (inr res) →
  statusCode res ≠ 0 ∧
  statusText res = match STATUS_CODES env (statusCode res) with
                   | Some "" | None => "Unknown"
                   | Some t => t
                   end ∧
  statusText res ≠ "" ∧
  (∃ req, last (emitted finished.1) = Some (EvResponse req res)) ∧
  (∃ record, last (history finished.1) = Some record ∧ r_response record = Some res ∧
             r_error record = None ∧ length (history finished.1) = S (length (history w))).
Proof.
  intros finished. subst finished. unfold request.
  destruct (request_start_spec env b w method0 url0 options) as (Hh0 & _ & _).
  destruct (request_start env b w method0 url0 options) as [w0 req0].
  simpl in Hh0. cbv beta iota.
  destruct (_runPipeline env b pipeline fuel w0 req0) as [[w1 req'] r] eqn:Hrun.
  destruct (runPipeline_inv env b _ _ _ _ _ _ Hrun) as (Hh1 & _).
  rewrite Hh0 in Hh1.
  destruct (syncRequest_spec w1 (history w) _ req' Hh1) as [Hsh _]. simpl in Hsh.
  destruct r as [[e|res0]| |]; simpl; [| |done|done].
  { destruct (request_callback_error (syncRequest w1 (length (history w)) req')
                (length (history w)) req' e) as [_ He].
    destruct (request_callback env _ _ req' (inl e)) as [w2 r2]. simpl in *. by subst. }
  assert (history (syncRequest w1 (length (history w)) req') !! length (history w)
          = Some (Resource req' (o_target options) None None)) as Hlook.
  { rewrite Hsh. apply lookup_last. }
  destruct (request_callback_response _ _ req' res0 _ Hlook)
    as (w2 & res' & -> & Hsc & Hst & _ & _ & _ & _ & _ & Hem & Hhist).
  simpl. intros [= <-].
  split; [rewrite Hsc; by case_bool_decide|]. split; [done|].
  split; [rewrite Hst; by destruct (STATUS_CODES env _) as [[|]|]|].
  split; [exists req'; by rewrite Hem, last_snoc|].
  eexists. rewrite Hhist, Hsh, insert_last. split; [apply last_snoc|].
  split; [done|]. split; [done|]. rewrite length_app. simpl. lia.
Qed.

End WholeFetches.

(** ** The resource pipeline: a pipeline with a mock *)

Section MockFacts.
Import Resources.
Context (env : Env) (b : browser).
Context (client : browser → requestRecord → option (error + wireResponse)).

Local Abbreviation env' := (withWire env client).

(** The handlers before and after the transport do not look at the
    HTTP client. *)
Lemma normalizeURL_offline : normalizeURL env' = normalizeURL env.
Proof. reflexivity. Qed.

Lemma mergeHeaders_offline : mergeHeaders env' = mergeHeaders env.
Proof. reflexivity. Qed.

Lemma createBody_offline : createBody env' = createBody env.
Proof. reflexivity. Qed.

Lemma handleResponse_offline : handleResponse env' = handleResponse env.
Proof. reflexivity. Qed.

Lemma decompressBody_offline : decompressBody env' = decompressBody env.
Proof. reflexivity. Qed.

Lemma decodeBody_offline : decodeBody env' = decodeBody env.
Proof. reflexivity. Qed.

Lemma nextResponseHandler_ext re1 re2 w req res :
  (∀ w r, re1 w r = re2 w r) →
  nextResponseHandler env' b re1 w req res [handleResponse; decompressBody; decodeBody]
  = nextResponseHandler env b re2 w req res [handleResponse; decompressBody; decodeBody].
Proof.
  intros Hre.
  assert (Forall (λ h : responseHandler, h env' = h env)
            [handleResponse; decompressBody; decodeBody]) as Hhs
    by (repeat constructor).
  revert w res. induction Hhs as [|h hs Hh _ IH]; intros w res; [done|].
  cbn [nextResponseHandler]. rewrite Hh.
  destruct (h env b w req res) as [w1 [res1|e|rr|]]; try done.
  rewrite Hre. destruct (re2 w1 rr) as [w2 [[e2|res2]| |]]; done.
Qed.

Section WithMock.
Context (mock : requestHandler).
Hypothesis mock_answers : ∀ w req, (mock env b w req).2 ≠ ReqNext.
Hypothesis mock_offline : ∀ w req, mock env' b w req = mock env b w req.

Local Abbreviation mocked := (addHandler pipeline (Handler2 mock)).

Lemma runPipeline_mocked fuel w req :
  _runPipeline env' b mocked fuel w req = _runPipeline env b mocked fuel w req.
Proof.
  revert w req. induction fuel as [|fuel IH]; intros w req; [done|].
  change (_runPipeline env' b mocked (S fuel) w req)
    with (nextRequestHandler env' b (reenter env' b mocked fuel) w req
            [Handler2 normalizeURL; Handler2 mergeHeaders; Handler2 createBody;
             Handler2 mock; Handler2 makeHTTPRequest;
             Handler3 handleResponse; Handler3 decompressBody; Handler3 decodeBody]).
  change (_runPipeline env b mocked (S fuel) w req)
    with (nextRequestHandler env b (reenter env b mocked fuel) w req
            [Handler2 normalizeURL; Handler2 mergeHeaders; Handler2 createBody;
             Handler2 mock; Handler2 makeHTTPRequest;
             Handler3 handleResponse; Handler3 decompressBody; Handler3 decodeBody]).
  assert (∀ w r, reenter env' b mocked fuel w r = reenter env b mocked fuel w r) as Hre.
  { intros w1 r1. unfold reenter. by rewrite IH. }
  rewrite !(nextRequestHandler_cons env' b), !(nextRequestHandler_cons env b).
  rewrite normalizeURL_offline.
  destruct (normalizeURL env b w req) as [[w1 req1] [|res1|e1|]]; try done.
  2:{ change (responseHandlersOf _) with [handleResponse; decompressBody; decodeBody].
      cbv zeta. by rewrite (nextResponseHandler_ext _ _ _ _ _ Hre). }
  rewrite !(nextRequestHandler_cons env' b), !(nextRequestHandler_cons env b).
  rewrite mergeHeaders_offline.
  destruct (mergeHeaders env b w1 req1) as [[w2 req2] [|res2|e2|]]; try done.
  2:{ change (responseHandlersOf _) with [handleResponse; decompressBody; decodeBody].
      cbv zeta. by rewrite (nextResponseHandler_ext _ _ _ _ _ Hre). }
  rewrite !(nextRequestHandler_cons env' b), !(nextRequestHandler_cons env b).
  rewrite createBody_offline.
  destruct (createBody env b w2 req2) as [[w3 req3] [|res3|e3|]]; try done.
  2:{ change (responseHandlersOf _) with [handleResponse; decompressBody; decodeBody].
      cbv zeta. by rewrite (nextResponseHandler_ext _ _ _ _ _ Hre). }
  rewrite !(nextRequestHandler_cons env' b), !(nextRequestHandler_cons env b).
  rewrite mock_offline. pose proof (mock_answers w3 req3) as Hans.
  destruct (mock env b w3 req3) as [[w4 req4] [|res4|e4|]]; try done.
  change (responseHandlersOf _) with [handleResponse; decompressBody; decodeBody].
  cbv zeta. by rewrite (nextResponseHandler_ext _ _ _ _ _ Hre).
Qed.

(** X30: a pipeline with a mock.  When a request handler that always
    answers (with a response or an error) has been added to the default
    pipeline, the transport is never reached, on the first request or on
    any redirect that follows: a fetch gives the same result and leaves the
    same world whatever the HTTP client would answer. *)
Theorem mocked_pipeline_offline fuel w method0 url0 options :
  request env' b mocked fuel w method0 url0 options
  = request env b mocked fuel w method0 url0 options.
Proof.
  unfold request. change (request_start env' b w method0 url0 options)
    with (request_start env b w method0 url0 options).
  destruct (request_start env b w method0 url0 options) as [w0 req0].
  rewrite runPipeline_mocked.
  by destruct (_runPipeline env b mocked fuel w0 req0) as [[w1 req1] [outcome| |]].
Qed.

End WithMock.
End MockFacts.

(** ** The theorems at concrete inputs *)

(** The theorem at a gzip-encoded response read from a stream of two
    chunks. *)
Lemma consume_decompresses_witness :
  let env := Sample.fetchEnv in
  let gz := Some (Fetch.ResponseInit (Some 200%Z) None None [("Content-Encoding", "gzip")]) in
  let h := (Fetch.Response_constructor env (Fetch.InitReadable ["ab"; "cd"]) gz
              Fetch.emptyHeap).1 in
  (Fetch._consume env 0 h).2 = inr (Some (Fetch.gunzip env "abcd")).
Proof.
  intros env gz h.
  pose (o := Fetch.Object (Some 0) [("content-encoding", "gzip")] false Fetch.VNull
               (Fetch.ResponseFields "" "default" (Some 200%Z) "OK")).
  destruct (consume_decompresses env 0 h o 0 ["ab"; "cd"]) as (_ & _ & Hgzip & _);
    [reflexivity|reflexivity|reflexivity|reflexivity|].
  apply Hgzip; [discriminate|discriminate|by left].
Defined.

(** The theorem at a response made from a response: once the first is
    read, the second reads as empty. *)
Lemma shared_stream_read_once_witness :
  let env := Sample.fetchEnv in
  let ok := Some (Fetch.ResponseInit (Some 200%Z) None None []) in
  let h1 := (Fetch.Response_constructor env (Fetch.InitString "abc") ok Fetch.emptyHeap).1 in
  let h2 := (Fetch.Response_constructor env (Fetch.InitBody 0) ok h1).1 in
  let h3 := (Fetch.call env Fetch.Json 0 h2).1 in
  (Fetch.text env 1 h3).2 = inr (Fetch.VText "").
Proof.
  intros env ok h1 h2 h3.
  pose (o := Fetch.Object (Some 0) [("content-type", "text/plain;charset=UTF-8")] false
               Fetch.VNull (Fetch.ResponseFields "" "default" (Some 200%Z) "OK")).
  destruct (shared_stream_read_once env Fetch.Json 0 1 h2 o o 0 (Fetch.Stream true ["abc"]))
    as [H _]; [done|reflexivity|reflexivity|reflexivity|reflexivity|reflexivity|reflexivity
              |reflexivity|].
  exact H.
Defined.

(** The theorem at a response made from the string [abc]. *)
Lemma string_body_round_trip_witness :
  let env := Sample.fetchEnv in
  ∃ h1, Fetch.Body_constructor env [] (Fetch.ResponseFields "" "default" (Some 200%Z) "OK")
          (Fetch.InitString "abc") Fetch.emptyHeap = (h1, inr 0) ∧
        (Fetch.text env 0 h1).2 = inr (Fetch.VText "abc").
Proof.
  intros env.
  destruct (string_body_round_trip env [] (Fetch.ResponseFields "" "default" (Some 200%Z) "OK")
              "abc" Fetch.emptyHeap) as (h1 & H1 & H2 & _);
    [discriminate|discriminate|discriminate|discriminate|].
  by exists h1.
Defined.

(** The theorem at a GET request, which has no body. *)
Lemma accessors_without_stream_witness :
  let env := Sample.fetchEnv in
  let h := (Fetch.Request_constructor env (Fetch.InputString "http://example.test/") None
              Fetch.emptyHeap).1 in
  (∃ msg, (Fetch.call env Fetch.Text 0 h).2 = inl (Fetch.TypeError msg)) ∧
  Fetch.usedIn (Fetch.call env Fetch.Text 0 h).1 0.
Proof.
  intros env h.
  pose (o := Fetch.Object None [] false Fetch.VNull
               (Fetch.RequestFields "http://example.test/" "GET" Fetch.follow 0)).
  destruct (accessors_without_stream env Fetch.Text 0 h o) as (H1 & _ & H2);
    [reflexivity|reflexivity|reflexivity|discriminate|].
  by split.
Defined.


(** The theorem at a POST answered with a 303. *)
Lemma redirect_request_headers_witness :
  let req := Resources.Request "POST" "http://example.test/form"
               [("content-type", "text/plain"); ("accept", "*/*")] None
               (Resources.Text "a=1") None 0 0 true "" 0 None in
  ∃ rr, (Resources.handleResponse Sample.env (Sample.browser 5) Sample.world req
           (Sample.redirectTo 303 "/b")).2 = Resources.ResResubmit rr ∧
        Headers.getAll (Resources.headers rr) "Referer" = ["http://example.test/form"] ∧
        Headers.has (Resources.headers rr) "Content-Type" = false ∧
        Headers.getAll (Resources.headers rr) "Accept" = ["*/*"].
Proof.
  intros req. eexists. split; [reflexivity|].
  match goal with
  | |- context [Resources.headers ?rr] =>
      destruct (redirect_request_headers Sample.env (Sample.browser 5) Sample.world req
                  (Sample.redirectTo 303 "/b") rr eq_refl)
        as (H1 & H2 & _ & _ & H3 & _)
  end.
  split; [exact H1|]. split; [exact H2|].
  rewrite H3; [reflexivity|discriminate|discriminate|discriminate|discriminate].
Defined.

(** The theorem at a POST of JSON without a body. *)
Lemma unsupported_content_type_fails_witness :
  let options := Resources.Options [("Content-Type", "application/json")] None
                   Resources.NoBody 0 None in
  (Resources.request Sample.env (Sample.browser 5) Resources.pipeline 1 Sample.world
     "post" "http://example.test/api" options).2
  = Resources.Done (inl (Resources.Error "Unsupported content type application/json")).
Proof.
  intros options.
  destruct (unsupported_content_type_fails Sample.env (Sample.browser 5) 0 Sample.world
              "post" "http://example.test/api" options "application/json")
    as [H _]; [by left|reflexivity|reflexivity|discriminate|discriminate|discriminate
              |discriminate|].
  exact H.
Defined.

(** The theorem at the file of the sample disk, at a path that is not
    there, and at a path with a malformed escape. *)
Lemma file_fetch_witness :
  let fetch url :=
    Resources.request Sample.env (Sample.browser 5) Resources.pipeline 1 Sample.world
      "get" url Resources.noOptions in
  (∃ res, (fetch "file:///srv/index.html").2 = Resources.Done (inr res) ∧
          Resources.statusCode res = 200 ∧
          Resources.res_body res = Resources.Buffer "<html></html>") ∧
  (∃ res, (fetch "file:///srv/missing.txt").2 = Resources.Done (inr res) ∧
          Resources.statusCode res = 404) ∧
  ((fetch "file:///srv/100%").2 = Resources.Done (inl (Resources.URIError "URI malformed")) ∧
   Resources.fsOps (fetch "file:///srv/100%").1 = []).
Proof.
  intros fetch. split; [|split].
  - destruct (file_fetch Sample.env (Sample.browser 5) 0 Sample.world "get"
                "file:///srv/index.html" Resources.noOptions)
      as (_ & _ & Hdecoded); [reflexivity|reflexivity|].
    destruct (Hdecoded "/srv/index.html" eq_refl) as (_ & Hread).
    destruct Hread as (_ & Hok & _); [reflexivity|].
    destruct (Hok "<html></html>" eq_refl) as (res & H1 & H2 & H3 & _).
    by exists res.
  - destruct (file_fetch Sample.env (Sample.browser 5) 0 Sample.world "get"
                "file:///srv/missing.txt" Resources.noOptions)
      as (_ & _ & Hdecoded); [reflexivity|reflexivity|].
    destruct (Hdecoded "/srv/missing.txt" eq_refl) as (Hmissing & _).
    destruct Hmissing as (_ & res & H1 & H2 & _); [reflexivity|].
    by exists res.
  - destruct (file_fetch Sample.env (Sample.browser 5) 0 Sample.world "get"
                "file:///srv/100%" Resources.noOptions)
      as (_ & Hbad & _); [reflexivity|reflexivity|].
    exact (Hbad eq_refl).
Defined.

(** The theorem at a fetch that the sample server answers with a 200. *)
Lemma response_defaults_witness :
  ∃ res, (Resources.request Sample.env (Sample.browser 5) Resources.pipeline 1 Sample.world
            "get" "http://example.test/b" Resources.noOptions).2
         = Resources.Done (inr res) ∧
         Resources.statusCode res = 200 ∧ Resources.statusText res = "OK".
Proof.
  eexists. split; [vm_compute; reflexivity|].
  match goal with
  | |- Resources.statusCode ?res = _ ∧ _ =>
      destruct (response_defaults Sample.env (Sample.browser 5) 1 Sample.world "get"
                  "http://example.test/b" Resources.noOptions res)
        as (_ & H & _); [vm_compute; reflexivity|]
  end.
  split; [reflexivity|]. rewrite H. reflexivity.
Defined.

(** The theorem at the sample mock and a network that never answers. *)
Lemma mocked_pipeline_offline_witness :
  let mocked := Resources.addHandler Resources.pipeline (Resources.Handler2 Sample.mock) in
  Resources.request (Resources.withWire Sample.env (λ _ _, None)) (Sample.browser 5) mocked
    10 Sample.world "get" "http://example.test/a" Resources.noOptions
  = Resources.request Sample.env (Sample.browser 5) mocked
      10 Sample.world "get" "http://example.test/a" Resources.noOptions.
Proof.
  intros mocked. apply mocked_pipeline_offline.
  - intros w req. unfold Sample.mock. by case_bool_decide.
  - reflexivity.
Defined.
